(** * Imposter Keda: room snapshot, intent handlers and game rules

    A shallow embedding of the room logic of the party game.  Two variants
    of the room layer live in the sources:

    - the document-store variant ([App.tsx]): every participant
      holds a live copy of one room document and the handlers write the
      document through [updateDoc];
    - the peer-mesh variant ([GameManager], the networking module): guests
      send [ACTION] messages to the host, the host answers with
      [STATE_SYNC] snapshots.

    JavaScript objects used as dictionaries are finite maps, arrays are
    lists, numbers that only ever hold counts and indices are [nat],
    scores are [Z].  [Math.random] and [Date.now] are inputs of the
    handlers that use them. *)

From stdpp Require Import gmap strings list fin_maps pretty.
From Stdlib Require Import ZArith Lia.

(** ** JavaScript helpers *)

(** [Object.keys], [Object.values], [Object.entries].  The enumeration
    order of a finite map is fixed but is not the insertion order of the
    JavaScript object; nothing proved below depends on that order. *)
Definition Object_keys {V} (o : gmap string V) : list string :=
  (map_to_list o).*1.

Definition Object_values {V} (o : gmap string V) : list V :=
  (map_to_list o).*2.

Definition Object_entries {V} (o : gmap string V) : list (string * V) :=
  map_to_list o.

(** Firestore [arrayUnion]: the element is appended unless an equal element
    is already stored. *)
Definition arrayUnion {A} `{EqDecision A} (x : A) (l : list A) : list A :=
  if decide (x ∈ l) then l else l ++ [x].

(** [arr.includes(x)]. *)
Definition includes (x : string) (l : list string) : bool :=
  bool_decide (x ∈ l).

(** One call of [Math.random]: the rational
    [draw_num / (draw_num + draw_gap + 1)], which ranges over [0, 1). *)
Record Draw := mkDraw { draw_num : nat; draw_gap : nat }.

(** [Math.floor(Math.random() * n)]. *)
Definition floor_scale (d : Draw) (n : nat) : nat :=
  (draw_num d * n) / (draw_num d + draw_gap d + 1).

(** [arr.sort(() => Math.random() - 0.5)]: the comparator ignores its
    arguments, the outcome is some rearrangement of the array that depends
    on the draws.  A seed lists, for each element from the right, the
    position at which it is put back. *)
Fixpoint insert_at {A} (k : nat) (x : A) (l : list A) : list A :=
  match k, l with
  | 0, _ => x :: l
  | S k', y :: l' => y :: insert_at k' x l'
  | S _, [] => [x]
  end.

Fixpoint shuffle {A} (seed : list nat) (l : list A) : list A :=
  match l with
  | [] => []
  | x :: l' =>
      match seed with
      | [] => x :: shuffle [] l'
      | k :: seed' => insert_at k x (shuffle seed' l')
      end
  end.

(** [arr.slice(0, n)], a negative [n] counts from the end. *)
Definition slice0 {A} (n : Z) (l : list A) : list A :=
  if (n <? 0)%Z then take (length l - Z.to_nat (- n)) l
  else take (Z.to_nat n) l.

(** Truthiness of a value that is a string, [null] or [undefined]. *)
Definition truthy (v : option string) : bool :=
  match v with
  | None => false
  | Some s => bool_decide (s ≠ EmptyString)
  end.

(** [x || 1] on a number. *)
Definition or_one (x : Z) : Z := if (x =? 0)%Z then 1%Z else x.

(** [arr.join(', ')]. *)
Fixpoint join_comma (l : list string) : string :=
  match l with
  | [] => EmptyString
  | [s] => s
  | s :: l' => s +:+ ", " +:+ join_comma l'
  end.

(** Text is held in a [string] as the bytes of its UTF-8 encoding, which
    is what a string literal denotes.  [code_points] reads the characters
    back: one byte below 128, two bytes for U+0080..U+07FF, three for
    U+0800..U+FFFF, four above.  A byte that does not start a well-formed
    sequence is read as U+FFFD. *)
Definition bytes (s : string) : list N :=
  Ascii.N_of_ascii <$> String.list_ascii_of_string s.

Definition continuation (b : N) : bool :=
  bool_decide (128 ≤ b)%N && bool_decide (b < 192)%N.

Fixpoint code_points (l : list N) : list N :=
  match l with
  | [] => []
  | a :: l1 =>
      if bool_decide (a < 128)%N then a :: code_points l1 else
      match l1 with
      | b :: l2 =>
          if bool_decide (194 ≤ a)%N && bool_decide (a < 224)%N
             && continuation b
          then ((a - 192) * 64 + (b - 128))%N :: code_points l2 else
          match l2 with
          | c :: l3 =>
              if bool_decide (224 ≤ a)%N && bool_decide (a < 240)%N
                 && continuation b && continuation c
                 && bool_decide (2048 ≤ (a - 224) * 4096 + (b - 128) * 64)%N
              then ((a - 224) * 4096 + (b - 128) * 64 + (c - 128))%N
                   :: code_points l3 else
              match l3 with
              | d :: l4 =>
                  if bool_decide (240 ≤ a)%N && bool_decide (a < 245)%N
                     && continuation b && continuation c && continuation d
                     && bool_decide
                          (65536 ≤ (a - 240) * 262144 + (b - 128) * 4096)%N
                  then ((a - 240) * 262144 + (b - 128) * 4096
                        + (c - 128) * 64 + (d - 128))%N :: code_points l4
                  else 65533%N :: code_points l1
              | [] => 65533%N :: code_points l1
              end
          | [] => 65533%N :: code_points l1
          end
      | [] => [65533%N]
      end
  end.

(** The characters that [String.prototype.trim] removes, white space and
    line terminators: U+0009..U+000D, U+0020, U+00A0, U+1680,
    U+2000..U+200A, U+2028, U+2029, U+202F, U+205F, U+3000, U+FEFF. *)
Definition is_space (c : N) : bool :=
  bool_decide (c ∈ [9; 10; 11; 12; 13; 32; 160; 5760; 8232; 8233; 8239;
                    8287; 12288; 65279]%N)
  || (bool_decide (8192 ≤ c)%N && bool_decide (c ≤ 8202)%N).

(** [!s.trim()]: every character of the text is one that [trim] removes. *)
Definition blank (s : string) : bool :=
  forallb is_space (code_points (bytes s)).

(** ** The document-store variant ([App.tsx]) *)

Module App.

Inductive Phase := lobby | playing | voting | result.

#[global] Instance Phase_eq_dec : EqDecision Phase.
Proof. solve_decision. Defined.

Record Player := mkPlayer {
  name : string;
  score : Z;
  lastScoreGain : Z;
  role : string;
  isReady : bool;
  passedTurn : list string
}.

Record ChatMessage := mkChat {
  senderId : option string;
  recipientId : option string;
  sender : string;
  msg : string;
  time : Z
}.

Record HistoryEntry := mkHistory {
  h_date : string;
  h_imposters : string;
  h_word : string;
  h_result : string;
  h_duration : Z
}.

#[global] Instance ChatMessage_eq_dec : EqDecision ChatMessage.
Proof. solve_decision. Defined.

#[global] Instance HistoryEntry_eq_dec : EqDecision HistoryEntry.
Proof. solve_decision. Defined.

Record Room := mkRoom {
  id : string;
  hostId : string;
  state : Phase;
  category : string;
  word : string;
  imposterIds : list string;
  imposterCount : Z;
  round : nat;
  maxRounds : nat;
  players : gmap string Player;
  turnOrder : list string;
  currentTurnIndex : nat;
  votes : gmap string string;
  chats : list ChatMessage;
  historyLog : list HistoryEntry
}.

Definition CATEGORIES : gmap string (list string) :=
  list_to_map [
    ("Food", ["Pizza"; "Sushi"; "Burger"; "Taco"; "Pasta"; "Ice Cream";
              "Steak"; "Salad"; "Pancake"; "Waffle"]);
    ("Animals", ["Lion"; "Penguin"; "Elephant"; "Kangaroo"; "Dolphin";
                 "Tiger"; "Giraffe"; "Monkey"; "Bear"; "Wolf"]);
    ("Locations", ["Hospital"; "School"; "Beach"; "Space Station";
                   "Supermarket"; "Cinema"; "Library"; "Bank"; "Casino";
                   "Museum"]);
    ("Professions", ["Doctor"; "Teacher"; "Pilot"; "Chef"; "Astronaut";
                     "Police"; "Artist"; "Engineer"; "Farmer"; "Lawyer"]);
    ("Movies", ["Inception"; "Titanic"; "Avatar"; "Matrix"; "Jaws";
                "Gladiator"; "Alien"; "Rocky"; "Terminator"; "Halloween"]);
    ("Superheroes", ["Batman"; "Superman"; "Spiderman"; "Iron Man";
                     "Wonder Woman"; "Flash"; "Thor"; "Hulk"; "Wolverine";
                     "Aquaman"]);
    ("Myths", ["Zeus"; "Hercules"; "Medusa"; "Dragon"; "Unicorn"; "Phoenix";
               "Vampire"; "Werewolf"; "Kraken"; "Cyclops"]);
    ("Sports", ["Soccer"; "Basketball"; "Tennis"; "Baseball"; "Golf";
                "Boxing"; "Swimming"; "Cricket"; "Rugby"; "Volleyball"])
  ].

(** The record written for a participant by [createRoom] and [joinRoom]. *)
Definition freshPlayer (profileName : string) : Player :=
  {| name := profileName; score := 0; lastScoreGain := 0; role := EmptyString;
     isReady := false; passedTurn := [] |}.

(** [createRoom]: the document stored for a new room. *)
Definition createRoom (uid profileName newId : string) : Room :=
  {| id := newId; hostId := uid; state := lobby; category := "Food";
     word := EmptyString; imposterIds := []; imposterCount := 1; round := 1;
     maxRounds := 3; players := {[ uid := freshPlayer profileName ]};
     turnOrder := []; currentTurnIndex := 0; votes := ∅; chats := [];
     historyLog := [] |}.

(** The room document with its [players] field replaced. *)
Definition withPlayers (room : Room) (ps : gmap string Player) : Room :=
  {| id := id room; hostId := hostId room; state := state room;
     category := category room; word := word room;
     imposterIds := imposterIds room; imposterCount := imposterCount room;
     round := round room; maxRounds := maxRounds room;
     players := ps; turnOrder := turnOrder room;
     currentTurnIndex := currentTurnIndex room; votes := votes room;
     chats := chats room; historyLog := historyLog room |}.

(** [joinRoom], on a room that exists: the field [players.<uid>] is
    written, whatever it held before. *)
Definition joinRoom (uid profileName : string) (room : Room) : Room :=
  withPlayers room (<[ uid := freshPlayer profileName ]> (players room)).

(** The two lobby selectors: [updateDoc(.., { category })] and
    [updateDoc(.., { imposterCount })]. *)
Definition setCategory (c : string) (room : Room) : Room :=
  {| id := id room; hostId := hostId room; state := state room;
     category := c; word := word room;
     imposterIds := imposterIds room; imposterCount := imposterCount room;
     round := round room; maxRounds := maxRounds room;
     players := players room; turnOrder := turnOrder room;
     currentTurnIndex := currentTurnIndex room; votes := votes room;
     chats := chats room; historyLog := historyLog room |}.

Definition setImposterCount (n : Z) (room : Room) : Room :=
  {| id := id room; hostId := hostId room; state := state room;
     category := category room; word := word room;
     imposterIds := imposterIds room; imposterCount := n;
     round := round room; maxRounds := maxRounds room;
     players := players room; turnOrder := turnOrder room;
     currentTurnIndex := currentTurnIndex room; votes := votes room;
     chats := chats room; historyLog := historyLog room |}.

(** The random inputs of one [startGame]. *)
Record StartDraws := mkStartDraws {
  wordDraw : Draw;
  imposterSeed : list nat;
  orderSeed : list nat
}.

Definition setRole (imposters : list string) (pid : string) (p : Player)
  : Player :=
  {| name := name p; score := score p; lastScoreGain := lastScoreGain p;
     role := if includes pid imposters then "Imposter" else "Crew";
     isReady := isReady p; passedTurn := [] |}.

(** [Math.min(room.imposterCount || 1, Math.floor(pIds.length / 2) || 1)]. *)
Definition startCount (room : Room) : Z :=
  Z.min (or_one (imposterCount room))
        (or_one (Z.of_nat (length (Object_keys (players room)) / 2))).

Definition startGame (rnd : StartDraws) (now : Z) (room : Room) : Room :=
  let pIds := Object_keys (players room) in
  let words := default (default [] (CATEGORIES !! "Food"))
                       (CATEGORIES !! category room) in
  let secretWord :=
    default EmptyString (words !! floor_scale (wordDraw rnd) (length words)) in
  let shuffled := shuffle (imposterSeed rnd) pIds in
  let count := startCount room in
  let imposters := slice0 count shuffled in
  let updatedPlayers := map_imap (λ pid p, Some (setRole imposters pid p))
                                 (players room) in
  {| id := id room; hostId := hostId room; state := playing;
     category := category room; word := secretWord;
     imposterIds := imposters; imposterCount := imposterCount room;
     round := round room; maxRounds := maxRounds room;
     players := updatedPlayers;
     turnOrder := shuffle (orderSeed rnd) pIds;
     currentTurnIndex := 0; votes := ∅;
     chats := arrayUnion
       {| senderId := None; recipientId := None; sender := "System";
          msg := "Game Started! " +:+ pretty count
                 +:+ " Imposter(s) are among us...";
          time := now |} (chats room);
     historyLog := historyLog room |}.

(** [sendChat]: nothing is sent for a blank message or without a selected
    recipient, otherwise the private message is appended to [chats]. *)
Definition sendChat (uid profileName : string) (selectedChatUser : option string)
    (chatMsg : string) (now : Z) (room : Room) : Room :=
  match selectedChatUser with
  | None => room
  | Some EmptyString => room
  | Some recipient =>
      if blank chatMsg then room else
      {| id := id room; hostId := hostId room; state := state room;
         category := category room; word := word room;
         imposterIds := imposterIds room;
         imposterCount := imposterCount room;
         round := round room; maxRounds := maxRounds room;
         players := players room; turnOrder := turnOrder room;
         currentTurnIndex := currentTurnIndex room; votes := votes room;
         chats := arrayUnion
           {| senderId := Some uid; recipientId := Some recipient;
              sender := profileName; msg := chatMsg; time := now |}
           (chats room);
         historyLog := historyLog room |}
  end.

Definition setPassedTurn (l : list string) (p : Player) : Player :=
  {| name := name p; score := score p; lastScoreGain := lastScoreGain p;
     role := role p; isReady := isReady p; passedTurn := l |}.

(** [nextTurn]: the index moves on, wraps to 0 with the round counter
    incremented, and the phase written is ['voting'] once the round
    counter is past [maxRounds], ['playing'] otherwise.  The [players]
    field is rebuilt with every [passedTurn] emptied. *)
Definition nextTurn (room : Room) : Room :=
  let nextIndex := currentTurnIndex room + 1 in
  let overflow := bool_decide (length (turnOrder room) ≤ nextIndex) in
  let nextRound := if overflow then round room + 1 else round room in
  {| id := id room; hostId := hostId room;
     state := if overflow && bool_decide (maxRounds room < nextRound)
              then voting else playing;
     category := category room; word := word room;
     imposterIds := imposterIds room; imposterCount := imposterCount room;
     round := nextRound; maxRounds := maxRounds room;
     players := setPassedTurn [] <$> players room;
     turnOrder := turnOrder room;
     currentTurnIndex := if overflow then 0 else nextIndex;
     votes := votes room; chats := chats room;
     historyLog := historyLog room |}.

(** [passTurn].  [None] is the [TypeError] raised by
    [targetPlayer.passedTurn] when [room.players[targetId]] is undefined;
    nothing has been written at that point.  When the threshold is passed
    the handler calls [nextTurn], whose write of the whole [players] field
    (computed from the same [room]) replaces the list written just
    before. *)
Definition passTurn (uid targetId : string) (room : Room) : option Room :=
  match players room !! targetId with
  | None => None
  | Some targetPlayer =>
      let currentlyPassedBy := passedTurn targetPlayer in
      if includes uid currentlyPassedBy then Some room else
      let newPassedBy := currentlyPassedBy ++ [uid] in
      let totalPlayers := length (Object_keys (players room)) in
      if bool_decide (totalPlayers < 2 * length newPassedBy)
      then Some (nextTurn room)
      else Some (withPlayers room
                   (<[ targetId := setPassedTurn newPassedBy targetPlayer ]>
                      (players room)))
  end.

(** [castVote]: the field [votes.<uid>] is written. *)
Definition castVote (uid targetId : string) (room : Room) : Room :=
  {| id := id room; hostId := hostId room; state := state room;
     category := category room; word := word room;
     imposterIds := imposterIds room; imposterCount := imposterCount room;
     round := round room; maxRounds := maxRounds room;
     players := players room; turnOrder := turnOrder room;
     currentTurnIndex := currentTurnIndex room;
     votes := <[ uid := targetId ]> (votes room);
     chats := chats room; historyLog := historyLog room |}.

(** The first loop of [calculateResults]:
    [voteCounts[vId] = (voteCounts[vId] || 0) + 1] for every stored vote. *)
Definition countVotes (allVotes : gmap string string) : gmap string nat :=
  foldl (λ voteCounts vId, <[ vId := default 0 (voteCounts !! vId) + 1 ]> voteCounts)
        ∅ (Object_values allVotes).

(** The second loop, over the entries of [voteCounts], on the pair
    [(maxVotes, votedOutId)]. *)
Definition tallyStep (acc : nat * option string) (e : string * nat)
  : nat * option string :=
  let '(maxVotes, votedOutId) := acc in
  let '(vId, count) := e in
  if bool_decide (maxVotes < count) then (count, Some vId)
  else if bool_decide (count = maxVotes) then (maxVotes, None)
  else (maxVotes, votedOutId).

Definition tally (entries : list (string * nat)) : nat * option string :=
  foldl tallyStep (0, None) entries.

Definition votedOut (allVotes : gmap string string) : option string :=
  (tally (Object_entries (countVotes allVotes))).2.

(** [votedOutId && rData.imposterIds.includes(votedOutId)]: [null] and the
    empty string are falsy. *)
Definition isImposterCaught (votedOutId : option string)
    (imposters : list string) : bool :=
  truthy votedOutId
  && match votedOutId with
     | Some v => includes v imposters
     | None => false
     end.

Definition setGain (g : Z) (p : Player) : Player :=
  {| name := name p; score := score p; lastScoreGain := g;
     role := role p; isReady := isReady p; passedTurn := passedTurn p |}.

(** [p.score += g; p.lastScoreGain = g]. *)
Definition award (g : Z) (p : Player) : Player :=
  {| name := name p; score := score p + g; lastScoreGain := g;
     role := role p; isReady := isReady p; passedTurn := passedTurn p |}.

(** [rData.imposterIds.forEach(id => { updatedPlayers[id].score += 20; .. })];
    [None] is the [TypeError] on an id without a player record. *)
Fixpoint awardEach (g : Z) (ids : list string) (ps : gmap string Player)
  : option (gmap string Player) :=
  match ids with
  | [] => Some ps
  | i :: ids' =>
      match ps !! i with
      | None => None
      | Some p => awardEach g ids' (<[ i := award g p ]> ps)
      end
  end.

(** [rData.imposterIds.map(id => rData.players[id]?.name).join(', ')]. *)
Definition imposterNames (room : Room) : string :=
  join_comma ((λ i, default EmptyString (name <$> players room !! i)) <$> imposterIds room).

(** The document after the final [updateDoc] of [calculateResults]. *)
Definition publishResult (rData : Room) (updatedPlayers : gmap string Player)
    (winMsg : string) (roomTime now : Z) (date : string) : Room :=
  {| id := id rData; hostId := hostId rData; state := result;
     category := category rData; word := word rData;
     imposterIds := imposterIds rData;
     imposterCount := imposterCount rData;
     round := round rData; maxRounds := maxRounds rData;
     players := updatedPlayers; turnOrder := turnOrder rData;
     currentTurnIndex := currentTurnIndex rData; votes := votes rData;
     chats := arrayUnion
       {| senderId := None; recipientId := None; sender := "System";
          msg := winMsg; time := now |} (chats rData);
     historyLog := arrayUnion
       {| h_date := date; h_imposters := imposterNames rData;
          h_word := word rData; h_result := winMsg;
          h_duration := roomTime |} (historyLog rData) |}.

(** [calculateResults], with the flat awards.  [None] is a
    [TypeError] raised before the document is written. *)
Definition calculateResults (roomTime now : Z) (date : string) (rData : Room)
  : option Room :=
  let votedOutId := votedOut (votes rData) in
  let reset := setGain 0 <$> players rData in
  if isImposterCaught votedOutId (imposterIds rData) then
    match votedOutId ≫= (players rData !!.) with
    | None => None
    | Some out =>
        let winMsg := "Crew Wins! The Imposter (" +:+ name out
                      +:+ ") was caught!" in
        let updatedPlayers :=
          map_imap (λ pId p, Some (if includes pId (imposterIds rData)
                                   then p else award 10 p)) reset in
        Some (publishResult rData updatedPlayers winMsg roomTime now date)
    end
  else
    let winMsg := "Imposter Wins! They evaded capture. (It was "
                  +:+ imposterNames rData +:+ ")" in
    match awardEach 20 (imposterIds rData) reset with
    | None => None
    | Some updatedPlayers =>
        Some (publishResult rData updatedPlayers winMsg roomTime now date)
    end.

(** [resetGame]. *)
Definition resetGame (room : Room) : Room :=
  {| id := id room; hostId := hostId room; state := lobby;
     category := category room; word := EmptyString;
     imposterIds := []; imposterCount := imposterCount room;
     round := 1; maxRounds := maxRounds room;
     players := players room; turnOrder := [];
     currentTurnIndex := 0; votes := ∅;
     chats := chats room; historyLog := historyLog room |}.

(** *** What the page lets a signed-in participant do

    The handlers above check neither the sender nor the phase; the page
    renders each control under a condition.  [enabled uid a room] is that
    condition for the participant [uid] looking at [room]. *)

Inductive Action :=
  | JoinRoom (profileName : string)
  | SetCategory (c : string)
  | SetImposterCount (n : Z)
  | StartGame (rnd : StartDraws) (now : Z)
  | SendChat (profileName recipient chatMsg : string) (now : Z)
  | PassTurn (targetId : string)
  | CastVote (targetId : string)
  | Tally (roomTime now : Z) (date : string)
  | ResetGame.

(** The PASS / DONE buttons of the turn-order strip: one per entry of
    [turnOrder] with [idx === room.currentTurnIndex] whose [passedTurn]
    does not include the viewer; each calls [passTurn(pId)].  Rendering
    the strip reads [room.players[pId].passedTurn] for that entry, so
    without a player record there is no button. *)
Definition passControls (uid : string) (room : Room) : list string :=
  mjoin (imap (λ idx pId,
    match players room !! pId with
    | Some p =>
        if bool_decide (idx = currentTurnIndex room)
           && negb (includes uid (passedTurn p))
        then [pId] else []
    | None => []
    end) (turnOrder room)).

(** The PLAY AGAIN button: inside the result panel, for the host only. *)
Definition showPlayAgain (uid : string) (room : Room) : bool :=
  bool_decide (state room = result) && bool_decide (uid = hostId room).

(** The host's room listener runs [calculateResults] on a snapshot in the
    voting phase that holds at least as many votes as players. *)
Definition listenerTallies (uid : string) (room : Room) : bool :=
  bool_decide (uid = hostId room) && bool_decide (state room = voting)
  && bool_decide (length (Object_keys (players room))
                  ≤ length (Object_keys (votes room))).

Definition enabled (uid : string) (a : Action) (room : Room) : bool :=
  bool_decide (uid ≠ EmptyString) &&
  match a with
  | JoinRoom _ => true
  | SetCategory c =>
      bool_decide (state room = lobby) && bool_decide (uid = hostId room)
      && bool_decide (c ∈ Object_keys CATEGORIES)
  | SetImposterCount n =>
      bool_decide (state room = lobby) && bool_decide (uid = hostId room)
      && bool_decide (n ∈ [1; 2; 3]%Z)
  | StartGame _ _ =>
      bool_decide (state room = lobby) && bool_decide (uid = hostId room)
  | SendChat _ recipient _ _ =>
      bool_decide (recipient ≠ uid)
      && bool_decide (recipient ∈ Object_keys (players room))
  | PassTurn targetId =>
      bool_decide (state room = playing)
      && bool_decide (targetId ∈ passControls uid room)
  | CastVote targetId =>
      bool_decide (state room = voting)
      && bool_decide (targetId ∈ Object_keys (players room))
  | Tally _ _ _ => listenerTallies uid room
  | ResetGame => showPlayAgain uid room
  end.

(** The document after the handler has run; a handler that throws leaves
    the document as it was. *)
Definition perform (uid : string) (a : Action) (room : Room) : Room :=
  match a with
  | JoinRoom profileName => joinRoom uid profileName room
  | SetCategory c => setCategory c room
  | SetImposterCount n => setImposterCount n room
  | StartGame rnd now => startGame rnd now room
  | SendChat profileName recipient chatMsg now =>
      sendChat uid profileName (Some recipient) chatMsg now room
  | PassTurn targetId => default room (passTurn uid targetId room)
  | CastVote targetId => castVote uid targetId room
  | Tally roomTime now date =>
      default room (calculateResults roomTime now date room)
  | ResetGame => resetGame room
  end.

Definition step (room : Room) (ev : string * Action) : Room :=
  if enabled ev.1 ev.2 room then perform ev.1 ev.2 room else room.

(** A session: the events are applied in order, one at a time. *)
Definition run (evs : list (string * Action)) (room : Room) : Room :=
  foldl step room evs.

(** *** The later revision of [calculateResults] (per-vote awards)

    The later revision of the page keeps the tally and replaces the flat
    awards.  Its player records carry one more flag, [isRoleRevealed],
    which this function neither reads nor writes; its updates of the
    per-user statistics documents are outside the room document. *)

Module Rev2.

(** The body of the scoring loop for the player [pid]. *)
Definition gain (rData : Room) (votedOutId : option string)
    (voteCounts : gmap string nat) (caught : bool) (pid : string) : Z :=
  let majorityCount := length (Object_keys (players rData)) / 2 + 1 in
  let myVote := votes rData !! pid in
  let isCorrectVote :=
    truthy myVote && match myVote with
                     | Some v => includes v (imposterIds rData)
                     | None => false
                     end in
  let isImposter := includes pid (imposterIds rData) in
  let joinedMajority :=
    truthy votedOutId && bool_decide (myVote = votedOutId)
    && bool_decide (majorityCount
                    ≤ default 0 (votedOutId ≫= (voteCounts !!.))) in
  if negb isImposter then
    ((if isCorrectVote then 2 else if truthy myVote then -1 else 0)
     + (if joinedMajority then 1 else 0))%Z
  else
    (if negb caught then 3 else 0)%Z.

Definition calculateResults (roomTime now : Z) (date : string) (rData : Room)
  : option Room :=
  let voteCounts := countVotes (votes rData) in
  let votedOutId := votedOut (votes rData) in
  let caught := isImposterCaught votedOutId (imposterIds rData) in
  let updatedPlayers :=
    map_imap (λ pid p, Some (award (gain rData votedOutId voteCounts caught pid) p))
             (setGain 0 <$> players rData) in
  if caught then
    match votedOutId ≫= (players rData !!.) with
    | None => None
    | Some out =>
        Some (publishResult rData updatedPlayers
                ("Crew Wins! The Imposter (" +:+ name out +:+ ") was caught!")
                roomTime now date)
    end
  else
    Some (publishResult rData updatedPlayers
            ("Imposter Wins! They evaded capture. (It was "
             +:+ imposterNames rData +:+ ")")
            roomTime now date).

End Rev2.

(** *** The earlier revision of the turn handlers

    An earlier revision of the page, kept next to the sound module, has
    the same [nextTurn] without the rebuilt [players] field, and a
    [passTurn] that moves on at two acknowledgements. *)

Module Earlier.

Definition nextTurn (room : Room) : Room :=
  let nextIndex := currentTurnIndex room + 1 in
  let overflow := bool_decide (length (turnOrder room) ≤ nextIndex) in
  let nextRound := if overflow then round room + 1 else round room in
  {| id := id room; hostId := hostId room;
     state := if overflow && bool_decide (maxRounds room < nextRound)
              then voting else playing;
     category := category room; word := word room;
     imposterIds := imposterIds room; imposterCount := imposterCount room;
     round := nextRound; maxRounds := maxRounds room;
     players := players room; turnOrder := turnOrder room;
     currentTurnIndex := if overflow then 0 else nextIndex;
     votes := votes room; chats := chats room;
     historyLog := historyLog room |}.

Definition passTurn (uid targetId : string) (room : Room) : option Room :=
  match players room !! targetId with
  | None => None
  | Some targetPlayer =>
      let currentlyPassedBy := passedTurn targetPlayer in
      if includes uid currentlyPassedBy then Some room else
      let newPassedBy := currentlyPassedBy ++ [uid] in
      let written :=
        withPlayers room
          (<[ targetId := setPassedTurn newPassedBy targetPlayer ]>
             (players room)) in
      if bool_decide (2 ≤ length newPassedBy)
      then Some (withPlayers (nextTurn room) (players written))
      else Some written
  end.

End Earlier.

(** *** Notions used in the statements *)

(** The number of stored votes that name [t]. *)
Definition votesFor (allVotes : gmap string string) (t : string) : nat :=
  size (filter (λ kv, kv.2 = t) allVotes).

(** The impostor list of a snapshot is duplicate-free, names players only
    and holds no empty id. *)
Definition impostersOk (room : Room) : Prop :=
  NoDup (imposterIds room)
  ∧ Forall (λ i, is_Some (players room !! i)) (imposterIds room)
  ∧ EmptyString ∉ imposterIds room.

#[global] Instance impostersOk_dec (room : Room) : Decision (impostersOk room).
Proof. unfold impostersOk. apply _. Defined.

(** The flat award given to player [pid]. *)
Definition flatAward (caught : bool) (imposters : list string) (pid : string)
  : Z :=
  if caught then (if includes pid imposters then 0 else 10)
  else (if includes pid imposters then 20 else 0).

Definition inGame (room : Room) : Prop :=
  state room = playing ∨ state room = voting ∨ state room = result.

(** The bound that [startGame] puts on the number of impostors. *)
Definition imposterBound (room : Room) : Prop :=
  1 ≤ length (imposterIds room)
  ∧ length (imposterIds room)
    ≤ Nat.max 1 (length (Object_keys (players room)) / 2).

Definition turnValid (room : Room) : Prop :=
  currentTurnIndex room < length (turnOrder room).

Definition orderIsPermutation (room : Room) : Prop :=
  turnOrder room ≡ₚ Object_keys (players room).

Definition orderWithinPlayers (room : Room) : Prop :=
  NoDup (turnOrder room)
  ∧ ∀ i, i ∈ turnOrder room → i ∈ Object_keys (players room).

(** What holds of every snapshot of a session: no player has the empty
    id, the host is a player, the impostor count is one of the three
    values of the selector, and outside the lobby the impostor list and
    the turn order are sound. *)
Definition roomInv (room : Room) : Prop :=
  players room !! EmptyString = None
  ∧ is_Some (players room !! hostId room)
  ∧ (1 ≤ imposterCount room ≤ 3)%Z
  ∧ (state room ≠ lobby →
     impostersOk room ∧ imposterBound room ∧ orderWithinPlayers room)
  ∧ (state room = playing → turnValid room).

(** What the tally loop maintains about the entries read so far. *)
Definition tallyInv (l : list (string * nat)) (acc : nat * option string)
  : Prop :=
  (∀ k c, (k, c) ∈ l → c ≤ acc.1)
  ∧ (l ≠ [] → ∃ k, (k, acc.1) ∈ l)
  ∧ (l = [] → acc.1 = 0)
  ∧ match acc.2 with
    | Some v => (v, acc.1) ∈ l ∧ ∀ k c, (k, c) ∈ l → k ≠ v → c < acc.1
    | None => l = [] ∨ ∃ k1 k2, k1 ≠ k2 ∧ (k1, acc.1) ∈ l ∧ (k2, acc.1) ∈ l
    end.

(** The controls that only the host is offered. *)
Definition hostOnly (a : Action) : bool :=
  match a with
  | SetCategory _ | SetImposterCount _ | StartGame _ _ | Tally _ _ _
  | ResetGame => true
  | JoinRoom _ | SendChat _ _ _ _ | PassTurn _ | CastVote _ => false
  end.

(** A vote names a player, whose id is not empty. *)
Definition votesOk (room : Room) : Prop :=
  map_Forall (λ _ v, v ≠ EmptyString) (votes room).

#[global] Instance votesOk_dec (room : Room) : Decision (votesOk room).
Proof. unfold votesOk. apply _. Defined.

(** The voter [pid] voted for the player who is voted out, and that player
    gathered a majority of the room: floor(players / 2) + 1 votes. *)
Definition joinedMajority (rData : Room) (pid : string) : bool :=
  match votedOut (votes rData) with
  | Some t =>
      bool_decide (votes rData !! pid = Some t)
      && bool_decide (length (Object_keys (players rData)) / 2 + 1
                      ≤ votesFor (votes rData) t)
  | None => false
  end.

(** The per-vote awards as the specification words them: +2 to a
    non-impostor who voted for an impostor, -1 to a non-impostor who voted
    otherwise, +1 to a voter who joined the majority, +3 to an impostor who
    is not caught. *)
Definition specGain (rData : Room) (pid : string) : Z :=
  let caught :=
    isImposterCaught (votedOut (votes rData)) (imposterIds rData) in
  let isImposter := includes pid (imposterIds rData) in
  let votedImposter := match votes rData !! pid with
                       | Some v => includes v (imposterIds rData)
                       | None => false
                       end in
  ((if negb isImposter && votedImposter then 2 else 0)
   + (if negb isImposter && bool_decide (is_Some (votes rData !! pid))
         && negb votedImposter
      then -1 else 0)
   + (if joinedMajority rData pid then 1 else 0)
   + (if isImposter && negb caught then 3 else 0))%Z.

End App.

(** ** The peer-mesh variant ([GameManager]) *)

Module Mesh.

Inductive GameState := LOBBY | ROLES | PLAYING | VOTING | RESULTS.

Record Player := mkPlayer {
  id : string;
  name : string;
  isHost : bool;
  score : Z;
  passedCount : nat;
  votedFor : option string
}.

Record Message := mkMessage { sender : string; text : string; time : Z }.

Record RoomState := mkRoomState {
  roomId : string;
  state : GameState;
  players : list Player;
  messages : list Message;
  imposterId : option string;
  secretWord : string;
  currentTurnId : option string;
  round : nat;
  maxRounds : nat;
  startTime : Z
}.

(** The payload of an [ACTION] is untyped in the source; these are the
    fields the handlers read.  [targetId] is absent from the payloads that
    do not carry a vote. *)
Record Payload := mkPayload {
  p_name : string;
  p_text : string;
  p_word : string;
  p_targetId : option string
}.

Inductive NetworkMessage :=
  | STATE_SYNC (st : RoomState)
  | CHAT (text senderId : string)
  | ACTION (action : string) (payload : Payload) (senderId : string).

(** The part of a [GameManager] that the handlers read and write; the peer
    object and the connection table are the network. *)
Record GameManager := mkGameManager {
  gm_state : RoomState;
  gm_isHost : bool;
  myId : string;
  myName : string
}.

(** What a handler call leaves behind: the manager, and the snapshots it
    sent to its connections through [broadcastState].  [Threw] is a
    [TypeError]; the assignments made before it stay. *)
Inductive Outcome :=
  | Completed (gm : GameManager) (sent : list RoomState)
  | Threw (gm : GameManager).

Definition getInitialState (now : Z) : RoomState :=
  {| roomId := EmptyString; state := LOBBY; players := []; messages := [];
     imposterId := None; secretWord := EmptyString; currentTurnId := None;
     round := 1; maxRounds := 3; startTime := now |}.

Definition withState (gm : GameManager) (st : RoomState) : GameManager :=
  {| gm_state := st; gm_isHost := gm_isHost gm; myId := myId gm;
     myName := myName gm |}.

(** [broadcastState]: only a host sends. *)
Definition broadcastState (gm : GameManager) : Outcome :=
  if gm_isHost gm then Completed gm [gm_state gm] else Completed gm [].

Definition resetPlayer (clearVote : bool) (p : Player) : Player :=
  {| id := id p; name := name p; isHost := isHost p; score := score p;
     passedCount := 0;
     votedFor := if clearVote then None else votedFor p |}.

(** [startGame(word)]. *)
Definition startGame (word : string) (rnd : Draw) (now : Z) (gm : GameManager)
  : Outcome :=
  if negb (gm_isHost gm) then Completed gm [] else
  let st := gm_state gm in
  let ps := players st in
  let imposterIndex := floor_scale rnd (length ps) in
  match ps !! imposterIndex, ps !! 0 with
  | Some imp, Some first =>
      broadcastState (withState gm
        {| roomId := roomId st; state := ROLES;
           players := resetPlayer true <$> ps; messages := messages st;
           imposterId := Some (id imp); secretWord := word;
           currentTurnId := Some (id first); round := round st;
           maxRounds := maxRounds st; startTime := now |})
  | Some imp, None =>
      Threw (withState gm
        {| roomId := roomId st; state := ROLES; players := ps;
           messages := messages st; imposterId := Some (id imp);
           secretWord := word; currentTurnId := currentTurnId st;
           round := round st; maxRounds := maxRounds st;
           startTime := startTime st |})
  | None, _ =>
      Threw (withState gm
        {| roomId := roomId st; state := ROLES; players := ps;
           messages := messages st; imposterId := imposterId st;
           secretWord := word; currentTurnId := currentTurnId st;
           round := round st; maxRounds := maxRounds st;
           startTime := startTime st |})
  end.

(** [nextTurn].  [idx] is [-1] when nobody holds the turn.  The handler
    that calls it has just found the turn-holder in [players], so
    [players[0]] exists. *)
Definition nextTurn (st : RoomState) : RoomState :=
  let ps := resetPlayer false <$> players st in
  let idx := match list_find (λ p, Some (id p) = currentTurnId st) (players st)
             with
             | Some (i, _) => Z.of_nat i
             | None => (-1)%Z
             end in
  if bool_decide (Z.of_nat (length ps) - 1 ≤ idx)%Z then
    if bool_decide (maxRounds st ≤ round st) then
      {| roomId := roomId st; state := VOTING; players := ps;
         messages := messages st; imposterId := imposterId st;
         secretWord := secretWord st; currentTurnId := currentTurnId st;
         round := round st; maxRounds := maxRounds st;
         startTime := startTime st |}
    else
      {| roomId := roomId st; state := state st; players := ps;
         messages := messages st; imposterId := imposterId st;
         secretWord := secretWord st;
         currentTurnId := id <$> ps !! 0;
         round := round st + 1; maxRounds := maxRounds st;
         startTime := startTime st |}
  else
    {| roomId := roomId st; state := state st; players := ps;
       messages := messages st; imposterId := imposterId st;
       secretWord := secretWord st;
       currentTurnId := id <$> ps !! Z.to_nat (idx + 1);
       round := round st; maxRounds := maxRounds st;
       startTime := startTime st |}.

(** [calculateScores]. *)
Definition scoreOne (imposter : option string) (p : Player) : Player :=
  let crewHit :=
    bool_decide (Some (id p) ≠ imposter)
    && bool_decide (is_Some imposter ∧ votedFor p = imposter) in
  let imposterVoted :=
    bool_decide (Some (id p) = imposter) && truthy (votedFor p) in
  {| id := id p; name := name p; isHost := isHost p;
     score := (score p + (if crewHit then 10 else 0)
               + (if imposterVoted then 5 else 0))%Z;
     passedCount := passedCount p; votedFor := votedFor p |}.

Definition calculateScores (st : RoomState) : RoomState :=
  {| roomId := roomId st; state := state st;
     players := scoreOne (imposterId st) <$> players st;
     messages := messages st; imposterId := imposterId st;
     secretWord := secretWord st; currentTurnId := currentTurnId st;
     round := round st; maxRounds := maxRounds st;
     startTime := startTime st |}.

Definition withPlayers (st : RoomState) (ps : list Player) : RoomState :=
  {| roomId := roomId st; state := state st; players := ps;
     messages := messages st; imposterId := imposterId st;
     secretWord := secretWord st; currentTurnId := currentTurnId st;
     round := round st; maxRounds := maxRounds st;
     startTime := startTime st |}.

Definition withPhase (st : RoomState) (ph : GameState) : RoomState :=
  {| roomId := roomId st; state := ph; players := players st;
     messages := messages st; imposterId := imposterId st;
     secretWord := secretWord st; currentTurnId := currentTurnId st;
     round := round st; maxRounds := maxRounds st;
     startTime := startTime st |}.

Definition bumpPassed (p : Player) : Player :=
  {| id := id p; name := name p; isHost := isHost p; score := score p;
     passedCount := passedCount p + 1; votedFor := votedFor p |}.

Definition setVotedFor (v : option string) (p : Player) : Player :=
  {| id := id p; name := name p; isHost := isHost p; score := score p;
     passedCount := passedCount p; votedFor := v |}.

(** The [ACTION] branch of [handleMessage], on the host. *)
Definition hostAction (action : string) (payload : Payload) (senderId : string)
    (rnd : Draw) (now : Z) (gm : GameManager) : Outcome :=
  let st := gm_state gm in
  if bool_decide (action = "JOIN") then
    match list_find (λ p, id p = senderId) (players st) with
    | Some _ => Completed gm []
    | None =>
        broadcastState (withState gm (withPlayers st (players st ++
          [ {| id := senderId; name := p_name payload; isHost := false;
               score := 0; passedCount := 0; votedFor := None |} ])))
    end
  else if bool_decide (action = "CHAT") then
    broadcastState (withState gm
      {| roomId := roomId st; state := state st; players := players st;
         messages := messages st ++
           [ {| sender := p_name payload; text := p_text payload;
                time := now |} ];
         imposterId := imposterId st; secretWord := secretWord st;
         currentTurnId := currentTurnId st; round := round st;
         maxRounds := maxRounds st; startTime := startTime st |})
  else if bool_decide (action = "START_GAME") then
    startGame (p_word payload) rnd now gm
  else if bool_decide (action = "PASS_TURN") then
    match list_find (λ p, Some (id p) = currentTurnId st) (players st) with
    | None => Completed gm []
    | Some (i, p) =>
        let st1 := withPlayers st (<[ i := bumpPassed p ]> (players st)) in
        broadcastState (withState gm
          (if bool_decide (2 ≤ passedCount p + 1) then nextTurn st1 else st1))
    end
  else if bool_decide (action = "VOTE") then
    let ps := match list_find (λ p, id p = senderId) (players st) with
              | Some (i, voter) =>
                  <[ i := setVotedFor (p_targetId payload) voter ]> (players st)
              | None => players st
              end in
    let st1 := withPlayers st ps in
    broadcastState (withState gm
      (if forallb (λ p, truthy (votedFor p)) ps
       then withPhase (calculateScores st1) RESULTS else st1))
  else Completed gm [].

(** [handleMessage]. *)
Definition handleMessage (m : NetworkMessage) (rnd : Draw) (now : Z)
    (gm : GameManager) : Outcome :=
  match m with
  | STATE_SYNC st => Completed (withState gm st) []
  | ACTION action payload senderId =>
      if gm_isHost gm then hostAction action payload senderId rnd now gm
      else Completed gm []
  | CHAT _ _ => Completed gm []
  end.

(** [sendAction]: a host handles the action itself; a guest hands the
    message to its connection to the host, when it has one. *)
Definition sendAction (action : string) (payload : Payload) (connected : bool)
    (rnd : Draw) (now : Z) (gm : GameManager)
  : Outcome * option NetworkMessage :=
  if gm_isHost gm
  then (handleMessage (ACTION action payload (myId gm)) rnd now gm, None)
  else (Completed gm [],
        if connected then Some (ACTION action payload (myId gm)) else None).

End Mesh.

(** ** Sign-up and login ([handleAuth]) *)

Module Auth.

(** Text typed by the user, as its UTF-16 code units. *)
Definition JsString := list N.

(** The characters removed by [String.prototype.trim]. *)
Definition isWhiteSpace (c : N) : bool :=
  bool_decide (c ∈ [9; 10; 11; 12; 13; 32; 160; 5760; 8232; 8233; 8239;
                    8287; 12288; 65279]%N)
  || (bool_decide (8192 ≤ c)%N && bool_decide (c ≤ 8202)%N).

(** [!s.trim()]. *)
Definition trimIsEmpty (s : JsString) : bool := forallb isWhiteSpace s.

(** The Base64 alphabet, as code units: [A-Z], [a-z], [0-9], [+], [/]. *)
Definition alphabet : list N :=
  (N.of_nat <$> (seq 65 26 ++ seq 97 26 ++ seq 48 10)) ++ [43; 47]%N.

Definition b64char (v : N) : N := default 0%N (alphabet !! N.to_nat v).

Definition b64val (c : N) : option N :=
  (λ r, N.of_nat r.1) <$> list_find (λ x, x = c) alphabet.

Definition padChar : N := 61.

Fixpoint encode (s : list N) : list N :=
  match s with
  | [] => []
  | [a] => [b64char (a / 4); b64char (a mod 4 * 16); padChar; padChar]
  | [a; b] =>
      [b64char (a / 4); b64char (a mod 4 * 16 + b / 16);
       b64char (b mod 16 * 4); padChar]
  | a :: b :: c :: s' =>
      b64char (a / 4) :: b64char (a mod 4 * 16 + b / 16)
      :: b64char (b mod 16 * 4 + c / 64) :: b64char (c mod 64) :: encode s'
  end%N.

(** [btoa]: defined on strings of code units below 256, an
    [InvalidCharacterError] otherwise. *)
Definition btoa (s : JsString) : option JsString :=
  if forallb (λ c, bool_decide (c < 256)%N) s then Some (encode s) else None.

(** Decoding of padded Base64 text, the inverse used to read a stored
    [pass] back. *)
Fixpoint atob (t : JsString) : option JsString :=
  match t with
  | [] => Some []
  | [c1; c2; p1; p2] =>
      if bool_decide (p1 = padChar ∧ p2 = padChar) then
        v1 ← b64val c1; v2 ← b64val c2;
        Some [v1 * 4 + v2 / 16]
      else if bool_decide (p2 = padChar) then
        v1 ← b64val c1; v2 ← b64val c2; v3 ← b64val p1;
        Some [v1 * 4 + v2 / 16; v2 mod 16 * 16 + v3 / 4]
      else
        v1 ← b64val c1; v2 ← b64val c2; v3 ← b64val p1; v4 ← b64val p2;
        Some [v1 * 4 + v2 / 16; v2 mod 16 * 16 + v3 / 4; v3 mod 4 * 64 + v4]
  | c1 :: c2 :: c3 :: c4 :: t' =>
      v1 ← b64val c1; v2 ← b64val c2; v3 ← b64val c3; v4 ← b64val c4;
      rest ← atob t';
      Some (v1 * 4 + v2 / 16 :: v2 mod 16 * 16 + v3 / 4
            :: v3 mod 4 * 64 + v4 :: rest)
  | _ => None
  end%N.

(** A document of the [users] collection. *)
Record Profile := mkProfile {
  name : JsString;
  history : list JsString;
  pass : option JsString
}.

(** What ends up in the [error] state of the page. *)
Inductive AuthError :=
  | NameMissing
  | AuthRejected (message : string)
  | InvalidCharacter
  | NoDocumentToUpdate.

(** [handleAuth].  [answer] is what the authentication service returns for
    the e-mail and password: the uid of the account, or the message of the
    rejection.  The result is the [users] collection afterwards and the
    error shown, if any. *)
Definition handleAuth (isSignup : bool) (nameInput password : JsString)
    (answer : string + string) (users : gmap string Profile)
  : gmap string Profile * option AuthError :=
  if isSignup then
    if trimIsEmpty nameInput then (users, Some NameMissing) else
    match answer with
    | inr message => (users, Some (AuthRejected message))
    | inl uid =>
        match btoa password with
        | None => (users, Some InvalidCharacter)
        | Some enc =>
            (<[ uid := {| name := nameInput; history := [nameInput];
                          pass := Some enc |} ]> users, None)
        end
    end
  else
    match answer with
    | inr message => (users, Some (AuthRejected message))
    | inl uid =>
        match btoa password with
        | None => (users, Some InvalidCharacter)
        | Some enc =>
            match users !! uid with
            | None => (users, Some NoDocumentToUpdate)
            | Some prof =>
                (<[ uid := {| name := name prof; history := history prof;
                              pass := Some enc |} ]> users, None)
            end
        end
    end.

End Auth.

(** ** Sample sessions *)

Module Sample.
Import App.

Definition draws : StartDraws :=
  {| wordDraw := mkDraw 1 2; imposterSeed := [1; 0; 2];
     orderSeed := [2; 2; 0] |}.

Definition hostRoom : Room := createRoom "h" "Hal" "ROOM01".

(** Three players, one impostor, three rounds, a vote that catches the
    impostor. *)
Definition joins3 : list (string * Action) :=
  [("b", JoinRoom "Bo"); ("c", JoinRoom "Cy")].

Definition start3 : list (string * Action) :=
  joins3 ++ [("h", StartGame draws 100)].

(** Two participants acknowledge the turn of [holder]. *)
Definition passes (holder : string) : list (string * Action) :=
  [("h", PassTurn holder); ("b", PassTurn holder)].

Definition oneRound : list (string * Action) :=
  passes "h" ++ passes "b" ++ passes "c".

Definition play3 : list (string * Action) :=
  start3 ++ oneRound ++ oneRound ++ oneRound.

Definition vote3 : list (string * Action) :=
  play3 ++ [("h", CastVote "b"); ("c", CastVote "b"); ("b", CastVote "c")].

Definition tally3 : list (string * Action) :=
  vote3 ++ [("h", Tally 42 200 "2025-08-01T12:00:00.000Z")].

Definition lobby3 : Room := run joins3 hostRoom.
Definition game3 : Room := run start3 hostRoom.
Definition voting3 : Room := run play3 hostRoom.
Definition voted3 : Room := run vote3 hostRoom.
Definition result3 : Room := run tally3 hostRoom.

(** Four players, the host selects two impostors. *)
Definition start4 : list (string * Action) :=
  [("b", JoinRoom "Bo"); ("c", JoinRoom "Cy"); ("d", JoinRoom "Di");
   ("h", SetImposterCount 2); ("h", StartGame draws 100)].

Definition game4 : Room := run start4 hostRoom.

(** A fourth participant joins while the game of three is under way. *)
Definition late3 : list (string * Action) :=
  start3 ++ [("d", JoinRoom "Di")].

Definition lateJoin : Room := run late3 hostRoom.

(** After the result, a player who is already in the room joins again. *)
Definition rejoined : Room := run (tally3 ++ [("c", JoinRoom "Cy")]) hostRoom.

(** The game of three with the votes of the crew split and the impostor
    voting with the larger side, against a crew member. *)
Definition misled3 : Room :=
  run (play3 ++ [("h", CastVote "c"); ("c", CastVote "b");
                 ("b", CastVote "c")]) hostRoom.

End Sample.

(** Two managers of the peer-mesh variant: a host whose room holds the
    host and one guest, and that guest. *)
Module MeshSample.
Import Mesh.

Definition hostPlayer : Player :=
  {| id := "h1"; name := "Hal"; isHost := true; score := 0;
     passedCount := 0; votedFor := None |}.

Definition guestPlayer : Player :=
  {| id := "g1"; name := "Gil"; isHost := false; score := 7;
     passedCount := 0; votedFor := None |}.

Definition room : RoomState :=
  {| roomId := "h1"; state := LOBBY; players := [hostPlayer; guestPlayer];
     messages := []; imposterId := None; secretWord := EmptyString;
     currentTurnId := None; round := 1; maxRounds := 3; startTime := 0 |}.

Definition host : GameManager :=
  {| gm_state := room; gm_isHost := true; myId := "h1"; myName := "Hal" |}.

Definition guest : GameManager :=
  {| gm_state := room; gm_isHost := false; myId := "g1"; myName := "Gil" |}.

Definition joinPayload : Payload :=
  {| p_name := "Gil"; p_text := EmptyString; p_word := EmptyString;
     p_targetId := None |}.

End MeshSample.

(** ** What the page shows ([App.tsx], rendering and local state) *)

Module View.
Import App.

(** [formatTime], on a counter of seconds: the minutes, a colon, and the
    seconds of the minute on two digits. *)
Definition formatTime (seconds : nat) : string :=
  let m := seconds / 60 in
  let s := seconds mod 60 in
  pretty m +:+ ":" +:+ (if bool_decide (s < 10) then "0" else EmptyString)
  +:+ pretty s.

(** The threshold shown next to the turn-holder in the turn-order strip:
    [Math.floor(Object.keys(room.players).length / 2) + 1]. *)
Definition passesNeeded (room : Room) : nat :=
  length (Object_keys (players room)) / 2 + 1.

(** The private conversation shown to [uid] once [selectedChatUser] is
    picked: the messages between the two, in the order of [chats]. *)
Definition thread (uid selectedChatUser : string) (room : Room)
  : list ChatMessage :=
  filter (λ c, (senderId c = Some uid ∧ recipientId c = Some selectedChatUser)
               ∨ (senderId c = Some selectedChatUser
                  ∧ recipientId c = Some uid))
         (chats room).

(** The feed under the status bar:
    [room.chats.filter(c => c.sender === 'System').slice(-3)]. *)
Definition feed (room : Room) : list ChatMessage :=
  let fromSystem := filter (λ c, sender c = "System") (chats room) in
  drop (length fromSystem - 3) fromSystem.

(** [handleGodModeTrigger], on the pair of [hintClicks] and [showGodMode]:
    the fifth click opens the panel and the counter starts again. *)
Definition handleGodModeTrigger (st : nat * bool) : nat * bool :=
  let next := st.1 + 1 in
  if bool_decide (5 ≤ next) then (0, true) else (next, st.2).

End View.

(** ** The all-time statistics ([App.tsx], later revision)

    The later revision of [calculateResults] also updates, for every
    player, the [stats] field of the player's document in the [users]
    collection. *)

Module Stats.
Import App.

Record UserStats := mkUserStats {
  totalGames : nat;
  wins : nat;
  imposterWins : nat;
  correctVotes : nat;
  totalVotes : nat
}.

Definition INITIAL_STATS : UserStats :=
  {| totalGames := 0; wins := 0; imposterWins := 0; correctVotes := 0;
     totalVotes := 0 |}.

(** A document of the [users] collection; a document written by the first
    revision has no [stats] field. *)
Record UserProfile := mkUserProfile {
  name : Auth.JsString;
  history : list Auth.JsString;
  pass : option Auth.JsString;
  stats : option UserStats
}.

(** The [stats] object written for the player [id] whose document holds
    [currentStats]. *)
Definition statsAfter (rData : Room) (id : string) (currentStats : UserStats)
  : UserStats :=
  let isImposterCaught :=
    isImposterCaught (votedOut (votes rData)) (imposterIds rData) in
  let isImposter := includes id (imposterIds rData) in
  let myVote := votes rData !! id in
  let isCorrectVote :=
    truthy myVote && match myVote with
                     | Some v => includes v (imposterIds rData)
                     | None => false
                     end in
  let didWin := if isImposter then negb isImposterCaught
                else isImposterCaught in
  {| totalGames := totalGames currentStats + 1;
     wins := wins currentStats + (if didWin then 1 else 0);
     imposterWins := imposterWins currentStats
                     + (if isImposter && didWin then 1 else 0);
     totalVotes := totalVotes currentStats + (if truthy myVote then 1 else 0);
     correctVotes := correctVotes currentStats
                     + (if isCorrectVote then 1 else 0) |}.

(** The [users] collection once every update has been written, which
    happens when the win message has been built: each player whose
    document exists gets the new [stats]; the updates touch different
    documents, so their order does not matter. *)
Definition updateStats (rData : Room) (users : gmap string UserProfile)
  : gmap string UserProfile :=
  map_imap (λ id prof,
    Some (if bool_decide (id ∈ Object_keys (players rData))
          then {| name := name prof; history := history prof;
                  pass := pass prof;
                  stats := Some (statsAfter rData id
                                   (default INITIAL_STATS (stats prof))) |}
          else prof)) users.

(** What the profile page divides by: no more wins than games, no more
    wins as impostor than wins, no more correct votes than votes, no more
    votes than games. *)
Definition statsOk (s : UserStats) : Prop :=
  wins s ≤ totalGames s ∧ imposterWins s ≤ wins s
  ∧ correctVotes s ≤ totalVotes s ∧ totalVotes s ≤ totalGames s.

End Stats.

(** ** The peer-mesh variant: connections and screens

    The rest of [GameManager] and the handlers of the screens that drive
    it. *)

Module MeshPage.
Import Mesh.

(** The manager that a handler call leaves behind, completed or not. *)
Definition manager (o : Outcome) : GameManager :=
  match o with
  | Completed gm _ => gm
  | Threw gm => gm
  end.

(** [initialize(name, roomId)], once the peer is open.  [id] is the random
    id drawn for the peer.  Without a room id the manager is the host: its
    room takes the peer id and holds the host as first player.  With one
    it is a guest, and the second component is the [JOIN] request it
    sends when its connection to the host opens. *)
Definition initialize (name : string) (roomId : option string) (id : string)
    (now : Z) : GameManager * option NetworkMessage :=
  let initial := getInitialState now in
  if negb (truthy roomId) then
    ({| gm_state :=
          {| Mesh.roomId := id; state := state initial;
             players := [ {| Mesh.id := id; Mesh.name := name; isHost := true;
                             score := 0; passedCount := 0;
                             votedFor := None |} ];
             messages := messages initial; imposterId := imposterId initial;
             secretWord := secretWord initial;
             currentTurnId := currentTurnId initial; round := round initial;
             maxRounds := maxRounds initial;
             startTime := startTime initial |};
        gm_isHost := true; myId := id; myName := name |}, None)
  else
    ({| gm_state :=
          {| Mesh.roomId := default EmptyString roomId; state := state initial;
             players := players initial; messages := messages initial;
             imposterId := imposterId initial;
             secretWord := secretWord initial;
             currentTurnId := currentTurnId initial; round := round initial;
             maxRounds := maxRounds initial;
             startTime := startTime initial |};
        gm_isHost := false; myId := id; myName := name |},
     Some (ACTION "JOIN"
             {| p_name := name; p_text := EmptyString; p_word := EmptyString;
                p_targetId := None |} id)).

(** [setupConnection], the handler of [close] on the connection to
    [peer]: a host drops the player with that id and publishes the room. *)
Definition onClose (peer : string) (gm : GameManager) : Outcome :=
  if gm_isHost gm then
    broadcastState (withState gm
      (withPlayers (gm_state gm)
         (filter (λ p, id p ≠ peer) (players (gm_state gm)))))
  else Completed gm [].

(** [sendChat(text)]. *)
Definition sendChat (text : string) (connected : bool) (rnd : Draw) (now : Z)
    (gm : GameManager) : Outcome * option NetworkMessage :=
  sendAction "CHAT"
    {| p_name := myName gm; p_text := text; p_word := EmptyString;
       p_targetId := None |} connected rnd now gm.

(** [LobbyScreen], [startGame]: the start button.  [None] is one of the two
    alerts. *)
Definition lobbyStartGame (word : string) (connected : bool) (rnd : Draw)
    (now : Z) (gm : GameManager) : option (Outcome * option NetworkMessage) :=
  if bool_decide (word = EmptyString) then None
  else if bool_decide (length (players (gm_state gm)) < 3) then None
  else Some (sendAction "START_GAME"
               {| p_name := EmptyString; p_text := EmptyString;
                  p_word := word; p_targetId := None |}
               connected rnd now gm).

(** [RoleScreen]: what runs three seconds after the role is revealed by a
    swipe.  [READY_PLAY] is sent first; then a host moves its room to
    [PLAYING] and publishes it. *)
Definition revealTimeout (connected : bool) (rnd : Draw) (now : Z)
    (gm : GameManager) : Outcome * option NetworkMessage :=
  let ready :=
    sendAction "READY_PLAY"
      {| p_name := EmptyString; p_text := EmptyString; p_word := EmptyString;
         p_targetId := None |} connected rnd now gm in
  match ready.1 with
  | Threw gm' => ready
  | Completed gm' sent =>
      if gm_isHost gm' then
        match broadcastState (withState gm' (withPhase (gm_state gm') PLAYING))
        with
        | Completed gm'' sent' => (Completed gm'' (sent ++ sent'), ready.2)
        | Threw gm'' => (Threw gm'', ready.2)
        end
      else ready
  end.

(** [GameScreen], [handlePass]. *)
Definition handlePass (connected : bool) (rnd : Draw) (now : Z)
    (gm : GameManager) : Outcome * option NetworkMessage :=
  sendAction "PASS_TURN"
    {| p_name := EmptyString; p_text := EmptyString; p_word := EmptyString;
       p_targetId := None |} connected rnd now gm.

(** [VotingScreen], [handleVote]: nothing without a selection. *)
Definition handleVote (selectedId : option string) (connected : bool)
    (rnd : Draw) (now : Z) (gm : GameManager)
  : option (Outcome * option NetworkMessage) :=
  if negb (truthy selectedId) then None
  else Some (sendAction "VOTE"
               {| p_name := EmptyString; p_text := EmptyString;
                  p_word := EmptyString; p_targetId := selectedId |}
               connected rnd now gm).

(** [ResultsScreen], the play-again button: a host puts the room back in
    [LOBBY] and publishes it. *)
Definition playAgain (gm : GameManager) : Outcome :=
  if gm_isHost gm
  then broadcastState (withState gm (withPhase (gm_state gm) LOBBY))
  else Completed gm [].

(** [GameScreen], the elapsed time shown as minutes and seconds, on times
    in milliseconds. *)
Definition elapsedMinutes (now startTime : Z) : Z :=
  ((now - startTime) / 60000)%Z.

Definition elapsedSeconds (now startTime : Z) : Z :=
  (Z.rem (now - startTime) 60000 / 1000)%Z.

(** What reaches a host, one event at a time: an [ACTION] message from a
    connection or from its own screens, a connection that closes, its own
    reveal timer, its own play-again button. *)
Inductive HostEvent :=
  | Received (action : string) (payload : Payload) (senderId : string)
      (rnd : Draw) (now : Z)
  | Closed (peer : string)
  | Revealed (rnd : Draw) (now : Z)
  | PlayAgain.

Definition hostStep (gm : GameManager) (ev : HostEvent) : GameManager :=
  match ev with
  | Received action payload senderId rnd now =>
      manager (handleMessage (ACTION action payload senderId) rnd now gm)
  | Closed peer => manager (onClose peer gm)
  | Revealed rnd now => manager (revealTimeout true rnd now gm).1
  | PlayAgain => manager (playAgain gm)
  end.

Definition hostRun (evs : list HostEvent) (gm : GameManager) : GameManager :=
  foldl hostStep gm evs.

End MeshPage.

(** A host whose room of two has been started. *)
Module MeshPageSample.
Import Mesh MeshPage.

Definition started : GameManager :=
  manager (startGame "Pizza" (mkDraw 0 0) 5 MeshSample.host).

Definition thirdPlayer : Player :=
  {| id := "g2"; name := "Gus"; isHost := false; score := 0;
     passedCount := 0; votedFor := None |}.

(** A host with three players in the lobby. *)
Definition host3 : GameManager :=
  withState MeshSample.host
    (withPlayers MeshSample.room
       [MeshSample.hostPlayer; MeshSample.guestPlayer; thirdPlayer]).

End MeshPageSample.

(** ** The commentary request ([callGemini], earlier revision of the page) *)

Module Gemini.

(** How a call ends: with the value obtained, with the error of the last
    attempt, or by leaving the loop without either. *)
Inductive Result (A : Type) :=
  | Returned (v : A)
  | Thrown
  | Ended.

Arguments Returned {A} v.
Arguments Thrown {A}.
Arguments Ended {A}.

(** A call, with the number of requests made and the milliseconds spent
    waiting between them. *)
Record Run (A : Type) := mkRun {
  result : Result A;
  requests : nat;
  waited : Z
}.

Arguments mkRun {A} result requests waited.
Arguments result {A} r.
Arguments requests {A} r.
Arguments waited {A} r.

(** The loop of [callGemini].  [answer k] is what request number [k]
    yields: [None] when anything inside the [try] throws (the request, a
    status that is not ok, the body), the value otherwise.  After a
    failure [retries] goes down; at 0 the error is thrown, otherwise the
    call waits [delay] milliseconds and doubles [delay]. *)
Fixpoint attempt {A} (retries : nat) (delay : Z) (made : nat) (spent : Z)
    (answer : nat → option A) : Run A :=
  match retries with
  | 0 => mkRun Ended made spent
  | S retries' =>
      match answer made with
      | Some v => mkRun (Returned v) (made + 1) spent
      | None =>
          if bool_decide (retries' = 0) then mkRun Thrown (made + 1) spent
          else attempt retries' (delay * 2)%Z (made + 1) (spent + delay)%Z answer
      end
  end.

Definition callGemini {A} (answer : nat → option A) : Run A :=
  attempt 5 1000 0 0 answer.

(** [generateAiRoast]: the text left in [aiRoast] and the flag
    [isGeneratingRoast] at the end.  The text of a candidate may be
    missing. *)
Definition generateAiRoast (answer : nat → option (option string))
  : option string * bool :=
  match result (callGemini answer) with
  | Returned roast => (roast, false)
  | Thrown =>
      (Some "The AI was too stunned by this gameplay to formulate a comment.",
       false)
  | Ended => (None, false)
  end.

End Gemini.

(** * Properties *)

(** ** The helpers *)

Lemma insert_at_perm {A} (k : nat) (x : A) (l : list A) :
  insert_at k x l ≡ₚ x :: l.
Proof.
  revert k; induction l as [|y l IH]; intros [|k]; simpl; try done.
  rewrite IH. apply Permutation_swap.
Qed.

(** Whatever the draws, a shuffle rearranges the array. *)
Lemma shuffle_perm {A} (seed : list nat) (l : list A) : shuffle seed l ≡ₚ l.
Proof.
  revert seed; induction l as [|x l IH]; intros seed; simpl; [done|].
  destruct seed as [|k seed].
  - by rewrite IH.
  - by rewrite insert_at_perm, IH.
Qed.

(** Every rearrangement is the outcome of some draws. *)
Lemma insert_at_reaches {A} (x : A) (l1 l2 : list A) :
  insert_at (length l1) x (l1 ++ l2) = l1 ++ x :: l2.
Proof. induction l1 as [|y l1 IH]; simpl; [done|by rewrite IH]. Qed.

Lemma shuffle_reaches {A} (l l' : list A) :
  l ≡ₚ l' → ∃ seed, length seed = length l ∧ shuffle seed l = l'.
Proof.
  revert l'; induction l as [|x l IH]; intros l' Hp.
  - apply Permutation_nil_l in Hp; subst l'. by exists [].
  - assert (x ∈ l') as Hx by (rewrite <-Hp; left).
    apply list_elem_of_split in Hx as (l1 & l2 & ->).
    apply Permutation_cons_app_inv in Hp.
    destruct (IH _ Hp) as (seed & Hlen & Hs).
    exists (length l1 :: seed); simpl; split; [by rewrite Hlen|].
    by rewrite Hs, insert_at_reaches.
Qed.

Lemma floor_scale_lt (d : Draw) (n : nat) : 0 < n → floor_scale d n < n.
Proof.
  intros Hn. unfold floor_scale.
  apply Nat.Div0.div_lt_upper_bound. nia.
Qed.

Lemma elem_of_Object_keys {V} (o : gmap string V) (k : string) :
  k ∈ Object_keys o ↔ is_Some (o !! k).
Proof.
  unfold Object_keys. rewrite list_elem_of_fmap. split.
  - intros ([k' v] & -> & Hin). apply elem_of_map_to_list in Hin. by exists v.
  - intros [v Hv]. exists (k, v). split; [done|]. by apply elem_of_map_to_list.
Qed.

Lemma NoDup_Object_keys {V} (o : gmap string V) : NoDup (Object_keys o).
Proof. apply NoDup_fst_map_to_list. Qed.

Lemma length_Object_keys {V} (o : gmap string V) :
  length (Object_keys o) = size o.
Proof. unfold Object_keys. by rewrite length_fmap, length_map_to_list. Qed.

Lemma Object_keys_perm {V W} (o1 : gmap string V) (o2 : gmap string W) :
  (∀ k, is_Some (o1 !! k) ↔ is_Some (o2 !! k)) →
  Object_keys o1 ≡ₚ Object_keys o2.
Proof.
  intros H. apply NoDup_Permutation; try apply NoDup_Object_keys.
  intros k. by rewrite !elem_of_Object_keys.
Qed.

Lemma slice0_nonneg {A} (n : Z) (l : list A) :
  (0 ≤ n)%Z → slice0 n l = take (Z.to_nat n) l.
Proof. intros Hn. unfold slice0. by rewrite (proj2 (Z.ltb_ge n 0) Hn). Qed.

Lemma includes_true (x : string) (l : list string) :
  includes x l = true ↔ x ∈ l.
Proof. unfold includes. by rewrite bool_decide_eq_true. Qed.

Lemma includes_false (x : string) (l : list string) :
  includes x l = false ↔ x ∉ l.
Proof. unfold includes. by rewrite bool_decide_eq_false. Qed.

Lemma truthy_Some (v : option string) :
  truthy v = true ↔ ∃ s, v = Some s ∧ s ≠ EmptyString.
Proof.
  destruct v as [s|]; simpl.
  - rewrite bool_decide_eq_true. split; [by exists s|]. by intros (? & [= <-] & ?).
  - split; [done|]. by intros (? & ? & ?).
Qed.

(** ** The document-store variant *)

Module AppFacts.
Import App.

(** *** Turn advance *)

Lemma nextTurn_lookup room pid :
  players (nextTurn room) !! pid = setPassedTurn [] <$> players room !! pid.
Proof. unfold nextTurn; simpl. apply lookup_fmap. Qed.

Lemma nextTurn_step room :
  let r' := nextTurn room in
  (currentTurnIndex room + 1 < length (turnOrder room) →
     currentTurnIndex r' = currentTurnIndex room + 1
     ∧ round r' = round room ∧ state r' = playing)
  ∧ (length (turnOrder room) ≤ currentTurnIndex room + 1 →
     currentTurnIndex r' = 0 ∧ round r' = round room + 1
     ∧ (maxRounds room < round r' → state r' = voting)
     ∧ (round r' ≤ maxRounds room → state r' = playing)).
Proof.
  unfold nextTurn; simpl. split; intros H.
  - rewrite bool_decide_eq_false_2 by lia. done.
  - rewrite bool_decide_eq_true_2 by lia. simpl.
    repeat split; try done; intros H'.
    + by rewrite bool_decide_eq_true_2 by lia.
    + by rewrite bool_decide_eq_false_2 by lia.
Qed.

Lemma advance_position (n m : nat) (room : Room) (k : nat) :
  length (turnOrder room) = n → 0 < n → maxRounds room = m →
  currentTurnIndex room = 0 → round room = 1 →
  let r := Nat.iter k nextTurn room in
  turnOrder r = turnOrder room ∧ maxRounds r = m
  ∧ ∃ q i, k = q * n + i ∧ i < n ∧ currentTurnIndex r = i ∧ round r = 1 + q
           ∧ (0 < k → state r = if decide (i = 0 ∧ m < 1 + q)
                                 then voting else playing).
Proof.
  intros Hn Hpos Hm Hi Hr. induction k as [|k IH]; [simpl|rewrite Nat.iter_succ].
  - repeat split; try done. exists 0, 0. repeat split; try done; lia.
  - destruct IH as (Ht & Hm' & q & i & Hk & Hlt & Hidx & Hrd & _).
    set (r := Nat.iter k nextTurn room) in *.
    split; [done|]. split; [done|].
    destruct (nextTurn_step r) as [Hin Hov].
    destruct (decide (i + 1 < n)) as [Hl|Hl].
    + destruct Hin as (H1 & H2 & H3); [rewrite Ht, Hidx, Hn; lia|].
      exists q, (i + 1). split_and!; try lia.
      intros _. rewrite H3. by rewrite decide_False by lia.
    + destruct Hov as (H1 & H2 & H3 & H4); [rewrite Ht, Hidx, Hn; lia|].
      exists (q + 1), 0. split_and!; try lia.
      intros _. case_decide.
      * apply H3. lia.
      * apply H4. lia.
Qed.

Lemma rollover (n m : nat) (room : Room) :
  length (turnOrder room) = n → 0 < n → maxRounds room = m → 0 < m →
  currentTurnIndex room = 0 → round room = 1 →
  (∀ k, 1 ≤ k < n * m → state (Nat.iter k nextTurn room) = playing)
  ∧ state (Nat.iter (n * m) nextTurn room) = voting.
Proof.
  intros Hn Hpos Hm Hmpos Hi Hr. split.
  - intros k Hk.
    destruct (advance_position n m room k) as (_ & _ & q & i & Hq & Hlt & _ & _ & Hs); try done.
    rewrite Hs by lia. rewrite decide_False; [done|]. intros [-> ?]. nia.
  - destruct (advance_position n m room (n * m)) as (_ & _ & q & i & Hq & Hlt & _ & _ & Hs); try done.
    rewrite Hs by nia. rewrite decide_True; [done|].
    assert (i = 0 ∧ q = m) as [-> ->]; [|lia].
    assert (q = m) by nia. subst. split; [nia|done].
Qed.

(** C5.  One turn advance moves the index on by one; past the end of
    [turnOrder] it goes back to 0 and the round counter is incremented;
    the phase written is voting when the incremented counter is past
    [maxRounds] and active play otherwise; every player's
    acknowledgement list is emptied.  From the start of a game of 3
    players and 3 rounds the 9th advance is the first to reach voting. *)
Theorem C5_turn_advance :
  (∀ room, let r' := nextTurn room in
     (currentTurnIndex room + 1 < length (turnOrder room) →
        currentTurnIndex r' = currentTurnIndex room + 1
        ∧ round r' = round room ∧ state r' = playing)
     ∧ (length (turnOrder room) ≤ currentTurnIndex room + 1 →
        currentTurnIndex r' = 0 ∧ round r' = round room + 1
        ∧ (maxRounds room < round r' → state r' = voting)
        ∧ (round r' ≤ maxRounds room → state r' = playing))
     ∧ (∀ pid, passedTurn <$> players r' !! pid
               = (λ _, []) <$> players room !! pid))
  ∧ (∀ room, length (turnOrder room) = 3 → maxRounds room = 3 →
       currentTurnIndex room = 0 → round room = 1 →
       (∀ k, 1 ≤ k < 9 → state (Nat.iter k nextTurn room) = playing)
       ∧ state (Nat.iter 9 nextTurn room) = voting).
Proof.
  split.
  - intros room r'. destruct (nextTurn_step room) as [H1 H2].
    split; [done|]. split; [done|]. intros pid. unfold r'.
    rewrite nextTurn_lookup. by destruct (players room !! pid).
  - intros room Hn Hm Hi Hr.
    by apply (rollover 3 3 room); try lia.
Qed.

Lemma C5_turn_advance_witness :
  state (Nat.iter 8 nextTurn Sample.game3) = playing
  ∧ state (Nat.iter 9 nextTurn Sample.game3) = voting.
Proof.
  destruct (proj2 C5_turn_advance Sample.game3) as [Hplay Hvote];
    [by vm_compute..|].
  split; [apply Hplay; lia|exact Hvote].
Defined.

(** The sample session, driven by acknowledgements: two of the three
    players acknowledge each turn, and after three rounds the room is in the
    voting phase with the round counter at 4. *)
Lemma sample_session_phases :
  state Sample.lobby3 = lobby ∧ state Sample.game3 = playing
  ∧ round Sample.game3 = 1 ∧ state Sample.voting3 = voting
  ∧ round Sample.voting3 = 4 ∧ state Sample.result3 = result.
Proof. by vm_compute. Qed.

(** The earlier revision moves the index, the round and the phase in the
    same way and leaves every acknowledgement list as it is. *)
Lemma Earlier_nextTurn (room : Room) :
  Earlier.nextTurn room = withPlayers (nextTurn room) (players room).
Proof. reflexivity. Qed.

(** *** The tally *)

Lemma votesFor_values (allVotes : gmap string string) (t : string) :
  votesFor allVotes t = length (filter (λ v, v = t) (Object_values allVotes)).
Proof.
  unfold votesFor, Object_values.
  induction allVotes as [|u v m Hu IH] using map_ind.
  - by rewrite map_filter_empty, map_to_list_empty.
  - rewrite (map_to_list_insert m u v Hu); csimpl.
    destruct (decide (v = t)) as [->|Hne].
    + rewrite map_filter_insert_True by done.
      rewrite map_size_insert_None by (by rewrite map_lookup_filter_None; left).
      rewrite filter_cons_True by done. simpl. by rewrite IH.
    + rewrite map_filter_insert_not' by (simpl; naive_solver).
      rewrite filter_cons_False by done. done.
Qed.

Lemma countVotes_fold (acc : gmap string nat) (vs : list string) (t : string) :
  foldl (λ voteCounts vId, <[ vId := default 0 (voteCounts !! vId) + 1 ]> voteCounts)
        acc vs !! t
  = if decide (length (filter (λ v, v = t) vs) = 0) then acc !! t
    else Some (default 0 (acc !! t) + length (filter (λ v, v = t) vs)).
Proof.
  revert acc; induction vs as [|v vs IH]; intros acc; simpl; [done|].
  rewrite IH. destruct (decide (v = t)) as [->|Hne].
  - rewrite lookup_insert_eq, filter_cons_True by done; simpl.
    repeat case_decide; try lia; f_equal; lia.
  - rewrite lookup_insert_ne, filter_cons_False by done. done.
Qed.

Lemma countVotes_lookup (allVotes : gmap string string) (t : string) (c : nat) :
  countVotes allVotes !! t = Some c ↔ c = votesFor allVotes t ∧ 0 < c.
Proof.
  unfold countVotes. rewrite countVotes_fold, <-votesFor_values, lookup_empty.
  case_decide as Hz; simpl.
  - split; [done|]. intros [-> ?]. lia.
  - split; [intros [= <-]; lia|]. by intros [-> ?].
Qed.

Lemma tally_inv (l : list (string * nat)) :
  NoDup l.*1 → (∀ k c, (k, c) ∈ l → 0 < c) → tallyInv l (tally l).
Proof.
  induction l as [|[k c] l IH] using rev_ind; intros Hnd Hpos.
  - unfold tallyInv; simpl. refine (conj _ (conj _ (conj _ _))); try done.
    + intros ?? H; by apply elem_of_nil in H.
    + by left.
  - rewrite fmap_app in Hnd. apply NoDup_app in Hnd as (Hnd & Hk & _).
    assert (∀ c', (k, c') ∉ l) as Hfresh.
    { intros c' Hin. apply (Hk k); [|simpl; left].
      apply list_elem_of_fmap. by exists (k, c'). }
    destruct IH as (Hle & Hmax & Hnil & Hvo); [done|..].
    { intros ???; eapply Hpos; apply elem_of_app; by left. }
    assert (0 < c) as Hc by (eapply Hpos; apply elem_of_app; right; left).
    unfold tally in *. rewrite foldl_snoc.
    destruct (foldl tallyStep (0, None) l) as [mx vo]; simpl in *.
    assert (l ≠ [] ∨ mx = 0) as Hl0.
    { destruct l; [right; by apply Hnil|by left]. }
    unfold tallyStep. case_bool_decide as Hlt; [|case_bool_decide as Heq].
    + unfold tallyInv; simpl. refine (conj _ (conj _ (conj _ _))).
      * intros k' c' [Hin|Hin%list_elem_of_singleton]%elem_of_app.
        -- apply Hle in Hin. lia.
        -- by injection Hin as -> ->.
      * intros _. exists k. apply elem_of_app; right; left.
      * intros Hn. by destruct l.
      * split; [apply elem_of_app; right; left|].
        intros k' c' [Hin|Hin%list_elem_of_singleton]%elem_of_app Hne.
        -- apply Hle in Hin. lia.
        -- by injection Hin as -> ->.
    + subst c. unfold tallyInv; simpl. refine (conj _ (conj _ (conj _ _))).
      * intros k' c' [Hin|Hin%list_elem_of_singleton]%elem_of_app.
        -- by apply Hle in Hin.
        -- by injection Hin as -> ->.
      * intros _. exists k. apply elem_of_app; right; left.
      * intros Hn. by destruct l.
      * right. destruct Hl0 as [Hl0|]; [|lia].
        destruct (Hmax Hl0) as [k0 Hk0].
        exists k0, k. split_and!.
        -- intros ->. by eapply Hfresh.
        -- apply elem_of_app; by left.
        -- apply elem_of_app; right; left.
    + destruct Hl0 as [Hl0|]; [|lia].
      unfold tallyInv; simpl. refine (conj _ (conj _ (conj _ _))).
      * intros k' c' [Hin|Hin%list_elem_of_singleton]%elem_of_app.
        -- by apply Hle in Hin.
        -- injection Hin as -> ->. lia.
      * intros _. destruct (Hmax Hl0) as [k0 Hk0]. exists k0.
        apply elem_of_app; by left.
      * intros Hn. by destruct l.
      * destruct vo as [v|].
        -- destruct Hvo as [Hv Hothers]. split; [apply elem_of_app; by left|].
           intros k' c' [Hin|Hin%list_elem_of_singleton]%elem_of_app Hne.
           ++ by eapply Hothers.
           ++ injection Hin as -> ->. lia.
        -- right. destruct Hvo as [?|(k1 & k2 & ? & ? & ?)]; [done|].
           exists k1, k2. split_and!; try done; apply elem_of_app; by left.
Qed.

(** The player voted out is the one named by strictly more votes than any
    other; without such a player nobody is voted out. *)
Lemma votedOut_spec (allVotes : gmap string string) (t : string) :
  votedOut allVotes = Some t
  ↔ 0 < votesFor allVotes t
    ∧ ∀ t', t' ≠ t → votesFor allVotes t' < votesFor allVotes t.
Proof.
  unfold votedOut, Object_entries.
  set (entries := map_to_list (countVotes allVotes)).
  assert (∀ k c, (k, c) ∈ entries ↔ c = votesFor allVotes k ∧ 0 < c) as Hent.
  { intros k c. unfold entries.
    by rewrite elem_of_map_to_list, countVotes_lookup. }
  destruct (tally_inv entries) as (Hle & Hmax & Hnil & Hvo).
  { apply NoDup_fst_map_to_list. }
  { intros k c Hin. by apply Hent in Hin as [_ ?]. }
  destruct (tally entries) as [mx vo]; simpl in *. split.
  - intros ->. destruct Hvo as [Hv Hothers].
    apply Hent in Hv as [-> Hpos]. split; [done|].
    intros t' Hne. destruct (decide (votesFor allVotes t' = 0)) as [->|Hnz]; [done|].
    eapply Hothers; [|done]. apply Hent. split; [done|lia].
  - intros [Hpos Hothers].
    assert ((t, votesFor allVotes t) ∈ entries) as Ht by by apply Hent.
    pose proof (Hle _ _ Ht) as Hmx.
    destruct vo as [v|].
    + destruct Hvo as [Hv _]. destruct (decide (v = t)) as [->|Hne]; [done|].
      apply Hent in Hv as [Hv _]. specialize (Hothers v Hne). lia.
    + destruct Hvo as [->|(k1 & k2 & Hne & [H1 _]%Hent & [H2 _]%Hent)].
      { by apply elem_of_nil in Ht. }
      destruct (decide (k1 = t)) as [->|Hk1].
      * specialize (Hothers k2 (λ e, Hne (eq_sym e))). lia.
      * specialize (Hothers k1 Hk1). lia.
Qed.

Lemma votedOut_tie (allVotes : gmap string string) (t1 t2 : string) :
  t1 ≠ t2 → votesFor allVotes t1 = votesFor allVotes t2 →
  (∀ t, votesFor allVotes t ≤ votesFor allVotes t1) →
  votedOut allVotes = None.
Proof.
  intros Hne Heq Hmax. destruct (votedOut allVotes) as [t|] eqn:Hout; [|done].
  apply votedOut_spec in Hout as [Hpos Hothers].
  destruct (decide (t = t1)) as [->|Ht1].
  - specialize (Hothers t2 (λ e, Hne (eq_sym e))). lia.
  - specialize (Hothers t1 (λ e, Ht1 (eq_sym e))). specialize (Hmax t). lia.
Qed.

(** *** The flat awards *)

Lemma awardEach_spec (g : Z) (ids : list string) (ps : gmap string Player) :
  NoDup ids → (∀ i, i ∈ ids → is_Some (ps !! i)) →
  ∃ ps', awardEach g ids ps = Some ps'
         ∧ ∀ pid, ps' !! pid = if decide (pid ∈ ids)
                               then award g <$> ps !! pid else ps !! pid.
Proof.
  revert ps; induction ids as [|i ids IH]; intros ps Hnd Hin.
  - exists ps. split; [done|]. intros pid.
    by rewrite decide_False by apply not_elem_of_nil.
  - apply NoDup_cons in Hnd as [Hi Hnd].
    destruct (Hin i) as [p Hp]; [left|]. cbn [awardEach]. rewrite Hp.
    destruct (IH (<[ i := award g p ]> ps) Hnd) as (ps' & Hps' & Hlook).
    { intros j Hj. apply lookup_insert_is_Some'. right. apply Hin. by right. }
    exists ps'. split; [done|]. intros pid. rewrite Hlook.
    destruct (decide (pid = i)) as [->|Hne].
    + rewrite decide_False by done. rewrite decide_True by left.
      by rewrite lookup_insert_eq, Hp.
    + rewrite lookup_insert_ne by done.
      destruct (decide (pid ∈ ids)).
      * by rewrite decide_True by by right.
      * rewrite decide_False; [done|]. by intros [?|?]%elem_of_cons.
Qed.

Lemma isImposterCaught_spec (out : option string) (imposters : list string) :
  EmptyString ∉ imposters →
  isImposterCaught out imposters = true ↔ ∃ t, out = Some t ∧ t ∈ imposters.
Proof.
  intros Hne. unfold isImposterCaught.
  rewrite andb_true_iff, truthy_Some. split.
  - intros [(s & -> & _) Hin%includes_true]. by exists s.
  - intros (t & -> & Hin). split; [|by apply includes_true].
    exists t. split; [done|]. by intros ->.
Qed.

Lemma calculateResults_scores (roomTime now : Z) (date : string) (rData : Room) :
  impostersOk rData →
  ∃ r', calculateResults roomTime now date rData = Some r'
    ∧ state r' = result
    ∧ ∀ pid p, players rData !! pid = Some p →
        ∃ p', players r' !! pid = Some p'
          ∧ score p' = (score p + flatAward
                          (isImposterCaught (votedOut (votes rData)) (imposterIds rData))
                          (imposterIds rData) pid)%Z.
Proof.
  intros (Hnd & Hin & Hne). rewrite Forall_forall in Hin.
  unfold calculateResults.
  destruct (isImposterCaught _ _) eqn:Hc.
  - apply isImposterCaught_spec in Hc as (t & Ht & Himp); [|done].
    rewrite Ht; simpl. destruct (Hin t Himp) as [pt Hpt]. rewrite Hpt.
    eexists; split; [done|]. split; [done|]. intros pid p Hp; simpl.
    rewrite map_lookup_imap, lookup_fmap, Hp; simpl.
    eexists; split; [done|]. unfold flatAward.
    destruct (includes pid (imposterIds rData)); simpl; lia.
  - destruct (awardEach_spec 20 (imposterIds rData) (setGain 0 <$> players rData))
      as (ps' & -> & Hlook); [done|..].
    { intros i Hi. rewrite lookup_fmap. by apply fmap_is_Some, Hin. }
    eexists; split; [done|]. split; [done|]. intros pid p Hp; simpl.
    rewrite Hlook, lookup_fmap, Hp. unfold flatAward, includes.
    case_decide; [rewrite bool_decide_eq_true_2 by done
                 |rewrite bool_decide_eq_false_2 by done]; simpl;
      (eexists; split; [done|]); simpl; lia.
Qed.

(** C3.  The tally votes out the player named by strictly more votes than
    any other and nobody on a tie for the maximum, which counts as the
    impostors evading; the impostors are caught exactly when the player
    voted out is one of them; when they are caught every other player
    gains 10, when they evade every impostor gains 20, and nobody else's
    score moves. *)
Theorem C3_vote_tally_and_outcome (roomTime now : Z) (date : string)
    (rData : Room) :
  impostersOk rData →
  let out := votedOut (votes rData) in
  let caught := isImposterCaught out (imposterIds rData) in
  (∀ t, out = Some t
        ↔ 0 < votesFor (votes rData) t
          ∧ ∀ t', t' ≠ t → votesFor (votes rData) t' < votesFor (votes rData) t)
  ∧ (∀ t1 t2, t1 ≠ t2 →
        votesFor (votes rData) t1 = votesFor (votes rData) t2 →
        (∀ t, votesFor (votes rData) t ≤ votesFor (votes rData) t1) →
        out = None ∧ caught = false)
  ∧ (caught = true ↔ ∃ t, out = Some t ∧ t ∈ imposterIds rData)
  ∧ ∃ r', calculateResults roomTime now date rData = Some r'
      ∧ state r' = result
      ∧ ∀ pid p, players rData !! pid = Some p →
          ∃ p', players r' !! pid = Some p'
            ∧ (caught = true → pid ∉ imposterIds rData →
               score p' = (score p + 10)%Z)
            ∧ (caught = true → pid ∈ imposterIds rData → score p' = score p)
            ∧ (caught = false → pid ∈ imposterIds rData →
               score p' = (score p + 20)%Z)
            ∧ (caught = false → pid ∉ imposterIds rData → score p' = score p).
Proof.
  intros Hok out caught. split_and!.
  - intros t. apply votedOut_spec.
  - intros t1 t2 Hne Heq Hmax.
    assert (out = None) as Hout by by eapply votedOut_tie.
    split; [done|]. unfold caught. by rewrite Hout.
  - apply isImposterCaught_spec, Hok.
  - destruct (calculateResults_scores roomTime now date rData Hok)
      as (r' & Hr' & Hst & Hsc).
    exists r'. split; [done|]. split; [done|]. intros pid p Hp.
    destruct (Hsc pid p Hp) as (p' & Hp' & Hscore). exists p'. split; [done|].
    fold out caught in Hscore. unfold flatAward in Hscore.
    split_and!; intros Hc Hin; rewrite Hc in Hscore;
      [apply includes_false in Hin|apply includes_true in Hin
      |apply includes_true in Hin|apply includes_false in Hin];
      rewrite Hin in Hscore; lia.
Qed.

Lemma C3_vote_tally_and_outcome_witness :
  impostersOk Sample.voted3
  ∧ votedOut (votes Sample.voted3) = Some "b"
  ∧ ∃ r', calculateResults 42 200 "2025-08-01T12:00:00.000Z" Sample.voted3
          = Some r'
          ∧ (score <$> players r' !! "h") = Some 10%Z.
Proof.
  assert (impostersOk Sample.voted3) as Hok by compute_done.
  split; [exact Hok|]. split; [by vm_compute|].
  destruct (C3_vote_tally_and_outcome 42 200 "2025-08-01T12:00:00.000Z"
              Sample.voted3 Hok) as (_ & _ & _ & r' & Hr' & _ & Hsc).
  exists r'. split; [exact Hr'|].
  destruct (Hsc "h" (setRole ["b"] "h" (freshPlayer "Hal")))
    as (p' & Hp' & H10 & _); [by vm_compute|].
  rewrite Hp'. change (Some (score p') = Some 10%Z).
  rewrite H10; [done|by vm_compute|compute_done].
Defined.

(** *** Starting a game *)

Lemma startGame_lookup (rnd : StartDraws) (now : Z) (room : Room) (pid : string) :
  players (startGame rnd now room) !! pid
  = setRole (imposterIds (startGame rnd now room)) pid <$> players room !! pid.
Proof.
  unfold startGame; simpl. rewrite map_lookup_imap.
  by destruct (players room !! pid).
Qed.

Lemma startGame_keys (rnd : StartDraws) (now : Z) (room : Room) :
  Object_keys (players (startGame rnd now room)) ≡ₚ Object_keys (players room).
Proof.
  apply Object_keys_perm. intros k.
  by rewrite startGame_lookup, fmap_is_Some.
Qed.

Lemma startCount_bounds (room : Room) :
  (1 ≤ imposterCount room)%Z →
  (1 ≤ startCount room
   ≤ Z.of_nat (Nat.max 1 (length (Object_keys (players room)) / 2)))%Z.
Proof.
  intros Hic. unfold startCount, or_one.
  set (h := length (Object_keys (players room)) / 2).
  destruct (Z.eqb_spec (imposterCount room) 0); [lia|].
  destruct (Z.eqb_spec (Z.of_nat h) 0); lia.
Qed.

Lemma startGame_imposters (rnd : StartDraws) (now : Z) (room : Room) :
  (1 ≤ imposterCount room)%Z → players room ≠ ∅ →
  let r' := startGame rnd now room in
  NoDup (imposterIds r')
  ∧ (∀ i, i ∈ imposterIds r' → is_Some (players room !! i))
  ∧ length (imposterIds r') = Z.to_nat (startCount room)
  ∧ imposterBound r'.
Proof.
  intros Hic Hne. cbv zeta. set (r' := startGame rnd now room).
  pose proof (startCount_bounds room Hic) as [Hlo Hhi].
  assert (imposterIds r'
          = take (Z.to_nat (startCount room))
                 (shuffle (imposterSeed rnd) (Object_keys (players room))))
    as Himp by (unfold r', startGame; simpl; by rewrite slice0_nonneg by lia).
  assert (0 < length (Object_keys (players room))) as Hn.
  { rewrite length_Object_keys. apply Nat.neq_0_lt_0.
    by rewrite map_size_non_empty_iff. }
  assert (length (imposterIds r') = Z.to_nat (startCount room)) as Hlen.
  { rewrite Himp, length_take, shuffle_perm.
    pose proof (Nat.Div0.div_le_upper_bound
                  (length (Object_keys (players room))) 2
                  (length (Object_keys (players room)))).
    lia. }
  split_and!.
  - rewrite Himp. eapply sublist_NoDup; [|apply sublist_take].
    rewrite shuffle_perm. apply NoDup_Object_keys.
  - intros i Hi. apply elem_of_Object_keys.
    rewrite <-(shuffle_perm (imposterSeed rnd)).
    eapply elem_of_sublist; [|apply sublist_take]. by rewrite <-Himp.
  - done.
  - unfold imposterBound. rewrite Hlen. unfold r'.
    rewrite (startGame_keys rnd now room). lia.
Qed.

Lemma startGame_order (rnd : StartDraws) (now : Z) (room : Room) :
  orderIsPermutation (startGame rnd now room).
Proof.
  unfold orderIsPermutation. rewrite startGame_keys.
  unfold startGame; simpl. apply shuffle_perm.
Qed.


(** *** Joining *)

Lemma joinRoom_lookup (uid profileName : string) (room : Room) (k : string) :
  players (joinRoom uid profileName room) !! k
  = if decide (uid = k) then Some (freshPlayer profileName)
    else players room !! k.
Proof. unfold joinRoom; simpl. apply lookup_insert. Qed.

Lemma joinRoom_size (uid profileName : string) (room : Room) :
  size (players (joinRoom uid profileName room))
  = match players room !! uid with
    | Some _ => size (players room)
    | None => S (size (players room))
    end.
Proof.
  unfold joinRoom; simpl. rewrite map_size_insert.
  by destruct (players room !! uid).
Qed.

(** C6 on the document store.  [joinRoom] writes a fresh record under the
    sender's id whether or not the sender is a player already: there is one
    record per id, a new player starts with score 0 and an empty role, but
    a player who joins again loses the score.  In the sample session "c"
    has 10 points after the result and 0 after joining again. *)
Theorem C6_join_overwrites :
  (∀ uid profileName room,
     players (joinRoom uid profileName room) !! uid
     = Some (freshPlayer profileName)
     ∧ score (freshPlayer profileName) = 0%Z
     ∧ role (freshPlayer profileName) = EmptyString)
  ∧ (∀ uid profileName room,
       joinRoom uid profileName (joinRoom uid profileName room)
       = joinRoom uid profileName room)
  ∧ enabled "c" (JoinRoom "Cy") Sample.result3 = true
  ∧ (score <$> players Sample.result3 !! "c") = Some 10%Z
  ∧ Sample.rejoined = joinRoom "c" "Cy" Sample.result3
  ∧ (score <$> players Sample.rejoined !! "c") = Some 0%Z
  ∧ size (players Sample.rejoined) = size (players Sample.result3).
Proof.
  split_and!.
  - intros uid profileName room. split; [|done].
    by rewrite joinRoom_lookup, decide_True.
  - intros uid profileName room. unfold joinRoom, withPlayers; simpl.
    by rewrite insert_insert_eq.
  - by vm_compute.
  - by vm_compute.
  - unfold Sample.rejoined, Sample.result3, run. rewrite foldl_snoc.
    unfold step at 1. cbn [fst snd].
    assert (enabled "c" (JoinRoom "Cy") (foldl step Sample.hostRoom Sample.tally3) = true) as ->
      by (by vm_compute).
    done.
  - by vm_compute.
  - by vm_compute.
Qed.

(** *** Passing the turn *)

Lemma elem_of_passControls (uid targetId : string) (room : Room) :
  targetId ∈ passControls uid room
  ↔ turnOrder room !! currentTurnIndex room = Some targetId
    ∧ ∃ tp, players room !! targetId = Some tp ∧ uid ∉ passedTurn tp.
Proof.
  unfold passControls. rewrite list_elem_of_join. split.
  - intros (l & Hin & Hl). apply elem_of_lookup_imap in Hl as (idx & pId & -> & Hidx).
    destruct (players room !! pId) as [p|] eqn:Hp; [|by apply elem_of_nil in Hin].
    destruct (bool_decide (idx = currentTurnIndex room)) eqn:Hcur; simpl in Hin;
      [|by apply elem_of_nil in Hin].
    destruct (includes uid (passedTurn p)) eqn:Hinc; simpl in Hin;
      [by apply elem_of_nil in Hin|].
    apply list_elem_of_singleton in Hin as ->.
    apply bool_decide_eq_true in Hcur as <-. split; [done|].
    exists p. split; [done|]. by apply includes_false.
  - intros (Hcur & tp & Hp & Hnot). exists [targetId]. split; [left|].
    apply elem_of_lookup_imap. exists (currentTurnIndex room), targetId.
    split; [|done]. rewrite Hp, bool_decide_eq_true_2 by done.
    by rewrite (proj2 (includes_false _ _) Hnot).
Qed.

Lemma passTurn_spec (uid targetId : string) (room : Room) (tp : Player) :
  players room !! targetId = Some tp →
  (uid ∈ passedTurn tp → passTurn uid targetId room = Some room)
  ∧ (uid ∉ passedTurn tp →
     let count := length (passedTurn tp) + 1 in
     (length (Object_keys (players room)) < 2 * count →
      passTurn uid targetId room = Some (nextTurn room))
     ∧ (2 * count ≤ length (Object_keys (players room)) →
        passTurn uid targetId room
        = Some (withPlayers room
                  (<[ targetId := setPassedTurn (passedTurn tp ++ [uid]) tp ]>
                     (players room))))).
Proof.
  intros Hp. unfold passTurn. rewrite Hp. split.
  - intros Hin. by rewrite (proj2 (includes_true _ _) Hin).
  - intros Hnot. rewrite (proj2 (includes_false _ _) Hnot).
    rewrite length_app; simpl. split; intros Hc.
    + by rewrite bool_decide_eq_true_2 by lia.
    + by rewrite bool_decide_eq_false_2 by lia.
Qed.

(** What one accepted acknowledgement does to the fields of the room. *)
Lemma passTurn_outcome (uid targetId : string) (room : Room) (tp : Player) :
  players room !! targetId = Some tp → uid ∉ passedTurn tp →
  let count := length (passedTurn tp) + 1 in
  let i := currentTurnIndex room in
  let len := length (turnOrder room) in
  ∃ r', passTurn uid targetId room = Some r'
    ∧ turnOrder r' = turnOrder room
    ∧ (length (Object_keys (players room)) < 2 * count →
       r' = nextTurn room
       ∧ (i + 1 < len →
          currentTurnIndex r' = i + 1 ∧ round r' = round room
          ∧ state r' = playing)
       ∧ (len ≤ i + 1 →
          currentTurnIndex r' = 0 ∧ round r' = round room + 1
          ∧ (maxRounds room < round room + 1 → state r' = voting)
          ∧ (round room + 1 ≤ maxRounds room → state r' = playing))
       ∧ (∀ pid, passedTurn <$> players r' !! pid
                 = (λ _, []) <$> players room !! pid))
    ∧ (2 * count ≤ length (Object_keys (players room)) →
       r' = withPlayers room
              (<[ targetId := setPassedTurn (passedTurn tp ++ [uid]) tp ]>
                 (players room))
       ∧ currentTurnIndex r' = i ∧ round r' = round room
       ∧ state r' = state room
       ∧ passedTurn <$> players r' !! targetId = Some (passedTurn tp ++ [uid])
       ∧ (∀ pid, pid ≠ targetId → players r' !! pid = players room !! pid)).
Proof.
  intros Hp Hnot count i len.
  destruct (passTurn_spec uid targetId room tp Hp) as [_ Hrec].
  destruct (Hrec Hnot) as [Hadv Hstay]. fold count in Hadv, Hstay.
  destruct (decide (length (Object_keys (players room)) < 2 * count)) as [Hc|Hc].
  - exists (nextTurn room). split; [by apply Hadv|]. split; [done|].
    split; [|intros ?; lia]. intros _.
    destruct (nextTurn_step room) as [Hin Hov]. split; [done|].
    split; [exact Hin|]. split.
    + intros Hlen. destruct (Hov Hlen) as (H1 & H2 & H3 & H4).
      rewrite H2 in H3, H4. done.
    + intros pid. rewrite nextTurn_lookup. by destruct (players room !! pid).
  - eexists. split; [apply Hstay; lia|]. split; [done|].
    split; [intros ?; lia|]. intros _. split; [done|].
    unfold withPlayers; cbn [currentTurnIndex round state players].
    split_and!; try done.
    + by rewrite lookup_insert_eq.
    + intros pid Hne. by rewrite lookup_insert_ne.
Qed.



(** *** The per-vote awards of the later revision *)

Lemma votedOut_has_votes (allVotes : gmap string string) (t : string) :
  votedOut allVotes = Some t → ∃ u, allVotes !! u = Some t.
Proof.
  intros [Hpos _]%votedOut_spec. unfold votesFor in Hpos.
  destruct (map_choose (filter (λ kv, kv.2 = t) allVotes)) as (u & v & Huv).
  { intros Hm. rewrite Hm, map_size_empty in Hpos. lia. }
  apply map_lookup_filter_Some in Huv as [Hu Hv]. simpl in Hv. subst v.
  by exists u.
Qed.

Lemma gain_spec (rData : Room) (pid : string) :
  impostersOk rData → votesOk rData →
  let out := votedOut (votes rData) in
  let caught := isImposterCaught out (imposterIds rData) in
  Rev2.gain rData out (countVotes (votes rData)) caught pid
  = if includes pid (imposterIds rData)
    then (if caught then 0 else 3)%Z
    else ((match votes rData !! pid with
           | Some v => if includes v (imposterIds rData) then 2 else -1
           | None => 0
           end) + (if joinedMajority rData pid then 1 else 0))%Z.
Proof.
  intros (_ & _ & Hne) Hvotes out caught. unfold Rev2.gain.
  destruct (includes pid (imposterIds rData)); simpl.
  { by destruct caught. }
  f_equal.
  - destruct (votes rData !! pid) as [v|] eqn:Hv; simpl; [|done].
    rewrite bool_decide_eq_true_2 by by eapply Hvotes. done.
  - unfold joinedMajority. fold out.
    destruct out as [t|] eqn:Hout; simpl; [|done].
    destruct (votedOut_has_votes _ _ Hout) as [u Hu].
    rewrite bool_decide_eq_true_2 by by eapply Hvotes. simpl.
    assert (countVotes (votes rData) !! t = Some (votesFor (votes rData) t)) as ->.
    { apply countVotes_lookup. split; [done|].
      by apply votedOut_spec in Hout as [? _]. }
    done.
Qed.

(** C9, as the code has it.  The later revision awards +2 to a
    non-impostor who voted for an impostor, -1 to a non-impostor who voted
    for somebody else, +1 on top to a non-impostor who joined the
    majority, and +3 to an impostor when the impostors are not caught; an
    impostor never receives the majority bonus. *)
Theorem C9_refined_awards (roomTime now : Z) (date : string) (rData : Room) :
  impostersOk rData → votesOk rData →
  let caught :=
    isImposterCaught (votedOut (votes rData)) (imposterIds rData) in
  ∃ r', Rev2.calculateResults roomTime now date rData = Some r'
    ∧ state r' = result
    ∧ ∀ pid p, players rData !! pid = Some p →
        ∃ p', players r' !! pid = Some p'
          ∧ lastScoreGain p' = (score p' - score p)%Z
          ∧ let bonus := (if joinedMajority rData pid then 1 else 0)%Z in
            (pid ∉ imposterIds rData →
               (∀ v, votes rData !! pid = Some v → v ∈ imposterIds rData →
                     score p' = (score p + 2 + bonus)%Z)
               ∧ (∀ v, votes rData !! pid = Some v → v ∉ imposterIds rData →
                       score p' = (score p - 1 + bonus)%Z)
               ∧ (votes rData !! pid = None → score p' = score p))
            ∧ (pid ∈ imposterIds rData →
               (caught = false → score p' = (score p + 3)%Z)
               ∧ (caught = true → score p' = score p)).
Proof.
  intros Hok Hvotes caught.
  assert (∃ r', Rev2.calculateResults roomTime now date rData = Some r'
            ∧ state r' = result
            ∧ players r'
              = map_imap (λ pid p, Some (award
                  (Rev2.gain rData (votedOut (votes rData))
                     (countVotes (votes rData)) caught pid) p))
                  (setGain 0 <$> players rData)) as (r' & Hr' & Hst & Hps).
  { unfold Rev2.calculateResults. fold caught.
    destruct caught eqn:Hc; [|by eexists].
    apply isImposterCaught_spec in Hc as (t & Ht & Himp); [|apply Hok].
    destruct Hok as (_ & Hin & _). rewrite Forall_forall in Hin.
    destruct (Hin t Himp) as [pt Hpt]. rewrite Ht; simpl. rewrite Hpt.
    by eexists. }
  exists r'. split; [done|]. split; [done|]. intros pid p Hp.
  rewrite Hps, map_lookup_imap, lookup_fmap, Hp; simpl.
  eexists; split; [done|]; simpl. split; [lia|].
  pose proof (gain_spec rData pid Hok Hvotes) as Hg. simpl in Hg.
  fold caught in Hg. rewrite Hg. clear Hg. split.
  - intros Hnot. rewrite (proj2 (includes_false _ _) Hnot).
    split_and!.
    + intros v -> Hv. rewrite (proj2 (includes_true _ _) Hv). lia.
    + intros v -> Hv. rewrite (proj2 (includes_false _ _) Hv). lia.
    + intros Hnone. rewrite Hnone. unfold joinedMajority.
      destruct (votedOut (votes rData)); [|lia].
      rewrite Hnone, bool_decide_eq_false_2 by done. simpl. lia.
  - intros Hin. rewrite (proj2 (includes_true _ _) Hin).
    split; intros ->; lia.
Qed.

Lemma C9_refined_awards_witness :
  impostersOk Sample.misled3 ∧ votesOk Sample.misled3
  ∧ ∃ r', Rev2.calculateResults 42 200 "2025-08-01T12:00:00.000Z"
            Sample.misled3 = Some r'
          ∧ state r' = result.
Proof.
  assert (impostersOk Sample.misled3) as Hok by compute_done.
  assert (votesOk Sample.misled3) as Hvotes by compute_done.
  split; [exact Hok|]. split; [exact Hvotes|].
  destruct (C9_refined_awards 42 200 "2025-08-01T12:00:00.000Z"
              Sample.misled3 Hok Hvotes) as (r' & Hr' & Hst & _).
  exists r'. split; [exact Hr'|exact Hst].
Defined.

(** The impostor "b" votes with "h" for the crew member "c", who is voted
    out by a majority of two out of three.  The specification's wording
    gives "b" the evasion award and the majority bonus; the code gives the
    evasion award only. *)
Lemma C9_counterexample :
  "b" ∈ imposterIds Sample.misled3
  ∧ votedOut (votes Sample.misled3) = Some "c"
  ∧ joinedMajority Sample.misled3 "b" = true
  ∧ specGain Sample.misled3 "b" = 4%Z
  ∧ (lastScoreGain <$>
       (Rev2.calculateResults 42 200 "2025-08-01T12:00:00.000Z" Sample.misled3
        ≫= λ r', players r' !! "b")) = Some 3%Z.
Proof. split_and!; [compute_done|by vm_compute..]. Qed.

(** *** What every snapshot of a session satisfies *)

Lemma size_same_keys {V W} (m1 : gmap string V) (m2 : gmap string W) :
  (∀ k, is_Some (m1 !! k) ↔ is_Some (m2 !! k)) → size m1 = size m2.
Proof.
  intros H. rewrite <-!length_Object_keys. by rewrite (Object_keys_perm m1 m2).
Qed.

Lemma awardEach_keys (g : Z) (ids : list string) (ps ps' : gmap string Player) :
  awardEach g ids ps = Some ps' →
  ∀ k, is_Some (ps' !! k) ↔ is_Some (ps !! k).
Proof.
  revert ps; induction ids as [|i ids IH]; intros ps; simpl.
  - by intros [= ->].
  - destruct (ps !! i) as [p|] eqn:Hp; [|done]. intros H k.
    rewrite (IH _ H k), lookup_insert_is_Some'.
    split; [intros [->|?]; [by eexists|done]|by right].
Qed.

Lemma calculateResults_frame (roomTime now : Z) (date : string) (rData r' : Room) :
  calculateResults roomTime now date rData = Some r' →
  state r' = result
  ∧ (∀ k, is_Some (players r' !! k) ↔ is_Some (players rData !! k))
  ∧ hostId r' = hostId rData ∧ imposterCount r' = imposterCount rData
  ∧ imposterIds r' = imposterIds rData ∧ turnOrder r' = turnOrder rData.
Proof.
  unfold calculateResults. destruct (isImposterCaught _ _).
  - destruct (_ ≫= _); [|done]. intros [= <-]; simpl. split_and!; try done.
    intros k. rewrite map_lookup_imap, lookup_fmap.
    by destruct (players rData !! k).
  - destruct (awardEach _ _ _) as [ps'|] eqn:Hps; [|done].
    intros [= <-]; simpl. split_and!; try done.
    intros k. by rewrite (awardEach_keys _ _ _ _ Hps k), lookup_fmap, fmap_is_Some.
Qed.

Lemma roomInv_frame (r r' : Room) :
  roomInv r →
  players r' !! EmptyString = None →
  (∀ k, is_Some (players r !! k) → is_Some (players r' !! k)) →
  size (players r) ≤ size (players r') →
  hostId r' = hostId r → (1 ≤ imposterCount r' ≤ 3)%Z →
  (state r' ≠ lobby →
   state r ≠ lobby ∧ imposterIds r' = imposterIds r
   ∧ turnOrder r' = turnOrder r) →
  (state r' = playing → turnValid r') →
  roomInv r'.
Proof.
  intros (Hempty & Hhost & Hic & Hgame & Hturn) He Hsub Hsize Hh Hic' Hst Ht.
  refine (conj _ (conj _ (conj _ (conj _ _)))); try done.
  - rewrite Hh. by apply Hsub.
  - intros Hnl. destruct (Hst Hnl) as (Hnl0 & Himp & Hord).
    destruct (Hgame Hnl0) as ((Hnd & Hin & Hne) & (Hlo & Hhi) & (Hond & Hoin)).
    unfold impostersOk, imposterBound, orderWithinPlayers.
    rewrite Himp, Hord, !length_Object_keys. split_and!; try done.
    + eapply Forall_impl; [done|]. intros i Hi. by apply Hsub.
    + rewrite length_Object_keys in Hhi.
      pose proof (Nat.Div0.div_le_mono (size (players r)) (size (players r')) 2 Hsize).
      lia.
    + intros i Hi. apply elem_of_Object_keys, Hsub, elem_of_Object_keys. by apply Hoin.
Qed.

Lemma createRoom_inv (uid profileName newId : string) :
  uid ≠ EmptyString → roomInv (createRoom uid profileName newId).
Proof.
  intros Hne. unfold roomInv; simpl.
  refine (conj _ (conj _ (conj _ (conj _ _)))); try done.
  - by apply lookup_singleton_ne.
  - rewrite lookup_singleton_eq. by eexists.
Qed.

Lemma startGame_inv (rnd : StartDraws) (now : Z) (room : Room) :
  roomInv room → roomInv (startGame rnd now room).
Proof.
  intros (Hempty & Hhost & Hic & _ & _).
  assert (players room ≠ ∅) as Hne.
  { intros Hm. rewrite Hm, lookup_empty in Hhost. by destruct Hhost. }
  destruct (startGame_imposters rnd now room) as (Hnd & Hin & Hlen & Hb);
    [lia|done|].
  refine (conj _ (conj _ (conj _ (conj _ _)))).
  - by rewrite startGame_lookup, Hempty.
  - rewrite startGame_lookup. by apply fmap_is_Some.
  - done.
  - intros _. split_and!; try done.
    + split_and!; [done|..].
      * apply Forall_forall. intros i Hi.
        rewrite startGame_lookup. by apply fmap_is_Some, Hin.
      * intros Hi. apply Hin in Hi. rewrite Hempty in Hi. by destruct Hi.
    + pose proof (startGame_order rnd now room) as Hp.
      unfold orderIsPermutation in Hp. split.
      * rewrite Hp. apply NoDup_Object_keys.
      * intros i. by rewrite Hp.
  - intros _. unfold turnValid.
    pose proof (startGame_order rnd now room) as Hp.
    unfold orderIsPermutation in Hp. rewrite Hp, startGame_keys.
    rewrite length_Object_keys. simpl. apply Nat.neq_0_lt_0.
    by rewrite map_size_non_empty_iff.
Qed.

Lemma nextTurn_inv (room : Room) :
  roomInv room → state room = playing → roomInv (nextTurn room).
Proof.
  intros Hinv Hst. pose proof Hinv as (_ & _ & Hic & _ & Hturn).
  apply (roomInv_frame room); try done.
  - rewrite nextTurn_lookup. destruct Hinv as [-> _]. done.
  - intros k. rewrite nextTurn_lookup. by rewrite fmap_is_Some.
  - unfold nextTurn; simpl. by rewrite map_size_fmap.
  - intros _. split; [by rewrite Hst|done].
  - intros _. specialize (Hturn Hst). unfold turnValid in *.
    unfold nextTurn; simpl. case_bool_decide; lia.
Qed.

Lemma step_inv (room : Room) (ev : string * Action) :
  roomInv room → roomInv (step room ev).
Proof.
  intros Hinv. destruct ev as [uid a]. unfold step; simpl.
  destruct (enabled uid a room) eqn:Hen; [|done].
  pose proof Hinv as (Hempty & Hhost & Hic & Hgame & Hturn).
  unfold enabled in Hen. apply andb_true_iff in Hen as [Huid Hen].
  apply bool_decide_eq_true in Huid.
  destruct a as [profileName|c|n|rnd now|profileName recipient chatMsg now
                |targetId|targetId|roomTime now date|]; simpl.
  - (* joinRoom *)
    apply (roomInv_frame room); simpl; try done.
    + by rewrite lookup_insert_ne.
    + intros k Hk. apply lookup_insert_is_Some'. by right.
    + rewrite map_size_insert. destruct (players room !! uid); simpl; lia.
  - (* category selector *)
    by apply (roomInv_frame room).
  - (* impostor-count selector *)
    apply andb_true_iff in Hen as [_ Hn]. apply bool_decide_eq_true in Hn.
    apply (roomInv_frame room); simpl; try done.
    repeat (apply elem_of_cons in Hn as [->|Hn]; [lia|]).
    by apply elem_of_nil in Hn.
  - (* startGame *)
    by apply startGame_inv.
  - (* sendChat *)
    unfold sendChat. destruct recipient; [done|].
    destruct (blank chatMsg); [done|]. by apply (roomInv_frame room).
  - (* passTurn *)
    apply andb_true_iff in Hen as [Hst Hin].
    apply bool_decide_eq_true in Hst, Hin.
    apply elem_of_passControls in Hin as (Hcur & tp & Hp & Hnot).
    destruct (passTurn_spec uid targetId room tp Hp) as [_ Hrec].
    destruct (Hrec Hnot) as [Hadv Hstay].
    destruct (decide (length (Object_keys (players room))
                      < 2 * (length (passedTurn tp) + 1))) as [Hlt|Hge].
    + rewrite (Hadv Hlt); simpl. by apply nextTurn_inv.
    + rewrite Hstay by lia; simpl.
      set (ps' := <[ targetId := _ ]> (players room)).
      assert (∀ k, is_Some (ps' !! k) ↔ is_Some (players room !! k)) as Hk.
      { intros k. unfold ps'. rewrite lookup_insert_is_Some'.
        split; [intros [->|?]; [by eexists|done]|by right]. }
      apply (roomInv_frame room); try done; simpl.
      * unfold ps'. rewrite lookup_insert_ne; [done|]. intros ->. congruence.
      * intros k. by rewrite Hk.
      * by rewrite (size_same_keys _ _ Hk).
  - (* castVote *)
    by apply (roomInv_frame room).
  - (* calculateResults *)
    destruct (calculateResults roomTime now date room) as [r'|] eqn:Hr'; [|done].
    simpl. apply calculateResults_frame in Hr' as (Hst & Hk & Hh & Hic' & Himp & Hord).
    unfold listenerTallies in Hen. rewrite !andb_true_iff, !bool_decide_eq_true in Hen.
    destruct Hen as [[_ Hvoting] _].
    apply (roomInv_frame room); try done.
    + destruct (players r' !! EmptyString) eqn:He; [|done].
      assert (is_Some (players room !! EmptyString)) as [? ?] by (apply Hk; by eexists).
      congruence.
    + intros k. by rewrite Hk.
    + by rewrite (size_same_keys _ _ Hk).
    + by rewrite Hic'.
    + intros _. by rewrite Hvoting.
    + by rewrite Hst.
  - (* resetGame *)
    by apply (roomInv_frame room).
Qed.

Lemma run_inv (evs : list (string * Action)) (room : Room) :
  roomInv room → roomInv (run evs room).
Proof.
  revert room; induction evs as [|ev evs IH]; intros room Hinv; [done|].
  apply IH. by apply step_inv.
Qed.

Lemma step_keeps_permutation (room : Room) (ev : string * Action) :
  orderIsPermutation room →
  (∀ profileName, ev.2 = JoinRoom profileName → is_Some (players room !! ev.1)) →
  state (step room ev) = playing →
  orderIsPermutation (step room ev).
Proof.
  intros Hperm Hjoin. destruct ev as [uid a]. unfold step; simpl in *.
  destruct (enabled uid a room) eqn:Hen; [|done].
  assert (∀ r', turnOrder r' = turnOrder room →
                (∀ k, is_Some (players r' !! k) ↔ is_Some (players room !! k)) →
                orderIsPermutation r') as Hsame.
  { intros r' Hord Hk. unfold orderIsPermutation in *.
    by rewrite Hord, Hperm, (Object_keys_perm _ _ Hk). }
  destruct a as [profileName|c|n|rnd now|profileName recipient chatMsg now
                |targetId|targetId|roomTime now date|]; simpl; intros Hst.
  - apply Hsame; [done|]. intros k; simpl. rewrite lookup_insert_is_Some'.
    split; [intros [<-|?]; [by eapply Hjoin|done]|by right].
  - by apply Hsame.
  - by apply Hsame.
  - apply startGame_order.
  - unfold sendChat. destruct recipient; [done|].
    destruct (blank chatMsg); [done|]. by apply Hsame.
  - unfold passTurn in *. destruct (players room !! targetId) as [tp|] eqn:Hp; [|done].
    destruct (includes uid (passedTurn tp)); [done|].
    case_bool_decide; simpl.
    + apply Hsame; [done|]. intros k. by rewrite nextTurn_lookup, fmap_is_Some.
    + apply Hsame; [done|]. intros k; simpl. rewrite lookup_insert_is_Some'.
      split; [intros [<-|?]; [by eexists|done]|by right].
  - by apply Hsame.
  - destruct (calculateResults roomTime now date room) as [r'|] eqn:Hr'; [|done].
    simpl in *. apply calculateResults_frame in Hr' as (Hres & _). congruence.
  - done.
Qed.

Lemma calculateResults_votes (roomTime now : Z) (date : string) (rData r' : Room) :
  calculateResults roomTime now date rData = Some r' → votes r' = votes rData.
Proof.
  unfold calculateResults. destruct (isImposterCaught _ _).
  - destruct (_ ≫= _); [|done]. by intros [= <-].
  - destruct (awardEach _ _ _); [|done]. by intros [= <-].
Qed.

Lemma step_votesOk (room : Room) (ev : string * Action) :
  roomInv room → votesOk room → votesOk (step room ev).
Proof.
  intros (Hempty & _) Hvotes. destruct ev as [uid a]. unfold step; simpl.
  destruct (enabled uid a room) eqn:Hen; [|done].
  unfold enabled in Hen. apply andb_true_iff in Hen as [_ Hen].
  destruct a as [profileName|c|n|rnd now|profileName recipient chatMsg now
                |targetId|targetId|roomTime now date|]; simpl.
  - exact Hvotes.
  - exact Hvotes.
  - exact Hvotes.
  - unfold votesOk; simpl. apply map_Forall_empty.
  - unfold sendChat. destruct recipient; [exact Hvotes|].
    destruct (blank chatMsg); exact Hvotes.
  - unfold passTurn. destruct (players room !! targetId); [|exact Hvotes].
    destruct (includes uid _); [exact Hvotes|].
    destruct (bool_decide (_ < _)); exact Hvotes.
  - apply andb_true_iff in Hen as [_ Hin]. apply bool_decide_eq_true in Hin.
    unfold votesOk; simpl. apply map_Forall_insert_2; [|done].
    intros ->. apply elem_of_Object_keys in Hin. rewrite Hempty in Hin.
    by destruct Hin.
  - destruct (calculateResults roomTime now date room) as [r'|] eqn:Hr'; [|done].
    simpl. unfold votesOk. by rewrite (calculateResults_votes _ _ _ _ _ Hr').
  - unfold votesOk; simpl. apply map_Forall_empty.
Qed.

(** The snapshots of a session meet the second hypothesis of the per-vote
    awards too. *)
Lemma session_votesOk (uid profileName newId : string)
    (evs : list (string * Action)) :
  uid ≠ EmptyString → votesOk (run evs (createRoom uid profileName newId)).
Proof.
  intros Huid.
  assert (∀ room, roomInv room → votesOk room → votesOk (run evs room)) as Hrun.
  { induction evs as [|ev evs IH]; intros room Hinv Hv; [done|].
    apply IH; [by apply step_inv|by apply step_votesOk]. }
  apply Hrun; [by apply createRoom_inv|].
  unfold votesOk; simpl. apply map_Forall_empty.
Qed.

(** *** The impostor set *)

Lemma session_inv (uid profileName newId : string)
    (evs : list (string * Action)) :
  uid ≠ EmptyString → roomInv (run evs (createRoom uid profileName newId)).
Proof. intros Huid. by apply run_inv, createRoom_inv. Qed.

(** Past the lobby, the snapshots of a session meet the hypothesis under
    which the tally is characterised. *)
Lemma session_impostersOk (uid profileName newId : string)
    (evs : list (string * Action)) :
  uid ≠ EmptyString →
  inGame (run evs (createRoom uid profileName newId)) →
  impostersOk (run evs (createRoom uid profileName newId)).
Proof.
  intros Huid Hgame.
  destruct (session_inv uid profileName newId evs Huid) as (_ & _ & _ & Hin & _).
  apply Hin. destruct Hgame as [H|[H|H]]; by rewrite H.
Qed.

(** C2, as the code has it.  [startGame] selects
    min(imposterCount, max(1, floor(players / 2))) impostors.  In every
    snapshot of a session that is past the lobby the impostor list is
    duplicate-free, names players only and holds at least one and at most
    max(1, floor(players / 2)) ids: the bound is "at most half", and one
    impostor is selected even in a room of one or two. *)
Theorem C2_imposter_set :
  (∀ rnd now room,
     (1 ≤ imposterCount room)%Z → players room ≠ ∅ →
     length (imposterIds (startGame rnd now room))
     = Z.to_nat (Z.min (imposterCount room)
                       (Z.of_nat (Nat.max 1 (size (players room) / 2)))))
  ∧ (∀ uid profileName newId evs,
       uid ≠ EmptyString →
       let room := run evs (createRoom uid profileName newId) in
       inGame room →
       NoDup (imposterIds room)
       ∧ (∀ i, i ∈ imposterIds room → i ∈ Object_keys (players room))
       ∧ 1 ≤ length (imposterIds room)
       ∧ length (imposterIds room) ≤ Nat.max 1 (size (players room) / 2)).
Proof.
  split.
  - intros rnd now room Hic Hne.
    destruct (startGame_imposters rnd now room Hic Hne) as (_ & _ & -> & _).
    f_equal. unfold startCount, or_one. rewrite length_Object_keys.
    destruct (Z.eqb_spec (imposterCount room) 0); [lia|].
    destruct (Z.eqb_spec (Z.of_nat (size (players room) / 2)) 0); lia.
  - intros uid profileName newId evs Huid room Hgame.
    destruct (session_inv uid profileName newId evs Huid)
      as (_ & _ & _ & Hin & _).
    fold room in Hin.
    destruct Hin as ((Hnd & Hpl & _) & (Hlo & Hhi) & _).
    { destruct Hgame as [H|[H|H]]; by rewrite H. }
    rewrite length_Object_keys in Hhi. split_and!; try done.
    intros i Hi. apply elem_of_Object_keys.
    by apply (proj1 (Forall_forall _ _) Hpl).
Qed.

Lemma C2_imposter_set_witness :
  inGame Sample.game4
  ∧ length (imposterIds Sample.game4)
    ≤ Nat.max 1 (size (players Sample.game4) / 2).
Proof.
  assert (inGame Sample.game4) as Hgame by (left; by vm_compute).
  split; [exact Hgame|].
  assert ("h" ≠ EmptyString) as Hne by done.
  destruct C2_imposter_set as [_ Hsession].
  exact (proj2 (proj2 (proj2
    (Hsession "h" "Hal" "ROOM01" Sample.start4 Hne Hgame)))).
Defined.

(** With four players and the selector on two, [startGame] picks two
    impostors: exactly half, not fewer. *)
Lemma C2_counterexample :
  state Sample.game4 = playing
  ∧ length (imposterIds Sample.game4) = 2
  ∧ size (players Sample.game4) = 4
  ∧ ¬ (2 * length (imposterIds Sample.game4) < size (players Sample.game4)).
Proof. split_and!; [by vm_compute..|vm_compute; lia]. Qed.

(** *** The turn pointer *)

(** C7, as the code has it.  In every snapshot of a session in the
    active-play phase the turn index is within [turnOrder], and
    [turnOrder] is duplicate-free and names players only.  [startGame]
    makes [turnOrder] a rearrangement of the player ids, and every request
    keeps it one while play lasts, except a join by somebody who is not yet
    a player. *)
Theorem C7_turn_pointer :
  (∀ uid profileName newId evs, uid ≠ EmptyString →
     let room := run evs (createRoom uid profileName newId) in
     state room = playing →
     currentTurnIndex room < length (turnOrder room)
     ∧ NoDup (turnOrder room)
     ∧ ∀ i, i ∈ turnOrder room → i ∈ Object_keys (players room))
  ∧ (∀ rnd now room,
       turnOrder (startGame rnd now room)
       ≡ₚ Object_keys (players (startGame rnd now room))
       ∧ currentTurnIndex (startGame rnd now room) = 0)
  ∧ (∀ room ev,
       turnOrder room ≡ₚ Object_keys (players room) →
       (∀ profileName, ev.2 = JoinRoom profileName →
                       is_Some (players room !! ev.1)) →
       state (step room ev) = playing →
       turnOrder (step room ev) ≡ₚ Object_keys (players (step room ev))).
Proof.
  split_and!.
  - intros uid profileName newId evs Huid room Hst.
    destruct (run_inv evs _ (createRoom_inv uid profileName newId Huid))
      as (_ & _ & _ & Hin & Hturn).
    fold room in Hin, Hturn.
    destruct Hin as (_ & _ & Hnd & Hsub); [by rewrite Hst|].
    split; [by apply Hturn|done].
  - intros rnd now room. split; [apply startGame_order|done].
  - intros room ev. apply step_keeps_permutation.
Qed.

Lemma C7_turn_pointer_witness :
  state Sample.lateJoin = playing
  ∧ currentTurnIndex Sample.lateJoin < length (turnOrder Sample.lateJoin).
Proof.
  assert (state Sample.lateJoin = playing) as Hst by (by vm_compute).
  split; [exact Hst|].
  assert ("h" ≠ EmptyString) as Hne by done.
  destruct C7_turn_pointer as [Hreach _].
  exact (proj1 (Hreach "h" "Hal" "ROOM01" Sample.late3 Hne Hst)).
Defined.

(** A participant who joins during play becomes a player and is not in
    [turnOrder]. *)
Lemma C7_counterexample :
  state Sample.lateJoin = playing
  ∧ enabled "d" (JoinRoom "Di") Sample.game3 = true
  ∧ "d" ∈ Object_keys (players Sample.lateJoin)
  ∧ ("d" ∉ turnOrder Sample.lateJoin)
  ∧ ¬ (turnOrder Sample.lateJoin ≡ₚ Object_keys (players Sample.lateJoin)).
Proof.
  split_and!; try by vm_compute.
  - compute_done.
  - compute_done.
  - intros Hp. apply Permutation_length in Hp. by vm_compute in Hp.
Qed.

(** *** Play again *)

(** C8.  The play-again control is offered to the host alone and in the
    result phase alone, so a reset request from anyone else or in another
    phase leaves the room as it is; the reset returns the room to the
    lobby with round 1, no votes, no impostors, no word, no turn order and
    turn index 0, and leaves the players with their scores, the chat and
    the history log untouched. *)
Theorem C8_reset_room (uid : string) (room : Room) :
  (showPlayAgain uid room = true ↔ uid = hostId room ∧ state room = result)
  ∧ (step room (uid, ResetGame) ≠ room →
     uid = hostId room ∧ state room = result)
  ∧ let r' := resetGame room in
    state r' = lobby ∧ round r' = 1 ∧ votes r' = ∅ ∧ imposterIds r' = []
    ∧ word r' = EmptyString ∧ turnOrder r' = [] ∧ currentTurnIndex r' = 0
    ∧ players r' = players room
    ∧ (∀ pid, score <$> players r' !! pid = score <$> players room !! pid)
    ∧ chats r' = chats room ∧ historyLog r' = historyLog room
    ∧ hostId r' = hostId room ∧ id r' = id room
    ∧ category r' = category room ∧ imposterCount r' = imposterCount room
    ∧ maxRounds r' = maxRounds room.
Proof.
  assert (showPlayAgain uid room = true ↔ uid = hostId room ∧ state room = result)
    as Hshow.
  { unfold showPlayAgain.
    rewrite andb_true_iff, !bool_decide_eq_true. tauto. }
  split; [done|]. split; [|by repeat split].
  unfold step, enabled; simpl. intros Hne.
  destruct (showPlayAgain uid room) eqn:Hs; [by apply Hshow|].
  by rewrite andb_false_r in Hne.
Qed.

Lemma C8_reset_room_witness :
  step Sample.result3 ("h", ResetGame) ≠ Sample.result3
  ∧ "h" = hostId Sample.result3 ∧ state Sample.result3 = result.
Proof.
  assert (step Sample.result3 ("h", ResetGame) ≠ Sample.result3) as Hne.
  { intros Heq. apply (f_equal state) in Heq. by vm_compute in Heq. }
  split; [exact Hne|].
  exact (proj1 (proj2 (C8_reset_room "h" Sample.result3)) Hne).
Defined.

End AppFacts.

(** ** Sign-up and login *)

Module AuthFacts.
Import Auth.

Lemma b64val_b64char (v : N) : (v < 64)%N → b64val (b64char v) = Some v.
Proof.
  intros Hv. rewrite <-(N2Nat.id v).
  assert (N.to_nat v < 64) as Hn by lia.
  generalize dependent (N.to_nat v). clear v Hv. intros n Hn.
  do 64 (destruct n as [|n]; [by vm_compute|]). lia.
Qed.

Lemma b64char_not_pad (v : N) : (v < 64)%N → b64char v ≠ padChar.
Proof.
  intros Hv. rewrite <-(N2Nat.id v).
  assert (N.to_nat v < 64) as Hn by lia.
  generalize dependent (N.to_nat v). clear v Hv. intros n Hn.
  do 64 (destruct n as [|n]; [by vm_compute|]). lia.
Qed.

Lemma sextets (a b c : N) :
  (a < 256 → b < 256 → c < 256 →
   a / 4 < 64 ∧ a mod 4 * 16 + b / 16 < 64
   ∧ b mod 16 * 4 + c / 64 < 64 ∧ c mod 64 < 64
   ∧ a mod 4 * 16 < 64 ∧ b mod 16 * 4 < 64
   ∧ a / 4 * 4 + (a mod 4 * 16 + b / 16) / 16 = a
   ∧ (a mod 4 * 16 + b / 16) mod 16 * 16 + (b mod 16 * 4 + c / 64) / 4 = b
   ∧ (b mod 16 * 4 + c / 64) mod 4 * 64 + c mod 64 = c
   ∧ a / 4 * 4 + (a mod 4 * 16) / 16 = a
   ∧ (a mod 4 * 16 + b / 16) mod 16 * 16 + (b mod 16 * 4) / 4 = b)%N.
Proof.
  intros Ha Hb Hc.
  repeat split; zify; Z.to_euclidean_division_equations; lia.
Qed.

Lemma list_ind_by_three {A} (P : list A → Prop) :
  P [] → (∀ a, P [a]) → (∀ a b, P [a; b]) →
  (∀ a b c l, P l → P (a :: b :: c :: l)) → ∀ l, P l.
Proof.
  intros H0 H1 H2 H3. fix IH 1. intros [|a [|b [|c l]]]; [done..|].
  apply H3, IH.
Qed.

Lemma encode_nil (s : list N) : encode s = [] → s = [].
Proof. by destruct s as [|a [|b [|c s]]]. Qed.

(** Decoding what [btoa] produced gives the text back. *)
Lemma atob_encode (s : list N) :
  Forall (λ c, (c < 256)%N) s → atob (encode s) = Some s.
Proof.
  induction s as [|a|a b|a b c s IH] using list_ind_by_three; intros Hs.
  - reflexivity.
  - rewrite Forall_singleton in Hs.
    destruct (sextets a 0 0) as (H1 & _ & _ & _ & H2 & _ & _ & _ & _ & H3 & _);
      [simpl in *; lia..|].
    cbn [encode atob]. rewrite bool_decide_eq_true_2 by (by split).
    rewrite !b64val_b64char by done. simpl. by rewrite H3.
  - rewrite Forall_cons, Forall_singleton in Hs. destruct Hs as [Ha Hb].
    destruct (sextets a b 0) as (H1 & H2 & _ & _ & _ & H3 & H4 & _ & _ & _ & H5);
      [simpl in *; lia..|].
    cbn [encode atob].
    rewrite bool_decide_eq_false_2
      by (intros [Hp _]; by apply b64char_not_pad in Hp).
    rewrite bool_decide_eq_true_2 by done.
    rewrite !b64val_b64char by done. simpl. by rewrite H4, H5.
  - rewrite !Forall_cons in Hs. destruct Hs as (Ha & Hb & Hc & Hs).
    specialize (IH Hs).
    destruct (sextets a b c) as (H1 & H2 & H3 & H4 & _ & _ & H5 & H6 & H7 & _);
      [simpl in *; lia..|].
    cbn [encode]. destruct (encode s) as [|y t] eqn:Henc.
    + apply encode_nil in Henc as ->. cbn [atob].
      rewrite bool_decide_eq_false_2
        by (intros [Hp _]; by apply b64char_not_pad in Hp).
      rewrite bool_decide_eq_false_2
        by (intros Hp; by apply b64char_not_pad in Hp).
      rewrite !b64val_b64char by done. simpl. by rewrite H5, H6, H7.
    + change (atob (?c1 :: ?c2 :: ?c3 :: ?c4 :: y :: t))
        with (v1 ← b64val c1; v2 ← b64val c2; v3 ← b64val c3; v4 ← b64val c4;
              rest ← atob (y :: t);
              Some (v1 * 4 + v2 / 16 :: v2 mod 16 * 16 + v3 / 4
                    :: v3 mod 4 * 64 + v4 :: rest)%N).
      rewrite !b64val_b64char by done. cbn [mbind option_bind].
      rewrite IH. cbn [mbind option_bind]. by rewrite H5, H6, H7.
Qed.

Lemma btoa_Some (s enc : JsString) :
  btoa s = Some enc ↔ Forall (λ c, (c < 256)%N) s ∧ enc = encode s.
Proof.
  unfold btoa. destruct (forallb _ s) eqn:Hall.
  - apply Is_true_true_2, forallb_True in Hall. split.
    + intros [= <-]. split; [|done].
      eapply Forall_impl; [done|]. intros c Hc. by apply bool_decide_unpack in Hc.
    + by intros [_ ->].
  - split; [done|]. intros [Hs _].
    assert (Is_true (forallb (λ c, bool_decide (c < 256)%N) s)) as Ht.
    { apply forallb_True. eapply Forall_impl; [done|].
      intros c Hc. by apply bool_decide_pack. }
    by rewrite Hall in Ht.
Qed.

(** The stored [pass] gives the password back. *)
Lemma atob_btoa (s enc : JsString) : btoa s = Some enc → atob enc = Some s.
Proof. intros [Hs ->]%btoa_Some. by apply atob_encode. Qed.

(** When the account exists but [btoa] rejects the password, a code unit
    above 255, the handler reports the error and writes nothing. *)
Lemma handleAuth_invalid_password (isSignup : bool)
    (nameInput password : JsString) (uid : string)
    (users : gmap string Profile) :
  trimIsEmpty nameInput = false → btoa password = None →
  handleAuth isSignup nameInput password (inl uid) users
  = (users, Some InvalidCharacter).
Proof.
  intros Hname Hpw. unfold handleAuth. rewrite Hname, Hpw.
  by destruct isSignup.
Qed.

(** C10.  [handleAuth] stores the password only when [btoa] accepts it.
    For a password of code units below 256, sign-up (non-blank name) and
    login (account with a profile document) write [btoa(password)] under
    [pass], and decoding the stored text gives the password back; whenever
    the handler ends without an error this is what has happened.  For a
    password that holds a code unit above 255 the authentication service
    has already created or accepted the account when [btoa] throws: the
    handler reports the error and writes nothing, so a sign-up leaves the
    account without a profile document and a login leaves the [pass]
    stored before.  The sign-up with the password "p€" is such a case. *)
Theorem C10_password_stored :
  (∀ isSignup nameInput password answer users users',
     handleAuth isSignup nameInput password answer users = (users', None) →
     ∃ uid prof enc,
       answer = inl uid ∧ users' !! uid = Some prof ∧ pass prof = Some enc
       ∧ btoa password = Some enc ∧ atob enc = Some password)
  ∧ (∀ nameInput password uid users,
       trimIsEmpty nameInput = false →
       Forall (λ c, (c < 256)%N) password →
       handleAuth true nameInput password (inl uid) users
       = (<[ uid := {| name := nameInput; history := [nameInput];
                       pass := Some (encode password) |} ]> users, None))
  ∧ (∀ nameInput password uid users prof,
       users !! uid = Some prof →
       Forall (λ c, (c < 256)%N) password →
       handleAuth false nameInput password (inl uid) users
       = (<[ uid := {| name := name prof; history := history prof;
                       pass := Some (encode password) |} ]> users, None))
  ∧ (∀ isSignup nameInput password uid users c,
       (isSignup = true → trimIsEmpty nameInput = false) →
       c ∈ password → (256 ≤ c)%N →
       handleAuth isSignup nameInput password (inl uid) users
       = (users, Some InvalidCharacter))
  ∧ (handleAuth true [65; 108]%N [112; 8364]%N (inl "u1") ∅
     = (∅, Some InvalidCharacter)
     ∧ (∅ : gmap string Profile) !! "u1" = None).
Proof.
  split_and!.
  - intros isSignup nameInput password answer users users' Hdone.
    unfold handleAuth in Hdone.
    destruct isSignup.
    + destruct (trimIsEmpty nameInput); [done|].
      destruct answer as [uid|message]; [|done].
      destruct (btoa password) as [enc|] eqn:Henc; [|done].
      injection Hdone as <-.
      exists uid, {| name := nameInput; history := [nameInput];
                     pass := Some enc |}, enc.
      split_and!; [done|by rewrite lookup_insert_eq|done|done
                  |by apply atob_btoa].
    + destruct answer as [uid|message]; [|done].
      destruct (btoa password) as [enc|] eqn:Henc; [|done].
      destruct (users !! uid) as [prof|]; [|done].
      injection Hdone as <-.
      exists uid, {| name := name prof; history := history prof;
                     pass := Some enc |}, enc.
      split_and!; [done|by rewrite lookup_insert_eq|done|done
                  |by apply atob_btoa].
  - intros nameInput password uid users Hname Hpw. unfold handleAuth.
    rewrite Hname. by rewrite (proj2 (btoa_Some password _) (conj Hpw eq_refl)).
  - intros nameInput password uid users prof Hprof Hpw. unfold handleAuth.
    rewrite (proj2 (btoa_Some password _) (conj Hpw eq_refl)). by rewrite Hprof.
  - intros isSignup nameInput password uid users c Hname Hc Hbig.
    assert (btoa password = None) as Hpw.
    { destruct (btoa password) as [enc|] eqn:Henc; [|done].
      apply btoa_Some in Henc as [Hall _].
      rewrite Forall_forall in Hall. specialize (Hall c Hc). simpl in Hall. lia. }
    unfold handleAuth. rewrite Hpw.
    destruct isSignup; [|done]. by rewrite Hname.
  - by vm_compute.
  - done.
Qed.

Lemma C10_password_stored_witness :
  (∃ users',
     handleAuth true [65; 108]%N [104; 117; 110; 116; 101; 114; 50]%N
       (inl "u1") ∅ = (users', None)
     ∧ ∃ prof enc,
         users' !! "u1" = Some prof ∧ pass prof = Some enc
         ∧ atob enc = Some [104; 117; 110; 116; 101; 114; 50]%N)
  ∧ handleAuth false [65; 108]%N [112; 8364]%N (inl "u1")
      {[ "u1" := {| name := [65; 108]%N; history := [[65; 108]%N];
                    pass := None |} ]}
    = ({[ "u1" := {| name := [65; 108]%N; history := [[65; 108]%N];
                     pass := None |} ]}, Some InvalidCharacter).
Proof.
  destruct C10_password_stored as (Hany & Hsignup & _ & Hbig & _).
  split.
  - assert (handleAuth true [65; 108]%N [104; 117; 110; 116; 101; 114; 50]%N
              (inl "u1") ∅
            = (<[ "u1" := {| name := [65; 108]%N; history := [[65; 108]%N];
                             pass := Some (encode [104; 117; 110; 116; 101; 114; 50]%N) |} ]> ∅,
               None)) as Hrun.
    { apply Hsignup; [reflexivity|]. repeat constructor. }
    eexists. split; [exact Hrun|].
    destruct (Hany _ _ _ _ _ _ Hrun) as (uid & prof & enc & Huid & Hprof & Hpass & _ & Hdec).
    injection Huid as <-. exists prof, enc. by split_and!.
  - apply (Hbig false _ _ _ _ 8364%N); [done|set_solver|lia].
Defined.

End AuthFacts.

(** ** The peer-mesh variant *)

Module MeshFacts.
Import Mesh.

(** A guest applies no [ACTION] and sends no snapshot. *)
Lemma guest_ignores_action (gm : GameManager) (action : string)
    (payload : Payload) (senderId : string) (rnd : Draw) (now : Z) :
  gm_isHost gm = false →
  handleMessage (ACTION action payload senderId) rnd now gm = Completed gm [].
Proof. intros Hg. unfold handleMessage. by rewrite Hg. Qed.

(** A guest's own request leaves its state alone and goes to the host. *)
Lemma guest_sendAction (gm : GameManager) (action : string) (payload : Payload)
    (rnd : Draw) (now : Z) :
  gm_isHost gm = false →
  sendAction action payload true rnd now gm
  = (Completed gm [], Some (ACTION action payload (myId gm))).
Proof. intros Hg. unfold sendAction. by rewrite Hg. Qed.

(** [JOIN] from a sender who is already a player changes nothing. *)
Lemma host_JOIN_known (gm : GameManager) (payload : Payload)
    (senderId : string) (rnd : Draw) (now : Z) (p : Player) :
  gm_isHost gm = true → p ∈ players (gm_state gm) → id p = senderId →
  handleMessage (ACTION "JOIN" payload senderId) rnd now gm = Completed gm [].
Proof.
  intros Hh Hin Hid. unfold handleMessage, hostAction. rewrite Hh.
  rewrite bool_decide_eq_true_2 by done.
  destruct (list_find _ _) as [[i q]|] eqn:Hfind; [done|].
  apply list_find_None in Hfind. rewrite Forall_forall in Hfind.
  by destruct (Hfind p Hin).
Qed.

(** [JOIN] from a new sender appends one record with score 0 and sends the
    new snapshot. *)
Lemma host_JOIN_new (gm : GameManager) (payload : Payload)
    (senderId : string) (rnd : Draw) (now : Z) :
  gm_isHost gm = true →
  (∀ p, p ∈ players (gm_state gm) → id p ≠ senderId) →
  let st' := withPlayers (gm_state gm) (players (gm_state gm) ++
               [ {| id := senderId; name := p_name payload; isHost := false;
                    score := 0; passedCount := 0; votedFor := None |} ]) in
  handleMessage (ACTION "JOIN" payload senderId) rnd now gm
  = Completed (withState gm st') [st'].
Proof.
  intros Hh Hnew. unfold handleMessage, hostAction. rewrite Hh.
  rewrite bool_decide_eq_true_2 by done.
  destruct (list_find _ _) as [[i q]|] eqn:Hfind.
  - apply list_find_Some in Hfind as (Hi & Hq & _).
    destruct (Hnew q); [|done]. by eapply list_elem_of_lookup_2.
  - unfold broadcastState; simpl. by rewrite Hh.
Qed.

(** Sending [JOIN] twice from one sender leaves one record for it: the
    second message is a no-op. *)
Lemma host_JOIN_twice (gm gm' : GameManager) (payload payload' : Payload)
    (senderId : string) (rnd rnd' : Draw) (now now' : Z) (sent : list RoomState) :
  gm_isHost gm = true →
  handleMessage (ACTION "JOIN" payload senderId) rnd now gm = Completed gm' sent →
  handleMessage (ACTION "JOIN" payload' senderId) rnd' now' gm'
  = Completed gm' [].
Proof.
  intros Hh Hfirst. unfold handleMessage, hostAction in Hfirst.
  rewrite Hh, bool_decide_eq_true_2 in Hfirst by done.
  destruct (list_find _ _) as [[i q]|] eqn:Hfind.
  - injection Hfirst as <- <-.
    apply list_find_Some in Hfind as (Hi & Hq & _).
    eapply host_JOIN_known; [done| |done]. by eapply list_elem_of_lookup_2.
  - unfold broadcastState in Hfirst; simpl in Hfirst. rewrite Hh in Hfirst.
    injection Hfirst as <- <-.
    eapply (host_JOIN_known _ _ _ _ _
              {| id := senderId; name := p_name payload; isHost := false;
                 score := 0; passedCount := 0; votedFor := None |});
      [done| |done].
    simpl. apply elem_of_app. right. left.
Qed.

(** The fixed threshold of this variant: the second [PASS_TURN] moves the
    turn on, whoever sent the two messages and however many players there
    are. *)
Lemma host_PASS_TURN_second (gm : GameManager) (payload : Payload)
    (senderId : string) (rnd : Draw) (now : Z) (i : nat) (p : Player) :
  gm_isHost gm = true →
  list_find (λ q, Some (id q) = currentTurnId (gm_state gm))
            (players (gm_state gm)) = Some (i, p) →
  passedCount p = 1 →
  let st' := nextTurn (withPlayers (gm_state gm)
               (<[ i := bumpPassed p ]> (players (gm_state gm)))) in
  handleMessage (ACTION "PASS_TURN" payload senderId) rnd now gm
  = Completed (withState gm st') [st'].
Proof.
  intros Hh Hfind Hone. unfold handleMessage, hostAction. rewrite Hh.
  repeat (rewrite bool_decide_eq_false_2 by done).
  rewrite bool_decide_eq_true_2 by done. rewrite Hfind, Hone. simpl.
  unfold broadcastState; simpl. by rewrite Hh.
Qed.

(** The awards of this variant: 10 to a player other than the impostor
    whose vote names the impostor, 5 to the impostor when it cast a vote. *)
Lemma scoreOne_spec (imposter : string) (p : Player) :
  score (scoreOne (Some imposter) p)
  = (score p
     + (if bool_decide (id p ≠ imposter ∧ votedFor p = Some imposter)
        then 10
        else if bool_decide (id p = imposter) && truthy (votedFor p)
             then 5 else 0))%Z.
Proof.
  unfold scoreOne; simpl.
  destruct (decide (id p = imposter)) as [Heq|Hne].
  - rewrite (bool_decide_eq_false_2 (Some (id p) ≠ Some imposter))
      by (intros H; by apply H; f_equal).
    rewrite (bool_decide_eq_true_2 (Some (id p) = Some imposter)) by by f_equal.
    rewrite (bool_decide_eq_false_2 (id p ≠ imposter ∧ _)) by tauto.
    rewrite (bool_decide_eq_true_2 (id p = imposter)) by done.
    simpl. destruct (truthy (votedFor p)); lia.
  - rewrite (bool_decide_eq_true_2 (Some (id p) ≠ Some imposter)) by congruence.
    rewrite (bool_decide_eq_false_2 (Some (id p) = Some imposter)) by congruence.
    rewrite (bool_decide_eq_false_2 (id p = imposter)) by done. simpl.
    destruct (decide (votedFor p = Some imposter)) as [Hv|Hv].
    + rewrite !bool_decide_eq_true_2; [lia|done|]. split; [by eexists|done].
    + rewrite !bool_decide_eq_false_2; [lia|tauto|tauto].
Qed.

End MeshFacts.

(** ** Who writes the room *)

Module SingleWriter.

(** C1, as the code has it.  In the peer-mesh variant a guest applies no
    intent and publishes no snapshot: its requests travel to the host.  In
    the document-store variant the category and impostor-count selectors,
    the start and play-again controls and the result calculation are the
    host's alone, while a join, a chat message, a pass and a vote are
    written to the room document by the participant who issues them,
    whoever that is: the vote is stored under the voter's id, the joiner
    gets a new player record, the message is in the chat log, and the pass
    is either listed with the turn-holder's acknowledgements or has moved
    the turn. *)
Theorem C1_who_writes :
  (∀ gm action payload senderId rnd now,
     Mesh.gm_isHost gm = false →
     Mesh.handleMessage (Mesh.ACTION action payload senderId) rnd now gm
     = Mesh.Completed gm [])
  ∧ (∀ gm action payload rnd now,
       Mesh.gm_isHost gm = false →
       Mesh.sendAction action payload true rnd now gm
       = (Mesh.Completed gm [],
          Some (Mesh.ACTION action payload (Mesh.myId gm))))
  ∧ (∀ uid a room,
       App.hostOnly a = true → App.enabled uid a room = true →
       uid = App.hostId room)
  ∧ (∀ uid targetId room,
       uid ≠ EmptyString → App.state room = App.voting →
       targetId ∈ Object_keys (App.players room) →
       App.step room (uid, App.CastVote targetId)
       = App.castVote uid targetId room
       ∧ App.votes (App.castVote uid targetId room) !! uid = Some targetId)
  ∧ (∀ uid profileName room,
       uid ≠ EmptyString →
       App.step room (uid, App.JoinRoom profileName)
       = App.joinRoom uid profileName room
       ∧ App.players (App.step room (uid, App.JoinRoom profileName)) !! uid
         = Some {| App.name := profileName; App.score := 0;
                   App.lastScoreGain := 0; App.role := EmptyString;
                   App.isReady := false; App.passedTurn := [] |})
  ∧ (∀ uid profileName recipient chatMsg now room,
       uid ≠ EmptyString → recipient ≠ EmptyString → recipient ≠ uid →
       recipient ∈ Object_keys (App.players room) →
       blank chatMsg = false →
       {| App.senderId := Some uid; App.recipientId := Some recipient;
          App.sender := profileName; App.msg := chatMsg; App.time := now |}
       ∈ App.chats
           (App.step room (uid, App.SendChat profileName recipient chatMsg now)))
  ∧ (∀ uid targetId room,
       App.enabled uid (App.PassTurn targetId) room = true →
       let r' := App.step room (uid, App.PassTurn targetId) in
       r' ≠ room
       ∧ ((∃ tp', App.players r' !! targetId = Some tp'
                  ∧ uid ∈ App.passedTurn tp')
          ∨ App.currentTurnIndex r' = App.currentTurnIndex room + 1
          ∨ App.round r' = App.round room + 1)).
Proof.
  split_and!.
  - apply MeshFacts.guest_ignores_action.
  - apply MeshFacts.guest_sendAction.
  - intros uid a room Hhost Hen. unfold App.enabled in Hen.
    apply andb_true_iff in Hen as [_ Hen].
    destruct a; try done; simpl in Hen;
      unfold App.listenerTallies, App.showPlayAgain in Hen;
      rewrite ?andb_true_iff, ?bool_decide_eq_true in Hen; tauto.
  - intros uid targetId room Huid Hst Hin. split.
    + unfold App.step, App.enabled; simpl.
      by rewrite !bool_decide_eq_true_2 by done.
    + unfold App.castVote; simpl. apply lookup_insert_eq.
  - intros uid profileName room Huid.
    assert (App.step room (uid, App.JoinRoom profileName)
            = App.joinRoom uid profileName room) as Hstep.
    { unfold App.step, App.enabled; simpl.
      by rewrite bool_decide_eq_true_2 by done. }
    split; [exact Hstep|]. rewrite Hstep.
    unfold App.joinRoom, App.withPlayers; cbn [App.players].
    by rewrite lookup_insert_eq.
  - intros uid profileName recipient chatMsg now room Huid Hre Hne Hin Hb.
    unfold App.step, App.enabled, App.perform; cbn [fst snd].
    rewrite !bool_decide_eq_true_2 by done. cbn [andb].
    unfold App.sendChat. destruct recipient as [|c recipient]; [done|].
    rewrite Hb; cbn [App.chats]. unfold arrayUnion.
    case_decide; [done|]. apply elem_of_app; right; left.
  - intros uid targetId room Hen r'.
    assert (r' = default room (App.passTurn uid targetId room)) as Hr'.
    { unfold r', App.step; cbn [fst snd]. by rewrite Hen. }
    unfold App.enabled in Hen.
    rewrite !andb_true_iff, !bool_decide_eq_true in Hen.
    destruct Hen as (_ & _ & Hin).
    apply AppFacts.elem_of_passControls in Hin as (_ & tp & Hp & Hnot).
    destruct (AppFacts.passTurn_outcome uid targetId room tp Hp Hnot)
      as (r'' & Hpass & _ & Hadv & Hstay).
    rewrite Hpass in Hr'; simpl in Hr'. subst r''.
    destruct (decide (length (Object_keys (App.players room))
                      < 2 * (length (App.passedTurn tp) + 1))) as [Hc|Hc].
    + destruct (Hadv Hc) as (_ & Hin & Hov & _).
      destruct (decide (App.currentTurnIndex room + 1
                        < length (App.turnOrder room))) as [Hl|Hl].
      * destruct (Hin Hl) as (Hidx & _). split; [|by right; left].
        intros Heq. rewrite Heq in Hidx. lia.
      * destruct Hov as (_ & Hrd & _); [lia|]. split; [|by right; right].
        intros Heq. rewrite Heq in Hrd. lia.
    + destruct Hstay as (_ & _ & _ & _ & Hack & _); [lia|].
      destruct (App.players r' !! targetId) as [tp'|] eqn:Htp'; [|done].
      injection Hack as Hack.
      assert (uid ∈ App.passedTurn tp') as Hu.
      { rewrite Hack. apply elem_of_app; right; left. }
      split; [|left; by exists tp'].
      intros Heq. rewrite Heq in Htp'. rewrite Hp in Htp'.
      injection Htp' as <-. done.
Qed.

Lemma C1_who_writes_witness :
  Mesh.gm_isHost MeshSample.guest = false
  ∧ Mesh.handleMessage (Mesh.ACTION "JOIN" MeshSample.joinPayload "g2")
      (mkDraw 0 0) 5 MeshSample.guest
    = Mesh.Completed MeshSample.guest [].
Proof.
  assert (Mesh.gm_isHost MeshSample.guest = false) as Hg by reflexivity.
  split; [exact Hg|].
  destruct C1_who_writes as [Hmesh _].
  exact (Hmesh MeshSample.guest "JOIN" MeshSample.joinPayload "g2"
           (mkDraw 0 0) 5%Z Hg).
Defined.

(** In the voting phase of the sample session the guest "c" casts a vote:
    the room document changes, and "c" is not the host. *)
Lemma C1_counterexample :
  "c" ≠ App.hostId Sample.voting3
  ∧ App.enabled "c" (App.CastVote "b") Sample.voting3 = true
  ∧ App.votes Sample.voting3 !! "c" = None
  ∧ App.votes (App.step Sample.voting3 ("c", App.CastVote "b")) !! "c"
    = Some "b"
  ∧ App.step Sample.voting3 ("c", App.CastVote "b") ≠ Sample.voting3.
Proof.
  split_and!; [by vm_compute..|].
  intros Heq. apply (f_equal (λ r, App.votes r !! "c")) in Heq.
  by vm_compute in Heq.
Qed.

End SingleWriter.

(** ** What the page shows *)

Module ViewFacts.
Import App View.

(** *** The clock format *)

Lemma string_length_app (s1 s2 : string) :
  String.length (s1 +:+ s2) = String.length s1 + String.length s2.
Proof.
  induction s1 as [|c s1 IH]; [done|].
  change (S (String.length (s1 +:+ s2)) = S (String.length s1 + String.length s2)).
  by rewrite IH.
Qed.

Lemma string_app_inj_tail (a b x y : string) :
  String.length x = String.length y → a +:+ x = b +:+ y → a = b ∧ x = y.
Proof.
  intros Hlen. revert b. induction a as [|c a IH]; intros [|d b] H.
  - done.
  - change (x = String d (b +:+ y)) in H. subst x.
    change (S (String.length (b +:+ y)) = String.length y) in Hlen.
    rewrite string_length_app in Hlen. lia.
  - change (String c (a +:+ x) = y) in H. subst y.
    change (String.length x = S (String.length (a +:+ x))) in Hlen.
    rewrite string_length_app in Hlen. lia.
  - change (String c (a +:+ x) = String d (b +:+ y)) in H.
    injection H as -> H. by apply IH in H as [-> ->].
Qed.

Lemma seconds_field_length :
  Forall (λ s, String.length
                 (":" +:+ (if bool_decide (s < 10) then "0" else EmptyString)
                  +:+ pretty s) = 3) (seq 0 60).
Proof. compute_done. Qed.

Lemma seconds_field_inj :
  Forall (λ s, Forall (λ s',
     ":" +:+ (if bool_decide (s < 10) then "0" else EmptyString) +:+ pretty s
     = ":" +:+ (if bool_decide (s' < 10) then "0" else EmptyString)
       +:+ pretty s' → s = s') (seq 0 60)) (seq 0 60).
Proof. compute_done. Qed.

(** X1.  [formatTime] writes the seconds of the minute on exactly two
    digits after the colon, and two different numbers of seconds are never
    shown as the same text. *)
Theorem formatTime_injective :
  (∀ n, String.length (formatTime n)
        = String.length (pretty (n / 60)) + 3)
  ∧ (∀ a b, formatTime a = formatTime b → a = b).
Proof.
  assert (∀ n, n mod 60 ∈ seq 0 60) as Hin.
  { intros n. apply elem_of_seq.
    assert (n mod 60 < 60) by (apply Nat.mod_upper_bound; lia). lia. }
  pose proof (proj1 (Forall_forall _ _) seconds_field_length) as Hlen.
  split.
  - intros n. unfold formatTime. rewrite string_length_app.
    by rewrite (Hlen _ (Hin n)).
  - intros a b H. unfold formatTime in H.
    apply string_app_inj_tail in H as [Hm Hs];
      [|by rewrite (Hlen _ (Hin a)), (Hlen _ (Hin b))].
    apply (inj pretty) in Hm.
    pose proof (proj1 (Forall_forall _ _) seconds_field_inj _ (Hin a)) as Hi.
    apply (proj1 (Forall_forall _ _) Hi _ (Hin b)) in Hs.
    rewrite (Nat.div_mod_eq a 60), (Nat.div_mod_eq b 60). lia.
Qed.

(** *** The acknowledgement counter *)

(** X2.  The turn-order strip shows the acknowledgements of the
    turn-holder next to the number needed, floor(players / 2) + 1.  When an
    accepted acknowledgement brings the count to the number shown, the turn
    moves on: the index goes to the next entry of [turnOrder], or back to 0
    with the round counter incremented, and every acknowledgement list is
    emptied.  Below the number shown the sender is appended to the
    turn-holder's list, whose length is the count displayed, and index,
    round and phase stay as they are. *)
Theorem passTurn_meets_display (uid targetId : string) (room : Room)
    (tp : Player) :
  players room !! targetId = Some tp → uid ∉ passedTurn tp →
  let shown := length (passedTurn tp) + 1 in
  let i := currentTurnIndex room in
  let len := length (turnOrder room) in
  ∃ r', passTurn uid targetId room = Some r'
    ∧ turnOrder r' = turnOrder room
    ∧ (passesNeeded room ≤ shown →
       (i + 1 < len →
        currentTurnIndex r' = i + 1 ∧ round r' = round room
        ∧ state r' = playing)
       ∧ (len ≤ i + 1 →
          currentTurnIndex r' = 0 ∧ round r' = round room + 1
          ∧ (maxRounds room < round room + 1 → state r' = voting)
          ∧ (round room + 1 ≤ maxRounds room → state r' = playing))
       ∧ (∀ pid p', players r' !! pid = Some p' → passedTurn p' = []))
    ∧ (shown < passesNeeded room →
       currentTurnIndex r' = i ∧ round r' = round room
       ∧ state r' = state room
       ∧ (∃ p', players r' !! targetId = Some p'
                ∧ passedTurn p' = passedTurn tp ++ [uid]
                ∧ length (passedTurn p') = shown)
       ∧ (∀ pid, pid ≠ targetId → players r' !! pid = players room !! pid)).
Proof.
  intros Hp Hnot shown i len.
  destruct (AppFacts.passTurn_outcome uid targetId room tp Hp Hnot)
    as (r' & Hr' & Hord & Hadv & Hstay).
  fold shown i len in Hadv, Hstay.
  exists r'. split; [done|]. split; [done|]. unfold passesNeeded.
  set (n := length (Object_keys (players room))) in *.
  pose proof (Nat.div_mod_eq n 2) as Hdm.
  assert (n mod 2 < 2) by (apply Nat.mod_upper_bound; lia).
  split; intros Hc.
  - destruct Hadv as (_ & Hin & Hov & Hclr); [lia|].
    split; [done|]. split; [done|]. intros pid p' Hp'.
    specialize (Hclr pid). rewrite Hp' in Hclr. simpl in Hclr.
    destruct (players room !! pid); simpl in Hclr; congruence.
  - destruct Hstay as (_ & Hi & Hrd & Hst & Hack & Hoth); [lia|].
    split_and!; try done.
    destruct (players r' !! targetId) as [p'|]; [|done].
    injection Hack as Hack. exists p'. split; [done|]. split; [done|].
    rewrite Hack, length_app. simpl. unfold shown. lia.
Qed.

(** In the sample game of three the display shows 2 as the number
    needed.  The host's own acknowledgement is the first: it is stored and
    the turn stays at entry 0.  The acknowledgement of "b" is the second
    and moves the turn to entry 1. *)
Lemma passTurn_meets_display_witness :
  passesNeeded Sample.game3 = 2
  ∧ (∃ r1, passTurn "h" "h" Sample.game3 = Some r1
           ∧ currentTurnIndex r1 = 0
           ∧ ∃ p', players r1 !! "h" = Some p' ∧ passedTurn p' = ["h"])
  ∧ ∃ r2, passTurn "b" "h" (step Sample.game3 ("h", PassTurn "h")) = Some r2
          ∧ currentTurnIndex r2 = 1.
Proof.
  split; [by vm_compute|]. split.
  - destruct (passTurn_meets_display "h" "h" Sample.game3
                (setRole ["b"] "h" (freshPlayer "Hal")))
      as (r1 & Hr1 & _ & _ & Hstay); [by vm_compute|compute_done|].
    exists r1. split; [exact Hr1|].
    destruct Hstay as (Hi & _ & _ & (p' & Hp' & Hack & _) & _);
      [vm_compute; lia|].
    split; [rewrite Hi; by vm_compute|]. exists p'. split; [exact Hp'|].
    rewrite Hack. by vm_compute.
  - destruct (passTurn_meets_display "b" "h"
                (step Sample.game3 ("h", PassTurn "h"))
                (setPassedTurn ["h"] (setRole ["b"] "h" (freshPlayer "Hal"))))
      as (r2 & Hr2 & _ & Hadv & _); [by vm_compute|compute_done|].
    exists r2. split; [exact Hr2|].
    destruct Hadv as (Hin & _); [vm_compute; lia|].
    destruct Hin as [Hidx _]; [vm_compute; lia|].
    rewrite Hidx. by vm_compute.
Defined.

(** *** Private messages *)

Lemma filter_arrayUnion {A} `{EqDecision A} (P : A → Prop)
    `{∀ x, Decision (P x)} (x : A) (l : list A) :
  ¬ P x → filter P (arrayUnion x l) = filter P l.
Proof.
  intros Hx. unfold arrayUnion. case_decide; [done|].
  by rewrite filter_app, filter_cons_False, filter_nil, app_nil_r.
Qed.

Lemma elem_of_arrayUnion {A} `{EqDecision A} (x : A) (l : list A) :
  x ∈ arrayUnion x l.
Proof.
  unfold arrayUnion. case_decide; [done|]. apply elem_of_app; right; left.
Qed.

(** X3.  A message that [trim] leaves empty, a no-break space for one, is
    not sent.  Any other private message sent with [sendChat] is shown in
    the sender's conversation with the recipient and in the recipient's
    conversation with the sender, and in no other conversation of anybody;
    unless the sender's profile name is "System" it does not enter the
    feed either. *)
Theorem private_message_threads (uid profileName recipient chatMsg : string)
    (now : Z) (room : Room) :
  recipient ≠ EmptyString →
  let m := {| senderId := Some uid; recipientId := Some recipient;
              sender := profileName; msg := chatMsg; time := now |} in
  let r' := sendChat uid profileName (Some recipient) chatMsg now room in
  (blank chatMsg = true → r' = room)
  ∧ (blank chatMsg = false →
     m ∈ thread uid recipient r'
     ∧ m ∈ thread recipient uid r'
     ∧ (∀ w x, ¬ (w = uid ∧ x = recipient) → ¬ (w = recipient ∧ x = uid) →
               thread w x r' = thread w x room)
     ∧ (profileName ≠ "System" → feed r' = feed room)).
Proof.
  intros Hr m r'. split; intros Hb.
  - unfold r', sendChat. destruct recipient; [done|]. by rewrite Hb.
  - assert (chats r' = arrayUnion m (chats room)) as Hchats.
    { unfold r', sendChat. destruct recipient; [done|]. by rewrite Hb. }
    unfold thread, feed. rewrite Hchats. split_and!.
    + apply list_elem_of_filter. split; [by left|apply elem_of_arrayUnion].
    + apply list_elem_of_filter. split; [by right|apply elem_of_arrayUnion].
    + intros w x H1 H2. apply filter_arrayUnion. simpl.
      intros [[[= <-] [= <-]]|[[= <-] [= <-]]]; [by apply H1|by apply H2].
    + intros Hname. by rewrite filter_arrayUnion.
Qed.

(** In the sample game the host writes "psst" to "b": the conversation of
    "c" with the host is unchanged.  A message made of a space, a no-break
    space (bytes 194, 160) and an ideographic space (bytes 227, 128, 128)
    is not sent. *)
Lemma private_message_threads_witness :
  thread "c" "h"
    (sendChat "h" "Hal" (Some "b") "psst" 150 Sample.game3)
  = thread "c" "h" Sample.game3
  ∧ sendChat "h" "Hal" (Some "b")
      (String (Ascii.ascii_of_nat 32) (String (Ascii.ascii_of_nat 194)
        (String (Ascii.ascii_of_nat 160) (String (Ascii.ascii_of_nat 227)
          (String (Ascii.ascii_of_nat 128) (String (Ascii.ascii_of_nat 128)
            EmptyString))))))
      150 Sample.game3
    = Sample.game3.
Proof.
  assert ("b" ≠ EmptyString) as Hr by done.
  split.
  - destruct (private_message_threads "h" "Hal" "b" "psst" 150 Sample.game3 Hr)
      as [_ Hsent].
    destruct Hsent as (_ & _ & Hothers & _); [by vm_compute|].
    apply Hothers; by intros [? ?].
  - destruct (private_message_threads "h" "Hal" "b"
                (String (Ascii.ascii_of_nat 32) (String (Ascii.ascii_of_nat 194)
                  (String (Ascii.ascii_of_nat 160)
                    (String (Ascii.ascii_of_nat 227)
                      (String (Ascii.ascii_of_nat 128)
                        (String (Ascii.ascii_of_nat 128) EmptyString))))))
                150 Sample.game3 Hr) as [Hblank _].
    apply Hblank. by vm_compute.
Defined.

(** *** The hidden panel *)

(** X4.  Starting with the panel closed, the panel is open after n
    clicks on the help button exactly when n is at least 5, and the click
    counter is back at 0 after every fifth click. *)
Theorem fifth_click_opens_panel (n : nat) :
  Nat.iter n handleGodModeTrigger (0, false) = (n mod 5, bool_decide (5 ≤ n)).
Proof.
  induction n as [|n IH]; [done|]. rewrite Nat.iter_succ, IH.
  unfold handleGodModeTrigger; cbn [fst snd].
  assert (n mod 5 < 5) as Hlt by (apply Nat.mod_upper_bound; lia).
  pose proof (Nat.div_mod_eq n 5) as Hn.
  pose proof (Nat.div_mod_eq (S n) 5) as HSn.
  assert (S n mod 5 < 5) as HSlt by (apply Nat.mod_upper_bound; lia).
  destruct (decide (5 ≤ n mod 5 + 1)) as [H5|H5].
  - rewrite (bool_decide_eq_true_2 (5 ≤ n mod 5 + 1)) by done.
    assert (S n mod 5 = 0) as -> by lia.
    by rewrite bool_decide_eq_true_2 by lia.
  - rewrite (bool_decide_eq_false_2 (5 ≤ n mod 5 + 1)) by done.
    assert (S n mod 5 = n mod 5 + 1) as -> by lia.
    f_equal. apply bool_decide_ext.
    destruct (decide (n < 5)) as [Hs|Hs]; [|lia].
    rewrite Nat.mod_small in H5 by done. lia.
Qed.

End ViewFacts.

(** ** Sessions of the document-store variant *)

Module SessionFacts.
Import App.

(** *** The order of the phases *)


(** *** The round counter *)

Lemma step_rounds (room : Room) (ev : string * Action) :
  maxRounds room = 3
  ∧ (state room = lobby → round room = 1)
  ∧ (state room = playing → 1 ≤ round room ≤ 3)
  ∧ (state room = voting ∨ state room = result → round room = 4) →
  maxRounds (step room ev) = 3
  ∧ (state (step room ev) = lobby → round (step room ev) = 1)
  ∧ (state (step room ev) = playing → 1 ≤ round (step room ev) ≤ 3)
  ∧ (state (step room ev) = voting ∨ state (step room ev) = result →
     round (step room ev) = 4).
Proof.
  intros (Hm & Hl & Hp & Hv). destruct ev as [uid a]. unfold step; simpl.
  destruct (enabled uid a room) eqn:Hen; [|done].
  unfold enabled in Hen. apply andb_true_iff in Hen as [_ Hen].
  destruct a as [profileName|c|n|rnd now|profileName recipient chatMsg now
                |targetId|targetId|roomTime now date|]; simpl.
  - done.
  - done.
  - done.
  - rewrite !andb_true_iff, !bool_decide_eq_true in Hen. destruct Hen as [Hst _].
    simpl. split_and!; try done.
    + intros _. rewrite (Hl Hst). lia.
    + by intros [?|?].
  - unfold sendChat. destruct recipient; [done|]. by destruct (blank chatMsg).
  - rewrite !andb_true_iff, !bool_decide_eq_true in Hen. destruct Hen as [Hst _].
    specialize (Hp Hst).
    unfold passTurn. destruct (players room !! targetId) as [tp|]; [|done].
    destruct (includes uid (passedTurn tp)); [done|].
    case_bool_decide; simpl; [|done].
    rewrite Hm. destruct (bool_decide (length (turnOrder room) ≤ _)); simpl.
    + case_bool_decide; split_and!; try done; try lia.
      * by intros [?|?].
    + split_and!; try done. by intros [?|?].
  - done.
  - unfold listenerTallies in Hen.
    rewrite !andb_true_iff, !bool_decide_eq_true in Hen.
    destruct Hen as [[_ Hst] _].
    unfold calculateResults. destruct (isImposterCaught _ _).
    + destruct (_ ≫= _); simpl; [|done]. split_and!; try done. intros _. apply Hv. by left.
    + destruct (awardEach _ _ _); simpl; [|done]. split_and!; try done. intros _. apply Hv. by left.
  - split_and!; try done. by intros [?|?].
Qed.

(** X6.  In every snapshot of a session [maxRounds] is 3, the round
    counter is 1 in the lobby, between 1 and 3 during play (what the page
    shows as "Round r of 3"), and 4 in the voting and result phases. *)
Theorem round_counter (uid profileName newId : string)
    (evs : list (string * Action)) :
  let room := run evs (createRoom uid profileName newId) in
  maxRounds room = 3
  ∧ (state room = lobby → round room = 1)
  ∧ (state room = playing → 1 ≤ round room ≤ 3)
  ∧ (state room = voting ∨ state room = result → round room = 4).
Proof.
  assert (∀ room,
    maxRounds room = 3
    ∧ (state room = lobby → round room = 1)
    ∧ (state room = playing → 1 ≤ round room ≤ 3)
    ∧ (state room = voting ∨ state room = result → round room = 4) →
    maxRounds (run evs room) = 3
    ∧ (state (run evs room) = lobby → round (run evs room) = 1)
    ∧ (state (run evs room) = playing → 1 ≤ round (run evs room) ≤ 3)
    ∧ (state (run evs room) = voting ∨ state (run evs room) = result →
       round (run evs room) = 4)) as Hrun.
  { induction evs as [|ev evs IH]; intros room Hinv; [done|].
    apply IH. by apply step_rounds. }
  apply Hrun; simpl. split_and!; try done. by intros [?|?].
Qed.

(** X7.  Every game of a session, the first one or one started after
    play-again, lasts exactly three rounds: with n players the phase stays
    active play through 3n - 1 turn advances and the 3n-th one opens the
    vote. *)
Theorem every_game_has_three_rounds (uid profileName newId : string)
    (evs : list (string * Action)) (rnd : StartDraws) (now : Z) :
  uid ≠ EmptyString →
  let lobbyRoom := run evs (createRoom uid profileName newId) in
  state lobbyRoom = lobby →
  let game := startGame rnd now lobbyRoom in
  let n := size (players lobbyRoom) in
  0 < n
  ∧ length (turnOrder game) = n
  ∧ (∀ k, k < 3 * n → state (Nat.iter k nextTurn game) = playing)
  ∧ state (Nat.iter (3 * n) nextTurn game) = voting.
Proof.
  intros Huid lobbyRoom Hst game n.
  destruct (AppFacts.session_inv uid profileName newId evs Huid)
    as (_ & Hhost & _). fold lobbyRoom in Hhost.
  destruct (round_counter uid profileName newId evs) as (Hm & Hl & _).
  fold lobbyRoom in Hm, Hl.
  assert (0 < n) as Hn.
  { unfold n. apply Nat.neq_0_lt_0. rewrite map_size_non_empty_iff.
    intros He. rewrite He, lookup_empty in Hhost. by destruct Hhost. }
  assert (length (turnOrder game) = n) as Hlen.
  { unfold game, startGame; simpl.
    by rewrite shuffle_perm, length_Object_keys. }
  split; [done|]. split; [done|].
  destruct (AppFacts.rollover n 3 game) as [Hplay Hvote]; try done; try lia.
  { unfold game, startGame; simpl. by apply Hl. }
  split.
  - intros k Hk. destruct k as [|k]; [done|]. apply Hplay. lia.
  - by rewrite (Nat.mul_comm 3 n).
Qed.

Lemma every_game_has_three_rounds_witness :
  state (run Sample.joins3 (createRoom "h" "Hal" "ROOM01")) = lobby
  ∧ state (Nat.iter 8 nextTurn
             (startGame Sample.draws 100
                (run Sample.joins3 (createRoom "h" "Hal" "ROOM01"))))
    = playing
  ∧ state (Nat.iter 9 nextTurn
             (startGame Sample.draws 100
                (run Sample.joins3 (createRoom "h" "Hal" "ROOM01"))))
    = voting.
Proof.
  assert ("h" ≠ EmptyString) as Hne by done.
  assert (state (run Sample.joins3 (createRoom "h" "Hal" "ROOM01")) = lobby)
    as Hst by (by vm_compute).
  assert (size (players (run Sample.joins3 (createRoom "h" "Hal" "ROOM01")))
          = 3) as Hsize by (by vm_compute).
  destruct (every_game_has_three_rounds "h" "Hal" "ROOM01" Sample.joins3
              Sample.draws 100 Hne Hst) as (_ & _ & Hplay & Hvote).
  rewrite Hsize in Hplay, Hvote.
  split; [exact Hst|]. split.
  - apply Hplay. lia.
  - exact Hvote.
Defined.

(** *** Players, host and logs *)




Lemma arrayUnion_prefix {A} `{EqDecision A} (x : A) (l : list A) :
  l `prefix_of` arrayUnion x l.
Proof. unfold arrayUnion. case_decide; [done|]. by apply prefix_app_r. Qed.

Lemma step_logs (room : Room) (ev : string * Action) :
  chats room `prefix_of` chats (step room ev)
  ∧ historyLog room `prefix_of` historyLog (step room ev)
  ∧ (historyLog (step room ev) ≠ historyLog room →
     ev.1 = hostId room ∧ state room = voting
     ∧ ∃ roomTime now date, ev.2 = Tally roomTime now date).
Proof.
  destruct ev as [uid a]. unfold step; simpl.
  destruct (enabled uid a room) eqn:Hen; [|done].
  unfold enabled in Hen. apply andb_true_iff in Hen as [_ Hen].
  destruct a as [profileName|c|n|rnd now|profileName recipient chatMsg now
                |targetId|targetId|roomTime now date|]; simpl; try done.
  - split; [apply arrayUnion_prefix|done].
  - unfold sendChat. destruct recipient; [done|].
    destruct (blank chatMsg); [done|]. simpl.
    split; [apply arrayUnion_prefix|done].
  - unfold passTurn. destruct (players room !! targetId) as [tp|]; [|done].
    destruct (includes uid (passedTurn tp)); [done|].
    by destruct (bool_decide (_ < _)).
  - unfold listenerTallies in Hen.
    rewrite !andb_true_iff, !bool_decide_eq_true in Hen.
    destruct Hen as [[Hh Hst] _].
    unfold calculateResults. destruct (isImposterCaught _ _).
    + destruct (_ ≫= _); simpl; [|done].
      split; [apply arrayUnion_prefix|]. split; [apply arrayUnion_prefix|].
      intros _. split_and!; try done. by exists roomTime, now, date.
    + destruct (awardEach _ _ _); simpl; [|done].
      split; [apply arrayUnion_prefix|]. split; [apply arrayUnion_prefix|].
      intros _. split_and!; try done. by exists roomTime, now, date.
Qed.

(** X9.  The chat and the history log only grow: every request leaves the
    entries stored so far in place and in order, play-again included, and
    the history log grows only when the host's tally closes a vote. *)
Theorem logs_only_grow :
  (∀ evs room,
     chats room `prefix_of` chats (run evs room)
     ∧ historyLog room `prefix_of` historyLog (run evs room))
  ∧ (∀ room ev,
       historyLog (step room ev) ≠ historyLog room →
       ev.1 = hostId room ∧ state room = voting
       ∧ ∃ roomTime now date, ev.2 = Tally roomTime now date).
Proof.
  split.
  - intros evs. induction evs as [|ev evs IH]; intros room; [done|].
    destruct (IH (step room ev)) as [Hc Hh].
    destruct (step_logs room ev) as (Hc' & Hh' & _).
    split; [by etrans|by etrans].
  - intros room ev. apply step_logs.
Qed.

(** *** Roles and the impostor list *)

Lemma passTurn_cases (uid targetId : string) (room r' : Room) :
  passTurn uid targetId room = Some r' →
  r' = room ∨ r' = nextTurn room
  ∨ ∃ tp l, players room !! targetId = Some tp
            ∧ r' = withPlayers room
                     (<[ targetId := setPassedTurn l tp ]> (players room)).
Proof.
  unfold passTurn. destruct (players room !! targetId) as [tp|]; [|done].
  destruct (includes uid (passedTurn tp)); [intros [= <-]; by left|].
  destruct (bool_decide (_ < _)); intros [= <-]; [right; by left|].
  right; right. by eexists _, _.
Qed.

Lemma awardEach_role (g : Z) (ids : list string) (ps ps' : gmap string Player)
    (k : string) :
  awardEach g ids ps = Some ps' → role <$> ps' !! k = role <$> ps !! k.
Proof.
  revert ps; induction ids as [|i ids IH]; intros ps; simpl.
  - by intros [= ->].
  - destruct (ps !! i) as [p|] eqn:Hp; [|done]. intros H.
    rewrite (IH _ H). destruct (decide (i = k)) as [->|Hne].
    + by rewrite lookup_insert_eq, Hp.
    + by rewrite lookup_insert_ne.
Qed.

Lemma calculateResults_role (roomTime now : Z) (date : string)
    (rData r' : Room) (k : string) :
  calculateResults roomTime now date rData = Some r' →
  role <$> players r' !! k = role <$> players rData !! k.
Proof.
  unfold calculateResults. destruct (isImposterCaught _ _).
  - destruct (_ ≫= _); [|done]. intros [= <-]; simpl.
    rewrite map_lookup_imap, lookup_fmap.
    destruct (players rData !! k) as [pk|]; simpl; [|done].
    by destruct (includes k (imposterIds rData)).
  - destruct (awardEach _ _ _) as [ps'|] eqn:Hps; [|done].
    intros [= <-]; simpl. rewrite (awardEach_role _ _ _ _ _ Hps), lookup_fmap.
    by destruct (players rData !! k).
Qed.

Lemma step_roles (room : Room) (ev : string * Action) :
  (state room ≠ lobby →
   ∀ pid p, players room !! pid = Some p →
     (role p = "Imposter" → pid ∈ imposterIds room)
     ∧ (role p = "Crew" → pid ∉ imposterIds room)) →
  state (step room ev) ≠ lobby →
  ∀ pid p, players (step room ev) !! pid = Some p →
    (role p = "Imposter" → pid ∈ imposterIds (step room ev))
    ∧ (role p = "Crew" → pid ∉ imposterIds (step room ev)).
Proof.
  intros Hinv. destruct ev as [uid a]. unfold step; cbn [fst snd].
  destruct (enabled uid a room) eqn:Hen; [|done].
  unfold enabled in Hen. apply andb_true_iff in Hen as [_ Hen].
  destruct a as [profileName|c|n|rnd now|profileName recipient chatMsg now
                |targetId|targetId|roomTime now date|]; unfold perform.
  - intros Hst pid p. rewrite AppFacts.joinRoom_lookup.
    case_decide; [intros [= <-]; by split|].
    intros Hp. exact (Hinv Hst pid p Hp).
  - done.
  - done.
  - intros _ pid p. rewrite AppFacts.startGame_lookup.
    destruct (players room !! pid) as [p0|]; [|done]. intros [= <-].
    cbn [role setRole]. destruct (includes pid _) eqn:Hinc.
    + apply includes_true in Hinc. by split.
    + apply includes_false in Hinc. by split.
  - unfold sendChat. destruct recipient; [done|]. by destruct (blank chatMsg).
  - rewrite !andb_true_iff, !bool_decide_eq_true in Hen. destruct Hen as [Hpl _].
    assert (state room ≠ lobby) as Hnl by by rewrite Hpl.
    destruct (passTurn uid targetId room) as [r'|] eqn:Hr'; [|done].
    simpl. intros _ pid p.
    apply passTurn_cases in Hr' as [->|[->|(tp & l & Htp & ->)]].
    + by apply Hinv.
    + rewrite AppFacts.nextTurn_lookup.
      destruct (players room !! pid) as [p0|] eqn:Hp0; [|done]. intros [= <-].
      by apply (Hinv Hnl pid p0).
    + unfold withPlayers; simpl.
      destruct (decide (targetId = pid)) as [->|Hne].
      * rewrite lookup_insert_eq. intros [= <-]. by apply (Hinv Hnl pid tp).
      * rewrite lookup_insert_ne by done. by apply Hinv.
  - done.
  - unfold listenerTallies in Hen.
    rewrite !andb_true_iff, !bool_decide_eq_true in Hen.
    destruct Hen as [[_ Hvt] _].
    assert (state room ≠ lobby) as Hnl by by rewrite Hvt.
    destruct (calculateResults roomTime now date room) as [r'|] eqn:Hr'; [|done].
    simpl. intros _ pid p Hp.
    pose proof (calculateResults_role _ _ _ _ _ pid Hr') as Hrole.
    apply AppFacts.calculateResults_frame in Hr' as (_ & _ & _ & _ & -> & _).
    rewrite Hp in Hrole. destruct (players room !! pid) as [p0|] eqn:Hp0; [|done].
    injection Hrole as ->. by apply (Hinv Hnl pid p0).
  - done.
Qed.

(** X10.  Past the lobby, the roles stored with the players agree with
    the impostor list in every snapshot of a session: a player whose role
    is Imposter is in [imposterIds] and a player whose role is Crew is
    not.  (Somebody who joined during the game has neither role.) *)
Theorem roles_agree_with_imposterIds (uid profileName newId : string)
    (evs : list (string * Action)) :
  let room := run evs (createRoom uid profileName newId) in
  inGame room →
  ∀ pid p, players room !! pid = Some p →
    (role p = "Imposter" → pid ∈ imposterIds room)
    ∧ (role p = "Crew" → pid ∉ imposterIds room).
Proof.
  assert (∀ room,
    (state room ≠ lobby →
     ∀ pid p, players room !! pid = Some p →
       (role p = "Imposter" → pid ∈ imposterIds room)
       ∧ (role p = "Crew" → pid ∉ imposterIds room)) →
    state (run evs room) ≠ lobby →
    ∀ pid p, players (run evs room) !! pid = Some p →
      (role p = "Imposter" → pid ∈ imposterIds (run evs room))
      ∧ (role p = "Crew" → pid ∉ imposterIds (run evs room))) as Hrun.
  { induction evs as [|ev evs IH]; intros room Hinv; [done|].
    apply IH. by apply step_roles. }
  intros room Hgame. apply (Hrun (createRoom uid profileName newId)).
  - intros Hnl. by destruct Hnl.
  - fold room. destruct Hgame as [H|[H|H]]; by rewrite H.
Qed.

Lemma roles_agree_with_imposterIds_witness :
  inGame (run Sample.vote3 (createRoom "h" "Hal" "ROOM01"))
  ∧ "b" ∈ imposterIds (run Sample.vote3 (createRoom "h" "Hal" "ROOM01"))
  ∧ "h" ∉ imposterIds (run Sample.vote3 (createRoom "h" "Hal" "ROOM01")).
Proof.
  assert (inGame (run Sample.vote3 (createRoom "h" "Hal" "ROOM01"))) as Hgame
    by (right; left; by vm_compute).
  assert (players (run Sample.vote3 (createRoom "h" "Hal" "ROOM01")) !! "b"
          = Some (setRole ["b"] "b" (freshPlayer "Bo"))) as Hb
    by (by vm_compute).
  assert (players (run Sample.vote3 (createRoom "h" "Hal" "ROOM01")) !! "h"
          = Some (setRole ["b"] "h" (freshPlayer "Hal"))) as Hh
    by (by vm_compute).
  pose proof (roles_agree_with_imposterIds "h" "Hal" "ROOM01" Sample.vote3
                Hgame) as Hroles.
  split; [exact Hgame|]. split.
  - exact (proj1 (Hroles _ _ Hb) eq_refl).
  - exact (proj2 (Hroles _ _ Hh) eq_refl).
Defined.

(** *** Scores *)





(** X12.  After the tally of the first revision the Gained column of the
    scoreboard, [lastScoreGain], is the change of the player's score in
    this game, for every player; the name, the role and the
    acknowledgement list of the record are as before. *)
Theorem gained_is_the_change (roomTime now : Z) (date : string)
    (rData : Room) :
  impostersOk rData →
  ∃ r', calculateResults roomTime now date rData = Some r'
    ∧ ∀ pid p, players rData !! pid = Some p →
        ∃ p', players r' !! pid = Some p'
          ∧ lastScoreGain p' = (score p' - score p)%Z
          ∧ name p' = name p ∧ role p' = role p
          ∧ isReady p' = isReady p ∧ passedTurn p' = passedTurn p.
Proof.
  intros (Hnd & Hin & Hne). rewrite Forall_forall in Hin.
  unfold calculateResults.
  destruct (isImposterCaught _ _) eqn:Hc.
  - apply AppFacts.isImposterCaught_spec in Hc as (t & Ht & Himp); [|done].
    rewrite Ht; simpl. destruct (Hin t Himp) as [pt Hpt]. rewrite Hpt.
    eexists; split; [done|]. intros pid p Hp; simpl.
    rewrite map_lookup_imap, lookup_fmap, Hp; simpl.
    eexists; split; [done|].
    destruct (includes pid (imposterIds rData)); simpl; split_and!; try done; lia.
  - destruct (AppFacts.awardEach_spec 20 (imposterIds rData)
                (setGain 0 <$> players rData)) as (ps' & -> & Hlook); [done|..].
    { intros i Hi. rewrite lookup_fmap. by apply fmap_is_Some, Hin. }
    eexists; split; [done|]. intros pid p Hp; simpl.
    rewrite Hlook, lookup_fmap, Hp.
    case_decide; simpl; (eexists; split; [done|]); simpl;
      split_and!; try done; lia.
Qed.

Lemma gained_is_the_change_witness :
  impostersOk Sample.voted3
  ∧ ∃ r', calculateResults 42 200 "2025-08-01T12:00:00.000Z" Sample.voted3
          = Some r'.
Proof.
  assert (impostersOk Sample.voted3) as Hok by compute_done.
  split; [exact Hok|].
  destruct (gained_is_the_change 42 200 "2025-08-01T12:00:00.000Z"
              Sample.voted3 Hok) as (r' & Hr' & _).
  by exists r'.
Defined.

(** *** The secret word *)

Lemma CATEGORIES_ten_words :
  map_Forall (λ _ words, length words = 10) CATEGORIES.
Proof. compute_done. Qed.

Lemma CATEGORIES_no_empty_word :
  map_Forall (λ _ words, Forall (λ w, w ≠ EmptyString) words) CATEGORIES.
Proof. compute_done. Qed.

Lemma startGame_picks (rnd : StartDraws) (now : Z) (room : Room)
    (words : list string) :
  CATEGORIES !! category room = Some words →
  word (startGame rnd now room) ∈ words.
Proof.
  intros Hc. unfold startGame; cbn [word]. rewrite Hc.
  cbn [default from_option]. unfold Datatypes.id.
  pose proof (CATEGORIES_ten_words _ words Hc) as Hlen. simpl in Hlen.
  destruct (lookup_lt_is_Some_2 words
              (floor_scale (wordDraw rnd) (length words)))
    as [w Hw]; [apply floor_scale_lt; lia|].
  rewrite Hw; simpl. by eapply list_elem_of_lookup_2.
Qed.

Lemma step_word (room : Room) (ev : string * Action) :
  (∃ words, CATEGORIES !! category room = Some words
            ∧ (state room ≠ lobby → word room ∈ words)) →
  ∃ words, CATEGORIES !! category (step room ev) = Some words
           ∧ (state (step room ev) ≠ lobby → word (step room ev) ∈ words).
Proof.
  intros (words & Hc & Hw). destruct ev as [uid a]. unfold step; cbn [fst snd].
  destruct (enabled uid a room) eqn:Hen; [|by exists words].
  unfold enabled in Hen. apply andb_true_iff in Hen as [_ Hen].
  destruct a as [profileName|c|n|rnd now|profileName recipient chatMsg now
                |targetId|targetId|roomTime now date|]; unfold perform.
  - by exists words.
  - rewrite !andb_true_iff, !bool_decide_eq_true in Hen.
    destruct Hen as [[Hst _] Hkey].
    apply elem_of_Object_keys in Hkey as [words' Hwords'].
    exists words'. split; [done|]. simpl. by intros [].
  - by exists words.
  - exists words. split; [done|]. intros _. by apply startGame_picks.
  - exists words. unfold sendChat. destruct recipient; [done|].
    by destruct (blank chatMsg).
  - exists words.
    destruct (passTurn uid targetId room) as [r'|] eqn:Hr'; [|done]. simpl.
    apply passTurn_cases in Hr' as [->|[->|(tp & l & _ & ->)]]; [done| |done].
    split; [done|]. intros _.
    rewrite !andb_true_iff, !bool_decide_eq_true in Hen.
    destruct Hen as [Hst _]. apply Hw. by rewrite Hst.
  - by exists words.
  - exists words. unfold listenerTallies in Hen.
    rewrite !andb_true_iff, !bool_decide_eq_true in Hen.
    destruct Hen as [[_ Hst] _].
    assert (word room ∈ words) as Hin by (apply Hw; by rewrite Hst).
    unfold calculateResults. destruct (isImposterCaught _ _).
    + by destruct (_ ≫= _).
    + by destruct (awardEach _ _ _).
  - exists words. split; [done|]. simpl. by intros [].
Qed.

(** X13.  In every session the category of the room is one of the eight
    keys of [CATEGORIES]: [createRoom] writes Food and the selector offers
    the keys only.  So the word that [startGame] stores is one of the ten
    words of the room's category and is not empty, and outside the lobby
    the word held by the room is one of the ten words of its category. *)
Theorem startGame_word (uid profileName newId : string)
    (evs : list (string * Action)) :
  let room := run evs (createRoom uid profileName newId) in
  ∃ words,
    CATEGORIES !! category room = Some words
    ∧ length words = 10
    ∧ (∀ rnd now, word (startGame rnd now room) ∈ words
                  ∧ word (startGame rnd now room) ≠ EmptyString)
    ∧ (state room ≠ lobby → word room ∈ words ∧ word room ≠ EmptyString).
Proof.
  assert (∀ room,
    (∃ words, CATEGORIES !! category room = Some words
              ∧ (state room ≠ lobby → word room ∈ words)) →
    ∃ words, CATEGORIES !! category (run evs room) = Some words
             ∧ (state (run evs room) ≠ lobby → word (run evs room) ∈ words))
    as Hrun.
  { unfold run. induction evs as [|ev evs IH]; intros room Hinv; [done|].
    simpl. apply IH. by apply step_word. }
  intros room.
  destruct (CATEGORIES !! "Food") as [food|] eqn:Hfood;
    [|by vm_compute in Hfood].
  destruct (Hrun (createRoom uid profileName newId)) as (words & Hc & Hw).
  { exists food. split; [exact Hfood|]. by intros []. }
  fold room in Hc, Hw. exists words.
  pose proof (CATEGORIES_no_empty_word _ words Hc) as Hne. simpl in Hne.
  rewrite Forall_forall in Hne.
  split; [done|]. split; [exact (CATEGORIES_ten_words _ _ Hc)|]. split.
  - intros rnd now.
    pose proof (startGame_picks rnd now room words Hc) as Hin.
    split; [done|]. by apply Hne.
  - intros Hst. split; [by apply Hw|]. by apply Hne, Hw.
Qed.

End SessionFacts.

(** ** The tally and the profile documents *)

Module TallyFacts.
Import App.

Lemma sum_list_Permutation (l1 l2 : list nat) :
  l1 ≡ₚ l2 → sum_list l1 = sum_list l2.
Proof. induction 1; simpl; lia. Qed.

Lemma sum_values_insert (m : gmap string nat) (k : string) (x : nat) :
  m !! k = None →
  sum_list (Object_values (<[ k := x ]> m)) = x + sum_list (Object_values m).
Proof.
  intros Hk. unfold Object_values.
  rewrite (sum_list_Permutation _ (((k, x) :: map_to_list m).*2)); [done|].
  by rewrite (map_to_list_insert m k x Hk).
Qed.

Lemma sum_values_bump (m : gmap string nat) (k : string) :
  sum_list (Object_values (<[ k := default 0 (m !! k) + 1 ]> m))
  = sum_list (Object_values m) + 1.
Proof.
  destruct (m !! k) as [c|] eqn:Hk; simpl.
  - rewrite <-(insert_delete_eq m k (c + 1)).
    rewrite sum_values_insert by apply lookup_delete_eq.
    rewrite <-(insert_delete_id m k c Hk) at 2.
    rewrite sum_values_insert by apply lookup_delete_eq. lia.
  - rewrite sum_values_insert by done. lia.
Qed.

(** X14.  Every stored vote is counted once: the counts that
    [calculateResults] builds add up to the number of voters, each count
    is the number of votes for its target, and a target without votes has
    no count. *)
Theorem every_vote_is_counted_once (allVotes : gmap string string) :
  sum_list (Object_values (countVotes allVotes)) = size allVotes
  ∧ (∀ t, countVotes allVotes !! t
          = if decide (votesFor allVotes t = 0) then None
            else Some (votesFor allVotes t)).
Proof.
  split.
  - unfold countVotes.
    assert (∀ vs acc,
      sum_list (Object_values
        (foldl (λ voteCounts vId,
                  <[ vId := default 0 (voteCounts !! vId) + 1 ]> voteCounts)
               acc vs))
      = sum_list (Object_values acc) + length vs) as Hfold.
    { induction vs as [|v vs IH]; intros acc; simpl; [lia|].
      rewrite IH, sum_values_bump. lia. }
    rewrite Hfold. unfold Object_values at 1.
    rewrite map_to_list_empty. simpl.
    unfold Object_values. by rewrite length_fmap, length_map_to_list.
  - intros t. case_decide as Hz.
    + destruct (countVotes allVotes !! t) as [c|] eqn:Hc; [|done].
      apply AppFacts.countVotes_lookup in Hc as [-> ?]. lia.
    + apply AppFacts.countVotes_lookup. split; [done|lia].
Qed.

End TallyFacts.

(** ** The later revision: awards and statistics *)

Module StatsFacts.
Import App Stats.

(** X15.  In the later scoring nobody gains more than 3 points or loses
    more than 1 in a game, whatever the votes; an impostor gains 3 or
    nothing and never loses a point. *)
Theorem gain_is_bounded (rData : Room) (votedOutId : option string)
    (voteCounts : gmap string nat) (caught : bool) (pid : string) :
  (-1 ≤ Rev2.gain rData votedOutId voteCounts caught pid ≤ 3)%Z
  ∧ (pid ∈ imposterIds rData →
     Rev2.gain rData votedOutId voteCounts caught pid
     = if caught then 0%Z else 3%Z).
Proof.
  unfold Rev2.gain. split.
  - destruct (includes pid (imposterIds rData)); simpl.
    + destruct caught; simpl; lia.
    + destruct (truthy (votes rData !! pid) && _);
        destruct (truthy (votes rData !! pid));
        destruct (truthy votedOutId && _ && _); lia.
  - intros Hin. rewrite (proj2 (includes_true _ _) Hin). simpl.
    by destruct caught.
Qed.

Lemma statsAfter_ok (rData : Room) (id : string) (s : UserStats) :
  statsOk s →
  let s' := statsAfter rData id s in
  let caught := isImposterCaught (votedOut (votes rData)) (imposterIds rData) in
  statsOk s'
  ∧ totalGames s' = totalGames s + 1
  ∧ (wins s' = wins s + 1
     ↔ caught = negb (includes id (imposterIds rData)))
  ∧ (imposterWins s' = imposterWins s + 1
     ↔ id ∈ imposterIds rData ∧ caught = false).
Proof.
  intros (H1 & H2 & H3 & H4) s' caught. unfold s', statsAfter. fold caught.
  unfold statsOk; simpl.
  destruct (includes id (imposterIds rData)) eqn:Himp; simpl;
    destruct caught; simpl;
    destruct (truthy (votes rData !! id)); simpl;
    try destruct (match votes rData !! id with Some _ => _ | None => _ end);
    split_and!; try lia; try (split; [done|lia]); try (split; [lia|done]);
    try (split; [lia|intros [? ?]; done]);
    try (split; [intros _; split; [by apply includes_true|done]|lia]);
    try (split; [lia|intros [Hin%includes_true ?]; congruence]).
Qed.

(** X16.  The statistics update keeps the [users] collection consistent:
    if no stored statistics show more wins than games, more wins as
    impostor than wins, more correct votes than votes or more votes than
    games, the same holds afterwards.  No document is created or removed
    and the documents of people outside the room are untouched; a player's
    document keeps its name, history and password, its games go up by one
    (counted from [INITIAL_STATS] when it had no statistics), and its wins
    go up exactly when the player is on the winning side: crew when the
    impostors are caught, impostor when they are not. *)
Theorem stats_stay_consistent (rData : Room)
    (users : gmap string UserProfile) :
  map_Forall (λ _ prof, statsOk (default INITIAL_STATS (stats prof))) users →
  let users' := updateStats rData users in
  let caught := isImposterCaught (votedOut (votes rData)) (imposterIds rData) in
  map_Forall (λ _ prof, statsOk (default INITIAL_STATS (stats prof))) users'
  ∧ (∀ id, is_Some (users' !! id) ↔ is_Some (users !! id))
  ∧ (∀ id prof, users !! id = Some prof → players rData !! id = None →
       users' !! id = Some prof)
  ∧ (∀ id prof p, users !! id = Some prof → players rData !! id = Some p →
       ∃ prof' s', users' !! id = Some prof' ∧ stats prof' = Some s'
         ∧ name prof' = name prof ∧ history prof' = history prof
         ∧ pass prof' = pass prof
         ∧ totalGames s'
           = totalGames (default INITIAL_STATS (stats prof)) + 1
         ∧ (wins s' = wins (default INITIAL_STATS (stats prof)) + 1
            ↔ caught = negb (includes id (imposterIds rData)))).
Proof.
  intros Hok users' caught.
  assert (∀ id, users' !! id
    = (λ prof, if bool_decide (id ∈ Object_keys (players rData))
               then {| name := name prof; history := history prof;
                       pass := pass prof;
                       stats := Some (statsAfter rData id
                                        (default INITIAL_STATS (stats prof))) |}
               else prof) <$> users !! id) as Hlook.
  { intros id. unfold users', updateStats. rewrite map_lookup_imap.
    by destruct (users !! id). }
  split_and!.
  - intros id prof'. rewrite Hlook.
    destruct (users !! id) as [prof|] eqn:Hprof; [|done]. intros [= <-].
    pose proof (Hok id prof Hprof) as Hs. simpl in Hs.
    case_bool_decide; [|done]. simpl.
    by apply (statsAfter_ok rData id).
  - intros id. by rewrite Hlook, fmap_is_Some.
  - intros id prof Hprof Hnone. rewrite Hlook, Hprof. simpl.
    rewrite bool_decide_eq_false_2; [done|].
    rewrite elem_of_Object_keys, Hnone. by intros [? ?].
  - intros id prof p Hprof Hp. rewrite Hlook, Hprof. simpl.
    rewrite bool_decide_eq_true_2
      by (rewrite elem_of_Object_keys, Hp; by eexists).
    pose proof (Hok id prof Hprof) as Hs. simpl in Hs.
    destruct (statsAfter_ok rData id _ Hs) as (_ & Hg & Hw & _).
    eexists _, _. split; [done|]. simpl. by split_and!.
Qed.

Lemma stats_stay_consistent_witness :
  map_Forall (λ _ prof, statsOk (default INITIAL_STATS (stats prof)))
    (updateStats Sample.misled3
       {[ "b" := {| name := []; history := []; pass := None;
                    stats := None |} ]}).
Proof.
  apply (stats_stay_consistent Sample.misled3
           {[ "b" := {| name := []; history := []; pass := None;
                        stats := None |} ]}).
  apply map_Forall_singleton. unfold statsOk. simpl. lia.
Defined.

End StatsFacts.

(** ** Sign-up without a profile *)

Module ProfileFacts.
Import Auth.

(** X17.  A sign-up whose password [btoa] rejects (a character above
    code 255) leaves the new account without a profile document, and no
    login can make up for it: a login writes the password only into a
    document that exists already, so for this account every login reports
    an error and the [users] collection stays as it was. *)
Theorem signup_without_profile (nameInput password : JsString)
    (uid : string) (users : gmap string Profile) :
  trimIsEmpty nameInput = false → btoa password = None →
  users !! uid = None →
  handleAuth true nameInput password (inl uid) users
  = (users, Some InvalidCharacter)
  ∧ ∀ nameInput' password',
      ∃ e, handleAuth false nameInput' password' (inl uid) users
           = (users, Some e)
           ∧ (e = InvalidCharacter ∨ e = NoDocumentToUpdate).
Proof.
  intros Hname Hpw Hnone. split.
  - unfold handleAuth. by rewrite Hname, Hpw.
  - intros nameInput' password'. unfold handleAuth.
    destruct (btoa password'); [|by eexists; split; [|left]].
    rewrite Hnone. eexists; split; [done|by right].
Qed.

Lemma signup_without_profile_witness :
  handleAuth true [72; 97; 108]%N [112; 8364]%N (inl "u1") ∅
  = (∅, Some InvalidCharacter).
Proof.
  apply (signup_without_profile [72; 97; 108]%N [112; 8364]%N "u1" ∅);
    by vm_compute.
Defined.

End ProfileFacts.

(** ** The peer-mesh variant: sessions of a host *)

Module MeshPageFacts.
Import Mesh MeshPage.

(** *** Player ids *)

Lemma ids_resetPlayer (clear : bool) (ps : list Player) :
  id <$> (resetPlayer clear <$> ps) = id <$> ps.
Proof. rewrite <-list_fmap_compose. by apply list_fmap_ext. Qed.



Lemma ids_nextTurn (st : RoomState) :
  id <$> players (nextTurn st) = id <$> players st.
Proof.
  unfold nextTurn.
  destruct (bool_decide (_ ≤ _)%Z); [destruct (bool_decide (_ ≤ _))|];
    simpl; apply ids_resetPlayer.
Qed.

Lemma manager_broadcastState (gm : GameManager) :
  manager (broadcastState gm) = gm.
Proof. unfold broadcastState. by destruct (gm_isHost gm). Qed.





Lemma revealTimeout_host (connected : bool) (rnd : Draw) (now : Z)
    (gm : GameManager) :
  gm_isHost gm = true →
  revealTimeout connected rnd now gm
  = (Completed (withState gm (withPhase (gm_state gm) PLAYING))
       [withPhase (gm_state gm) PLAYING], None).
Proof.
  intros Hh. unfold revealTimeout, sendAction. rewrite Hh. simpl.
  rewrite Hh. unfold hostAction. simpl. rewrite Hh.
  unfold broadcastState. simpl. by rewrite Hh.
Qed.




(** *** The round counter *)

Lemma rounds_nextTurn (st : RoomState) :
  maxRounds (nextTurn st) = maxRounds st
  ∧ round st ≤ round (nextTurn st)
  ∧ (round st ≤ maxRounds st → round (nextTurn st) ≤ maxRounds st).
Proof.
  unfold nextTurn. destruct (bool_decide (_ ≤ _)%Z); [case_bool_decide|];
    simpl; lia.
Qed.

Lemma rounds_startGame (word : string) (rnd : Draw) (now : Z)
    (gm : GameManager) :
  maxRounds (gm_state (manager (startGame word rnd now gm)))
  = maxRounds (gm_state gm)
  ∧ round (gm_state (manager (startGame word rnd now gm)))
    = round (gm_state gm).
Proof.
  unfold startGame. destruct (gm_isHost gm) eqn:Hh; simpl; [|done].
  destruct (_ !! _); [|done]. destruct (_ !! _); [|done].
  by rewrite manager_broadcastState.
Qed.

Lemma rounds_hostStep (gm : GameManager) (ev : HostEvent) :
  maxRounds (gm_state (hostStep gm ev)) = maxRounds (gm_state gm)
  ∧ round (gm_state gm) ≤ round (gm_state (hostStep gm ev))
  ∧ (round (gm_state gm) ≤ maxRounds (gm_state gm) →
     round (gm_state (hostStep gm ev)) ≤ maxRounds (gm_state gm))
  ∧ ((ev = PlayAgain ∨ ∃ payload senderId rnd now,
        ev = Received "START_GAME" payload senderId rnd now) →
     round (gm_state (hostStep gm ev)) = round (gm_state gm)).
Proof.
  destruct ev as [action payload senderId rnd now|peer|rnd now|]; simpl.
  - destruct (gm_isHost gm) eqn:Hh; [|by split_and!].
    unfold hostAction. case_bool_decide as Hjoin.
    { destruct (list_find _ _); rewrite ?manager_broadcastState; simpl;
        by split_and!. }
    case_bool_decide as Hchat.
    { rewrite manager_broadcastState. simpl. by split_and!. }
    case_bool_decide as Hstart.
    { destruct (rounds_startGame (p_word payload) rnd now gm) as [-> ->].
      by split_and!. }
    case_bool_decide as Hpass.
    { destruct (list_find _ _) as [[i p]|]; rewrite ?manager_broadcastState;
        simpl; [|by split_and!].
      destruct (bool_decide (2 ≤ _)); simpl; [|by split_and!].
      pose proof (rounds_nextTurn
        (withPlayers (gm_state gm) (<[i:=bumpPassed p]> (players (gm_state gm)))))
        as (Hm & Hle & Hbound). simpl in *.
      split_and!; try done. intros [?|(? & ? & ? & ? & [= ?])]; [done|].
      by subst action. }
    case_bool_decide as Hvote; [|by split_and!].
    rewrite manager_broadcastState. destruct (forallb _ _); simpl;
      by split_and!.
  - unfold onClose. destruct (gm_isHost gm); rewrite ?manager_broadcastState;
      simpl; by split_and!.
  - destruct (gm_isHost gm) eqn:Hh.
    + rewrite revealTimeout_host by done. simpl. by split_and!.
    + unfold revealTimeout, sendAction. rewrite Hh. simpl. rewrite Hh. simpl.
      by split_and!.
  - unfold playAgain. destruct (gm_isHost gm); rewrite ?manager_broadcastState;
      simpl; by split_and!.
Qed.

(** X19.  On the host the round counter is never reset: no message,
    closed connection, reveal or play-again lowers it, [START_GAME] and
    play-again leave it where it is, and from [initialize] it stays
    between 1 and [maxRounds], which stays 3.  A game started after
    play-again therefore continues at the round the last one ended on. *)
Theorem round_is_never_reset :
  (∀ evs gm,
     round (gm_state gm) ≤ round (gm_state (hostRun evs gm))
     ∧ maxRounds (gm_state (hostRun evs gm)) = maxRounds (gm_state gm))
  ∧ (∀ gm ev,
       ev = PlayAgain
       ∨ (∃ payload senderId rnd now,
            ev = Received "START_GAME" payload senderId rnd now) →
       round (gm_state (hostStep gm ev)) = round (gm_state gm))
  ∧ (∀ name0 id0 now evs,
       let gm := hostRun evs (initialize name0 None id0 now).1 in
       maxRounds (gm_state gm) = 3 ∧ 1 ≤ round (gm_state gm) ≤ 3).
Proof.
  assert (∀ evs gm,
     round (gm_state gm) ≤ round (gm_state (hostRun evs gm))
     ∧ maxRounds (gm_state (hostRun evs gm)) = maxRounds (gm_state gm)
     ∧ (round (gm_state gm) ≤ maxRounds (gm_state gm) →
        round (gm_state (hostRun evs gm)) ≤ maxRounds (gm_state gm))) as Hrun.
  { induction evs as [|ev evs IH]; intros gm; [done|].
    destruct (IH (hostStep gm ev)) as (Hle & Hm & Hb).
    destruct (rounds_hostStep gm ev) as (Hm' & Hle' & Hb' & _).
    change (hostRun (ev :: evs) gm) with (hostRun evs (hostStep gm ev)).
    split_and!; [lia|congruence|]. intros Hr. rewrite <-Hm'. apply Hb.
    rewrite Hm'. by apply Hb'. }
  split_and!.
  - intros evs gm. destruct (Hrun evs gm) as (? & ? & _). done.
  - intros gm ev Hev. by apply rounds_hostStep.
  - intros name0 id0 now evs gm.
    destruct (Hrun evs (initialize name0 None id0 now).1) as (Hle & Hm & Hb).
    fold gm in Hle, Hm, Hb. simpl in *. split; [done|]. split; [lia|].
    apply Hb. lia.
Qed.

(** *** Turns *)

Lemma find_turn_holder (st : RoomState) (k : nat) (p : Player) :
  NoDup (id <$> players st) → players st !! k = Some p →
  currentTurnId st = Some (id p) →
  list_find (λ q, Some (id q) = currentTurnId st) (players st) = Some (k, p).
Proof.
  intros Hnd Hp Hcur. apply list_find_Some. split; [done|]. split; [done|].
  intros j q Hq Hlt Heq. rewrite Hcur in Heq. injection Heq as Heq.
  assert (j = k); [|lia].
  eapply NoDup_lookup; [exact Hnd|..].
  - by rewrite list_lookup_fmap, Hq.
  - by rewrite list_lookup_fmap, Hp, Heq.
Qed.

Lemma nextTurn_at (st : RoomState) (k : nat) (p : Player) :
  NoDup (id <$> players st) → players st !! k = Some p →
  currentTurnId st = Some (id p) →
  let n := length (players st) in
  let st' := nextTurn st in
  maxRounds st' = maxRounds st
  ∧ players st' = resetPlayer false <$> players st
  ∧ (k + 1 < n →
     state st' = state st ∧ round st' = round st
     ∧ currentTurnId st' = (id <$> players st) !! (k + 1))
  ∧ (k + 1 = n → round st < maxRounds st →
     state st' = state st ∧ round st' = round st + 1
     ∧ currentTurnId st' = (id <$> players st) !! 0)
  ∧ (k + 1 = n → maxRounds st ≤ round st →
     state st' = VOTING ∧ round st' = round st).
Proof.
  intros Hnd Hp Hcur n st'. unfold st', nextTurn.
  rewrite (find_turn_holder st k p Hnd Hp Hcur), length_fmap. fold n.
  assert (k < n) as Hk by (by eapply lookup_lt_Some).
  assert (∀ i, id <$> (resetPlayer false <$> players st) !! i
               = (id <$> players st) !! i) as Hids.
  { intros i. rewrite !list_lookup_fmap.
    by destruct (players st !! i). }
  case_bool_decide as Hlast; [case_bool_decide as Hmax|]; simpl.
  - split_and!; try done; intros; lia.
  - split_and!; try done; intros; lia.
  - replace (Z.to_nat (Z.of_nat k + 1)) with (k + 1) by lia.
    split_and!; try done; intros; lia.
Qed.

(** X20.  The turn goes round the players in the order of the list.
    From a state whose turn-holder is the first player, in round r of m,
    after q full rounds and i further advances the i-th player holds the
    turn in round r + q and the phase has not changed; the advance that
    follows the last player's turn in round m opens the vote.  A game that
    starts in round r thus has m + 1 - r rounds. *)
Theorem turn_goes_round (st : RoomState) (n m r : nat) :
  NoDup (id <$> players st) → length (players st) = n → 0 < n →
  maxRounds st = m → round st = r → r ≤ m →
  currentTurnId st = (id <$> players st) !! 0 →
  (∀ q i, i < n → r + q ≤ m →
     let st' := Nat.iter (q * n + i) nextTurn st in
     state st' = state st ∧ round st' = r + q
     ∧ currentTurnId st' = (id <$> players st) !! i)
  ∧ state (Nat.iter ((m + 1 - r) * n) nextTurn st) = VOTING.
Proof.
  intros Hnd Hn Hpos Hm Hr Hrm Hcur.
  assert (∀ j q i, j = q * n + i → i < n → r + q ≤ m →
            let st' := Nat.iter j nextTurn st in
            state st' = state st ∧ round st' = r + q
            ∧ currentTurnId st' = (id <$> players st) !! i
            ∧ id <$> players st' = id <$> players st
            ∧ maxRounds st' = m) as Hpos'.
  { induction j as [|j IH]; intros q i Hj Hi Hq.
    - assert (q = 0 ∧ i = 0) as [-> ->] by nia. simpl.
      split_and!; try done; lia.
    - rewrite Nat.iter_succ. cbv zeta.
      set (stj := Nat.iter j nextTurn st) in *.
      assert (∃ q0 i0, j = q0 * n + i0 ∧ i0 < n ∧ r + q0 ≤ m
                ∧ ((i0 + 1 < n ∧ q = q0 ∧ i = i0 + 1)
                   ∨ (i0 + 1 = n ∧ q = q0 + 1 ∧ i = 0)))
        as (q0 & i0 & Hj0 & Hi0 & Hq0 & Hcase).
      { destruct i as [|i'].
        - exists (q - 1), (n - 1).
          assert (0 < q) by nia. split_and!; nia.
        - exists q, i'. split_and!; lia. }
      destruct (IH q0 i0 Hj0 Hi0 Hq0) as (Hst & Hrd & Hc & Hids & Hmx).
      fold stj in Hst, Hrd, Hc, Hids, Hmx.
      assert (length (players stj) = n) as Hlen.
      { rewrite <-Hn, <-(length_fmap id (players stj)), Hids.
        apply length_fmap. }
      destruct (lookup_lt_is_Some_2 (players stj) i0) as [p Hp]; [lia|].
      assert (currentTurnId stj = Some (id p)) as Hcp.
      { rewrite Hc, <-Hids, list_lookup_fmap, Hp. done. }
      destruct (nextTurn_at stj i0 p) as (Hm' & Hps & Hin & Hwrap & _);
        [by rewrite Hids|done|done|].
      rewrite Hlen in Hin, Hwrap.
      assert (id <$> players (nextTurn stj) = id <$> players st) as Hids'
        by (by rewrite ids_nextTurn).
      destruct Hcase as [(Hlt & -> & ->)|(Heq & -> & ->)].
      + destruct (Hin Hlt) as (H1 & H2 & H3).
        split_and!; try congruence.
      + destruct (Hwrap Heq) as (H1 & H2 & H3); [lia|].
        split_and!; try congruence; lia. }
  split.
  - intros q i Hi Hq.
    destruct (Hpos' (q * n + i) q i eq_refl Hi Hq) as (? & ? & ? & _). done.
  - replace ((m + 1 - r) * n) with (S ((m - r) * n + (n - 1))) by nia.
    rewrite Nat.iter_succ.
    destruct (Hpos' ((m - r) * n + (n - 1)) (m - r) (n - 1) eq_refl)
      as (Hst & Hrd & Hc & Hids & Hmx); [lia|lia|].
    set (stj := Nat.iter ((m - r) * n + (n - 1)) nextTurn st) in *.
    assert (length (players stj) = n) as Hlen.
    { rewrite <-Hn, <-(length_fmap id (players stj)), Hids.
      apply length_fmap. }
    destruct (lookup_lt_is_Some_2 (players stj) (n - 1)) as [p Hp]; [lia|].
    assert (currentTurnId stj = Some (id p)) as Hcp.
    { rewrite Hc, <-Hids, list_lookup_fmap, Hp. done. }
    destruct (nextTurn_at stj (n - 1) p) as (_ & _ & _ & _ & Hvote);
      [by rewrite Hids|done|done|].
    apply Hvote; [lia|lia].
Qed.

Lemma turn_goes_round_witness :
  currentTurnId (Nat.iter 1 nextTurn (gm_state MeshPageSample.started))
  = Some "g1"
  ∧ round (Nat.iter 2 nextTurn (gm_state MeshPageSample.started)) = 2
  ∧ state (Nat.iter 6 nextTurn (gm_state MeshPageSample.started)) = VOTING.
Proof.
  assert (NoDup (id <$> players (gm_state MeshPageSample.started))) as Hnd
    by compute_done.
  destruct (turn_goes_round (gm_state MeshPageSample.started) 2 3 1 Hnd)
    as [Hpos Hvote]; [done|lia|done|done|lia|done|].
  split_and!.
  - apply (Hpos 0 1); lia.
  - apply (Hpos 1 0); lia.
  - exact Hvote.
Defined.

(** *** Starting from the lobby screen *)

(** X21.  The start button of the lobby screen does nothing without a
    word or with fewer than three players.  Otherwise, on the host, the
    start goes through: the room is in [ROLES] with the word typed, the
    impostor is one of the players, so one of at least three, the first
    player of the list holds the turn, every acknowledgement count is 0
    and every vote is cleared, names and scores are kept, and the new
    room is what the host publishes. *)
Theorem lobby_start (word : string) (connected : bool) (rnd : Draw) (now : Z)
    (gm : GameManager) :
  gm_isHost gm = true →
  let ps := players (gm_state gm) in
  (word = EmptyString ∨ length ps < 3 →
   lobbyStartGame word connected rnd now gm = None)
  ∧ (word ≠ EmptyString → 3 ≤ length ps →
     ∃ imp first,
       imp ∈ ps ∧ ps !! 0 = Some first
       ∧ lobbyStartGame word connected rnd now gm
         = Some (Completed
                   (withState gm
                      {| roomId := roomId (gm_state gm); state := ROLES;
                         players := resetPlayer true <$> ps;
                         messages := messages (gm_state gm);
                         imposterId := Some (id imp); secretWord := word;
                         currentTurnId := Some (id first);
                         round := round (gm_state gm);
                         maxRounds := maxRounds (gm_state gm);
                         startTime := now |})
                   [ {| roomId := roomId (gm_state gm); state := ROLES;
                        players := resetPlayer true <$> ps;
                        messages := messages (gm_state gm);
                        imposterId := Some (id imp); secretWord := word;
                        currentTurnId := Some (id first);
                        round := round (gm_state gm);
                        maxRounds := maxRounds (gm_state gm);
                        startTime := now |} ], None)
       ∧ Forall (λ p, passedCount p = 0 ∧ votedFor p = None)
                (resetPlayer true <$> ps)
       ∧ (score <$> (resetPlayer true <$> ps)) = (score <$> ps)
       ∧ (name <$> (resetPlayer true <$> ps)) = (name <$> ps)).
Proof.
  intros Hh ps. unfold lobbyStartGame. fold ps. split.
  - intros [->|Hlt]; [done|].
    case_bool_decide; [done|]. by rewrite bool_decide_eq_true_2.
  - intros Hw Hlen.
    rewrite bool_decide_eq_false_2 by done.
    rewrite bool_decide_eq_false_2 by lia.
    destruct (lookup_lt_is_Some_2 ps (floor_scale rnd (length ps)))
      as [imp Himp]; [apply floor_scale_lt; lia|].
    destruct (lookup_lt_is_Some_2 ps 0) as [first Hfirst]; [lia|].
    exists imp, first. split; [by eapply list_elem_of_lookup_2|].
    split; [done|]. split_and!.
    + unfold sendAction. rewrite Hh. unfold handleMessage. rewrite Hh.
      unfold hostAction. simpl. unfold startGame. rewrite Hh. simpl.
      fold ps. rewrite Himp, Hfirst. unfold broadcastState. simpl.
      by rewrite Hh.
    + apply Forall_fmap, Forall_true. done.
    + rewrite <-list_fmap_compose. by apply list_fmap_ext.
    + rewrite <-list_fmap_compose. by apply list_fmap_ext.
Qed.

Lemma lobby_start_witness :
  ∃ o, lobbyStartGame "Pizza" true (mkDraw 1 2) 5 MeshPageSample.host3
       = Some (o, None)
       ∧ state (gm_state (manager o)) = ROLES.
Proof.
  assert (gm_isHost MeshPageSample.host3 = true) as Hh by done.
  destruct (lobby_start "Pizza" true (mkDraw 1 2) 5 MeshPageSample.host3 Hh)
    as [_ Hstart].
  destruct Hstart as (imp & first & _ & _ & Heq & _); [done|simpl; lia|].
  eexists. split; [exact Heq|done].
Defined.

(** *** What the guests see *)

(** X22.  When the host has handled an [ACTION], either nothing changed
    and nothing is sent, or the one snapshot sent is the host's new room,
    so that a guest that receives it holds the host's room.  The handler
    fails in one case only: [START_GAME] in a room without players. *)
Theorem guests_follow_host (action : string) (payload : Payload)
    (senderId : string) (rnd : Draw) (now : Z) (host : GameManager) :
  gm_isHost host = true →
  match handleMessage (ACTION action payload senderId) rnd now host with
  | Completed host' sent =>
      (sent = [] ∧ host' = host)
      ∨ (sent = [gm_state host']
         ∧ ∀ guest rnd' now',
             handleMessage (STATE_SYNC (gm_state host')) rnd' now' guest
             = Completed (withState guest (gm_state host')) [])
  | Threw _ => action = "START_GAME" ∧ players (gm_state host) = []
  end.
Proof.
  intros Hh. unfold handleMessage at 1. rewrite Hh.
  assert (∀ st, match broadcastState (withState host st) with
                | Completed host' sent =>
                    (sent = [] ∧ host' = host)
                    ∨ (sent = [gm_state host']
                       ∧ ∀ guest rnd' now',
                           handleMessage (STATE_SYNC (gm_state host')) rnd' now' guest
                           = Completed (withState guest (gm_state host')) [])
                | Threw _ => action = "START_GAME" ∧ players (gm_state host) = []
                end) as Hb.
  { intros st. unfold broadcastState. simpl. rewrite Hh. by right. }
  unfold hostAction.
  case_bool_decide as Hjoin.
  { destruct (list_find _ _); [by left|apply Hb]. }
  case_bool_decide as Hchat; [apply Hb|].
  case_bool_decide as Hstart.
  { unfold startGame. rewrite Hh. simpl.
    destruct (players (gm_state host) !! floor_scale rnd _) as [imp|] eqn:Himp.
    - destruct (players (gm_state host) !! 0) as [first|] eqn:Hfirst; [apply Hb|].
      split; [done|]. by destruct (players (gm_state host)).
    - split; [done|]. destruct (players (gm_state host)) as [|p ps] eqn:Hps; [done|].
      apply lookup_ge_None in Himp.
      pose proof (floor_scale_lt rnd (length (p :: ps))) as Hlt.
      simpl in *. lia. }
  case_bool_decide as Hpass.
  { destruct (list_find _ _) as [[i p]|]; [apply Hb|by left]. }
  case_bool_decide as Hvote; [apply Hb|by left].
Qed.

Lemma guests_follow_host_witness :
  gm_isHost MeshSample.host = true
  ∧ match handleMessage (ACTION "JOIN" MeshSample.joinPayload "g2")
            (mkDraw 0 0) 7 MeshSample.host with
    | Completed host' sent =>
        (sent = [] ∧ host' = MeshSample.host)
        ∨ (sent = [gm_state host']
           ∧ ∀ guest rnd' now',
               handleMessage (STATE_SYNC (gm_state host')) rnd' now' guest
               = Completed (withState guest (gm_state host')) [])
    | Threw _ => "JOIN" = "START_GAME" ∧ players (gm_state MeshSample.host) = []
    end.
Proof.
  assert (gm_isHost MeshSample.host = true) as Hh by done.
  split; [exact Hh|].
  exact (guests_follow_host "JOIN" MeshSample.joinPayload "g2"
           (mkDraw 0 0) 7 MeshSample.host Hh).
Defined.

(** *** Votes *)

(** X23.  A [VOTE] from a player is stored in that player's record and
    in no other, and replaces an earlier vote of the same player.  While
    somebody has not voted nothing else changes.  When the vote completes
    the set, the room goes to [RESULTS] and the scores are added in the
    same step: 5 to the impostor, 10 to every other player whose vote
    names the impostor, nothing to the rest. *)
Theorem vote_is_recorded_then_scored (payload : Payload) (senderId : string)
    (rnd : Draw) (now : Z) (host : GameManager) (i : nat) (voter : Player)
    (imp : string) :
  gm_isHost host = true → NoDup (id <$> players (gm_state host)) →
  players (gm_state host) !! i = Some voter → id voter = senderId →
  imposterId (gm_state host) = Some imp →
  let ps' := <[ i := setVotedFor (p_targetId payload) voter ]>
               (players (gm_state host)) in
  ∃ host',
    handleMessage (ACTION "VOTE" payload senderId) rnd now host
    = Completed host' [gm_state host']
    ∧ (votedFor <$> players (gm_state host')) = (votedFor <$> ps')
    ∧ ((∃ p, p ∈ ps' ∧ truthy (votedFor p) = false) →
       gm_state host' = withPlayers (gm_state host) ps')
    ∧ ((∀ p, p ∈ ps' → truthy (votedFor p) = true) →
       state (gm_state host') = RESULTS
       ∧ ∀ j p, ps' !! j = Some p →
           ∃ p', players (gm_state host') !! j = Some p'
             ∧ id p' = id p
             ∧ score p'
               = (score p
                  + (if bool_decide (id p = imp) then 5
                     else if bool_decide (votedFor p = Some imp) then 10
                          else 0))%Z).
Proof.
  intros Hh Hnd Hv Hid Himp ps'.
  assert (list_find (λ p, id p = senderId) (players (gm_state host))
          = Some (i, voter)) as Hfind.
  { apply list_find_Some. split; [done|]. split; [done|].
    intros j q Hq Hlt Heq. assert (j = i); [|lia].
    eapply NoDup_lookup; [exact Hnd|..].
    - by rewrite list_lookup_fmap, Hq.
    - by rewrite list_lookup_fmap, Hv; simpl; rewrite Hid, Heq. }
  unfold handleMessage, hostAction. rewrite Hh.
  repeat (rewrite bool_decide_eq_false_2 by done).
  rewrite bool_decide_eq_true_2 by done. rewrite Hfind. fold ps'.
  set (st1 := if forallb (λ p, truthy (votedFor p)) ps'
              then withPhase (calculateScores (withPlayers (gm_state host) ps'))
                     RESULTS
              else withPlayers (gm_state host) ps').
  exists (withState host st1).
  split; [unfold broadcastState; simpl; by rewrite Hh|].
  unfold st1. simpl.
  destruct (forallb (λ p, truthy (votedFor p)) ps') eqn:Hall.
  - assert (∀ p, p ∈ ps' → truthy (votedFor p) = true) as Hall'.
    { apply Is_true_true_2, forallb_True in Hall.
      rewrite Forall_forall in Hall. intros p Hp.
      by apply Is_true_true_1, Hall. }
    simpl. split_and!.
    + rewrite <-list_fmap_compose. by apply list_fmap_ext.
    + intros (p & Hp & Hf). rewrite (Hall' p Hp) in Hf. done.
    + intros _. split; [done|]. intros j p Hp.
      exists (scoreOne (imposterId (gm_state host)) p).
      rewrite list_lookup_fmap, Hp. split; [done|]. split; [done|].
      rewrite Himp, MeshFacts.scoreOne_spec.
      assert (truthy (votedFor p) = true) as ->
        by (apply Hall'; by eapply list_elem_of_lookup_2).
      f_equal. destruct (decide (id p = imp)) as [Hi|Hi].
      * rewrite (bool_decide_eq_false_2 (id p ≠ imp ∧ _)) by tauto.
        by rewrite !(bool_decide_eq_true_2 (id p = imp)) by done.
      * rewrite !(bool_decide_eq_false_2 (id p = imp)) by done. simpl.
        destruct (decide (votedFor p = Some imp)).
        -- by rewrite !bool_decide_eq_true_2.
        -- rewrite !bool_decide_eq_false_2; [done|done|tauto].
  - simpl. split_and!; try done. intros Hall'.
    assert (forallb (λ p, truthy (votedFor p)) ps' = true) as Ht; [|congruence].
    apply Is_true_true_1, forallb_True, Forall_forall.
    intros p Hp. by apply Is_true_true_2, Hall'.
Qed.

Lemma vote_is_recorded_then_scored_witness :
  ∃ host',
    handleMessage
      (ACTION "VOTE"
         {| p_name := EmptyString; p_text := EmptyString;
            p_word := EmptyString; p_targetId := Some "h1" |} "g1")
      (mkDraw 0 0) 9 MeshPageSample.started
    = Completed host' [gm_state host']
    ∧ (votedFor <$> players (gm_state host')) = [None; Some "h1"].
Proof.
  assert (NoDup (id <$> players (gm_state MeshPageSample.started))) as Hnd
    by compute_done.
  destruct (vote_is_recorded_then_scored
              {| p_name := EmptyString; p_text := EmptyString;
                 p_word := EmptyString; p_targetId := Some "h1" |}
              "g1" (mkDraw 0 0) 9 MeshPageSample.started 1
              (resetPlayer true MeshSample.guestPlayer) "h1")
    as (host' & Heq & Hvotes & _); [done|exact Hnd|done|done|done|].
  exists host'. split; [exact Heq|]. rewrite Hvotes. done.
Defined.

(** *** A player who leaves *)

(** X24.  When a connection closes the host drops the player with that
    id and publishes the room; the rest of the room, the turn included,
    stays as it was.  If the player who left held the turn, the turn stays
    with the id that is gone and every later [PASS_TURN] is ignored. *)
Theorem turn_holder_leaves (peer : string) (host : GameManager) :
  gm_isHost host = true →
  currentTurnId (gm_state host) = Some peer →
  ∃ host',
    onClose peer host = Completed host' [gm_state host']
    ∧ gm_state host'
      = withPlayers (gm_state host)
          (filter (λ p, id p ≠ peer) (players (gm_state host)))
    ∧ (∀ p, p ∈ players (gm_state host') → id p ≠ peer)
    ∧ ∀ payload senderId rnd now,
        handleMessage (ACTION "PASS_TURN" payload senderId) rnd now host'
        = Completed host' [].
Proof.
  intros Hh Hcur.
  exists (withState host
            (withPlayers (gm_state host)
               (filter (λ p, id p ≠ peer) (players (gm_state host))))).
  split_and!.
  - unfold onClose, broadcastState. rewrite Hh. simpl. by rewrite Hh.
  - done.
  - simpl. intros p Hp. by apply list_elem_of_filter in Hp as [? _].
  - intros payload senderId rnd now. unfold handleMessage, hostAction.
    cbn [gm_isHost withState]. rewrite Hh.
    repeat (rewrite bool_decide_eq_false_2 by done).
    rewrite bool_decide_eq_true_2 by done.
    destruct (list_find _ _) as [[i p]|] eqn:Hfind; [|done].
    apply list_find_Some in Hfind as (Hp & Hid & _).
    apply list_elem_of_lookup_2, list_elem_of_filter in Hp as [Hne _].
    simpl in Hid. rewrite Hcur in Hid. by injection Hid.
Qed.

Lemma turn_holder_leaves_witness :
  ∃ host',
    onClose "h1" MeshPageSample.started = Completed host' [gm_state host']
    ∧ handleMessage (ACTION "PASS_TURN" MeshSample.joinPayload "g1")
        (mkDraw 0 0) 9 host'
      = Completed host' [].
Proof.
  destruct (turn_holder_leaves "h1" MeshPageSample.started)
    as (host' & Heq & _ & _ & Hpass); [done|done|].
  exists host'. split; [exact Heq|apply Hpass].
Defined.

(** *** The clock of the game screen *)

(** X25.  The elapsed time shown on the game screen splits the whole
    seconds since the start into minutes and seconds below 60, as long as
    the clock of the viewer is not behind the [startTime] set by the
    host. *)
Theorem elapsed_time_is_split (now startTime : Z) :
  (startTime ≤ now)%Z →
  (0 ≤ elapsedSeconds now startTime < 60
   ∧ 0 ≤ elapsedMinutes now startTime
   ∧ 60 * elapsedMinutes now startTime + elapsedSeconds now startTime
     = (now - startTime) / 1000)%Z.
Proof.
  intros Hle. unfold elapsedSeconds, elapsedMinutes.
  rewrite Z.rem_mod_nonneg by lia.
  set (e := (now - startTime)%Z). assert (0 ≤ e)%Z as He by (unfold e; lia).
  clearbody e. Z.to_euclidean_division_equations. lia.
Qed.

Lemma elapsed_time_is_split_witness :
  (60000 ≤ 185500
   ∧ 0 ≤ elapsedSeconds 185500 60000 < 60
   ∧ 0 ≤ elapsedMinutes 185500 60000
   ∧ 60 * elapsedMinutes 185500 60000 + elapsedSeconds 185500 60000
     = (185500 - 60000) / 1000)%Z.
Proof.
  assert (60000 ≤ 185500)%Z as Hle by lia.
  split; [exact Hle|]. exact (elapsed_time_is_split 185500 60000 Hle).
Defined.

End MeshPageFacts.

(** ** The commentary request *)

Module GeminiFacts.
Import Gemini.

Lemma callGemini_runs {A} (answer : nat → option A) :
  (∀ j v, j < 5 → (∀ i, i < j → answer i = None) → answer j = Some v →
     callGemini answer
     = mkRun (Returned v) (j + 1) (1000 * (2 ^ Z.of_nat j - 1))%Z)
  ∧ ((∀ i, i < 5 → answer i = None) →
     callGemini answer = mkRun Thrown 5 15000%Z)
  ∧ 1 ≤ requests (callGemini answer) ≤ 5
  ∧ (0 ≤ waited (callGemini answer) ≤ 15000)%Z
  ∧ result (callGemini answer) ≠ Ended.
Proof.
  unfold callGemini. refine (conj _ (conj _ (conj _ (conj _ _)))).
  - intros j v Hj Hnone Hsome.
    assert (∀ i, i < j → answer i = None) as H by done.
    destruct j as [|[|[|[|[|j]]]]]; [..|lia]; simpl.
    + by rewrite Hsome.
    + rewrite (H 0) by lia. simpl. by rewrite Hsome.
    + rewrite (H 0), (H 1) by lia. simpl. by rewrite Hsome.
    + rewrite (H 0), (H 1), (H 2) by lia. simpl. by rewrite Hsome.
    + rewrite (H 0), (H 1), (H 2), (H 3) by lia. simpl. by rewrite Hsome.
  - intros Hnone. simpl.
    by rewrite (Hnone 0), (Hnone 1), (Hnone 2), (Hnone 3), (Hnone 4) by lia.
  - simpl. destruct (answer 0); simpl; [lia|].
    destruct (answer 1); simpl; [lia|]. destruct (answer 2); simpl; [lia|].
    destruct (answer 3); simpl; [lia|]. destruct (answer 4); simpl; lia.
  - simpl. destruct (answer 0); simpl; [lia|].
    destruct (answer 1); simpl; [lia|]. destruct (answer 2); simpl; [lia|].
    destruct (answer 3); simpl; [lia|]. destruct (answer 4); simpl; lia.
  - simpl. destruct (answer 0); simpl; [done|].
    destruct (answer 1); simpl; [done|]. destruct (answer 2); simpl; [done|].
    destruct (answer 3); simpl; [done|]. by destruct (answer 4).
Qed.

(** X26.  [callGemini] makes at most five requests.  It returns the
    value of the first request that succeeds, having waited 1000, 2000,
    4000, ... milliseconds after the failures before it; when five in a
    row fail it throws, after 15 seconds of waiting in all.  The loop is
    never left without a value or an error.  [generateAiRoast] ends with
    its busy flag off and shows the text obtained, or its fixed line when
    the call has thrown. *)
Theorem callGemini_backoff (answer : nat → option (option string)) :
  (∀ j roast, j < 5 → (∀ i, i < j → answer i = None) →
     answer j = Some roast →
     callGemini answer
     = mkRun (Returned roast) (j + 1) (1000 * (2 ^ Z.of_nat j - 1))%Z
     ∧ generateAiRoast answer = (roast, false))
  ∧ ((∀ i, i < 5 → answer i = None) →
     callGemini answer = mkRun Thrown 5 15000%Z
     ∧ generateAiRoast answer
       = (Some "The AI was too stunned by this gameplay to formulate a comment.",
          false))
  ∧ 1 ≤ requests (callGemini answer) ≤ 5
  ∧ (0 ≤ waited (callGemini answer) ≤ 15000)%Z
  ∧ result (callGemini answer) ≠ Ended
  ∧ (generateAiRoast answer).2 = false.
Proof.
  destruct (callGemini_runs answer) as (Hfirst & Hfail & Hreq & Hwait & Hres).
  refine (conj _ (conj _ (conj Hreq (conj Hwait (conj Hres _))))).
  - intros j roast Hj Hnone Hsome. split; [by apply Hfirst|].
    unfold generateAiRoast. by rewrite (Hfirst j roast Hj Hnone Hsome).
  - intros Hnone. split; [by apply Hfail|].
    unfold generateAiRoast. by rewrite (Hfail Hnone).
  - unfold generateAiRoast. by destruct (result (callGemini answer)).
Qed.

Lemma callGemini_backoff_witness :
  callGemini (λ k, if bool_decide (k = 2) then Some (Some "roast") else None)
  = mkRun (Returned (Some "roast")) 3 3000%Z
  ∧ generateAiRoast
      (λ k, if bool_decide (k = 2) then Some (Some "roast") else None)
    = (Some "roast", false).
Proof.
  apply (proj1 (callGemini_backoff
                  (λ k, if bool_decide (k = 2) then Some (Some "roast")
                        else None))
           2 (Some "roast")).
  - lia.
  - intros i Hi. rewrite bool_decide_eq_false_2; [done|lia].
  - done.
Defined.

End GeminiFacts.
